(** * Pagination and overflow handling of the document processor

    A shallow embedding of [src/js/core/PageManager.js] (with the helpers it
    imports from [utils/DOMUtils.js] and [utils/Constants.js]) and the
    properties of its overflow pass.

    The DOM is modelled as far as the page manager reads and writes it:
    - a block node is a record with the fields the code looks at
      ([nodeType], [tagName], [textContent]) and its serialisation
      ([outerHTML]); [nid] stands for the identity of the JavaScript object;
    - an element knows its following element siblings (the chain obtained by
      repeating [nextElementSibling]); the model passes that chain along;
    - layout ([scrollHeight] of a content area, [scrollHeight] of the
      off-screen measurement div) is the browser's business and is a
      parameter of the development;
    - numbers are integers ([clientHeight] and [scrollHeight] are DOM longs),
      strings are sequences of 8-bit code units;
    - the page wrapper exists and its element children are [div]s, pages or
      not, as [index.html] and [createNewPageElement] make them;
    - the mutation observer, the table of contents, the status line and the
      caret are left out: no step of the overflow pass reads them. *)

From Stdlib Require Import ZArith List Bool String Ascii Lia PeanoNat.
Import ListNotations.
Open Scope Z_scope.

Set Implicit Arguments.

(* ------------------------------------------------------------------ *)
(** ** JavaScript strings *)

Module JsString.

(** White space removed by [String.prototype.trim], restricted to the
    code units below 256: TAB, LF, VT, FF, CR, SPACE and NBSP. *)
Definition isWhiteSpace (c : ascii) : bool :=
  let n := nat_of_ascii c in
  ((9 <=? n)%nat && (n <=? 13)%nat) || (n =? 32)%nat || (n =? 160)%nat.

Fixpoint trimStart (s : string) : string :=
  match s with
  | EmptyString => EmptyString
  | String c s' => if isWhiteSpace c then trimStart s' else s
  end.

Fixpoint reverse (acc s : string) : string :=
  match s with
  | EmptyString => acc
  | String c s' => reverse (String c acc) s'
  end.

Definition trimEnd (s : string) : string :=
  reverse EmptyString (trimStart (reverse EmptyString s)).

Definition trim (s : string) : string := trimEnd (trimStart s).

(** [s.endsWith(suffix)] *)
Definition endsWith (s suffix : string) : bool :=
  let n := String.length s in
  let k := String.length suffix in
  (k <=? n)%nat && String.eqb (substring (n - k) k s) suffix.

(** [s.includes(sub)]: [sub] occurs at some position of [s]. *)
Fixpoint includes (s sub : string) : bool :=
  prefix sub s ||
  match s with
  | EmptyString => false
  | String _ s' => includes s' sub
  end.

(** [array.includes(x)] for an array of strings. *)
Definition arrayIncludes (l : list string) (x : string) : bool :=
  existsb (String.eqb x) l.

End JsString.

(* ------------------------------------------------------------------ *)
(** ** Outcomes of JavaScript calls *)

Inductive JsError : Type :=
| TypeError      (* property access on null or undefined *)
| DOMException.  (* an error raised by a DOM operation *)

Inductive Outcome (A : Type) : Type :=
| Returned (a : A)
| Thrown (e : JsError).

Arguments Returned {A} a.
Arguments Thrown {A} e.

(* ------------------------------------------------------------------ *)
(** ** Block nodes *)

Record Node : Type := mkNode {
  nid : nat;             (* object identity *)
  nodeType : Z;          (* 1 element, 3 text, 8 comment *)
  tagName : string;      (* upper case, empty for non-elements *)
  textContent : string;
  outerHTML : string     (* the node's HTML serialisation *)
}.

Definition sameNode (a b : Node) : bool := Nat.eqb (nid a) (nid b).

Definition isElement (n : Node) : bool := nodeType n =? 1.

(** [allNodes.indexOf(node)], by identity; -1 when absent. *)
Fixpoint indexOfFrom (i : Z) (allNodes : list Node) (node : Node) : Z :=
  match allNodes with
  | [] => -1
  | m :: rest => if sameNode m node then i else indexOfFrom (i + 1) rest node
  end.

Definition indexOf (allNodes : list Node) (node : Node) : Z :=
  indexOfFrom 0 allNodes node.

(** The siblings that follow [node] in its parent's child list [dom]
    (nothing when [node] is not a child of that parent). *)
Fixpoint siblingsAfter (dom : list Node) (node : Node) : list Node :=
  match dom with
  | [] => []
  | m :: rest => if sameNode m node then rest else siblingsAfter rest node
  end.

(** The chain [node.nextElementSibling],
    [node.nextElementSibling.nextElementSibling], ... *)
Definition nextElementSiblings (dom : list Node) (node : Node) : list Node :=
  filter isElement (siblingsAfter dom node).

(* ------------------------------------------------------------------ *)
(** ** KeepTogetherResolver *)

Module KeepTogether.
Import JsString.

Definition headingTags : list string :=
  ["H1"; "H2"; "H3"; "H4"; "H5"; "H6"]%string.

(** [shouldKeepWithNext(element)]; [siblings] is the chain of following
    element siblings of [element], so [element.nextElementSibling] is its
    head and [nextElement.nextElementSibling] the head of its tail. *)
Definition shouldKeepWithNext (element : option Node) (siblings : list Node)
  : bool :=
  match element with
  | None => false
  | Some element =>
    let elementTag := tagName element in
    match siblings with
    | [] => false
    | nextElement :: afterNext =>
      if arrayIncludes headingTags elementTag
         && (String.eqb (tagName nextElement) "TABLE"
             || arrayIncludes ["UL"; "OL"]%string (tagName nextElement)
             || (String.eqb (tagName nextElement) "P"
                 && (Z.of_nat (String.length (textContent nextElement)) <? 100)
                 && match afterNext with
                    | afterParagraph :: _ =>
                        String.eqb (tagName afterParagraph) "TABLE"
                    | [] => false
                    end))
      then true
      else if String.eqb elementTag "P"
              && endsWith (trim (textContent element)) ":"
              && arrayIncludes ["TABLE"; "UL"; "OL"]%string
                   (tagName nextElement)
      then true
      else false
    end
  end.

(** The loop of [getKeepTogetherGroup]: what is pushed after [current]. *)
Fixpoint keepTogetherTail (current : Node) (siblings : list Node)
  : list Node :=
  match siblings with
  | [] => []
  | next :: rest =>
    if shouldKeepWithNext (Some current) siblings
    then next :: keepTogetherTail next rest
    else []
  end.

Definition getKeepTogetherGroup (startElement : Node) (siblings : list Node)
  : list Node :=
  startElement :: keepTogetherTail startElement siblings.

End KeepTogether.

(* ------------------------------------------------------------------ *)
(** ** adjustSplitForKeepTogether *)

Module Splitter.
Import KeepTogether.

(** The inner loop over the group: the largest [allNodes.indexOf] of a
    member, starting from [i]. *)
Definition maxStep (allNodes : list Node) (groupEndIndex : Z)
           (groupNode : Node) : Z :=
  let nodeIndex := indexOf allNodes groupNode in
  if nodeIndex >? groupEndIndex then nodeIndex else groupEndIndex.

Definition groupEndIndexOf (allNodes : list Node) (i : Z)
           (group : list Node) : Z :=
  fold_left (maxStep allNodes) group i.

(** The body of the backward loop at index [i]: [true] when the loop
    sets [adjustedSplitIndex = i] and breaks. *)
Definition groupExtendsPastSplit (dom allNodes : list Node)
           (splitIndex : Z) (i : nat) (node : Node) : bool :=
  if nodeType node =? 1 then
    let group := getKeepTogetherGroup node (nextElementSiblings dom node) in
    if Z.of_nat (List.length group) >? 1 then
      groupEndIndexOf allNodes (Z.of_nat i) group >=? splitIndex
    else false
  else false.

(** [for (let i = splitIndex - 1; i >= 0; i--)], with [n = i + 1] indices
    still to visit.  [allNodes[i]] is undefined beyond the end of the
    array, and reading [node.nodeType] then throws. *)
Fixpoint scanBackward (dom allNodes : list Node) (splitIndex : Z) (n : nat)
  : Outcome Z :=
  match n with
  | O => Returned splitIndex
  | S i =>
    match nth_error allNodes i with
    | None => Thrown TypeError
    | Some node =>
      if groupExtendsPastSplit dom allNodes splitIndex i node
      then Returned (Z.of_nat i)
      else scanBackward dom allNodes splitIndex i
    end
  end.

(** [adjustSplitForKeepTogether(allNodes, splitIndex)]; [dom] is the child
    list of the nodes' parent, which the groups are read from. *)
Definition adjustSplitForKeepTogether (dom allNodes : list Node)
           (splitIndex : Z) : Outcome Z :=
  scanBackward dom allNodes splitIndex (Z.to_nat splitIndex).

End Splitter.

(* ------------------------------------------------------------------ *)
(** ** The measurement div and the split index *)

(** The off-screen div made by [createMeasurementContainer]: the style text
    and width copied from the content area, and the clones appended so far. *)
Record TempDiv : Type := mkTempDiv {
  tdCssText : string;
  tdWidth : Z;
  tdChildren : list Node
}.

Definition appendChild (tempDiv : TempDiv) (clone : Node) : TempDiv :=
  mkTempDiv (tdCssText tempDiv) (tdWidth tempDiv) (tdChildren tempDiv ++ [clone]).

Definition appendChildren (tempDiv : TempDiv) (clones : list Node) : TempDiv :=
  mkTempDiv (tdCssText tempDiv) (tdWidth tempDiv) (tdChildren tempDiv ++ clones).

(** The editable content area of a page. *)
Record Content : Type := mkContent {
  cssText : string;
  clientWidth : Z;
  clientHeight : Z;
  childNodes : list Node
}.

(** A child element of the page wrapper: a page when it carries the class
    [document-container]; [editable] is what
    [querySelector('.editable-content')] finds inside. *)
Record Container : Type := mkContainer {
  isDocumentContainer : bool;
  editable : option Content
}.

(** What the page manager reads and writes. *)
Record World : Type := mkWorld {
  pages : list Container;          (* element children of .page-wrapper *)
  scratch : list TempDiv;          (* measurement divs attached to body *)
  isProcessingOverflow : bool;
  pageCount : Z;
  pendingChecks : nat;             (* setTimeout(checkPageOverflow) not yet run *)
  focusedPage : option nat;        (* page whose content area has the focus *)
  overflowCalls : list nat;        (* calls of handlePageOverflow, by page index *)
  nextNodeId : nat                 (* identity of the next node created *)
}.

(** The browser's layout, and the style of a page made by
    [createNewPageElement] and [copyPageStyles]. *)
Record Layout : Type := mkLayout {
  scrollHeight : Content -> Z;
  tempDivScrollHeight : TempDiv -> option Z;   (* [None]: the read throws *)
  newPageCssText : string;
  newPageClientWidth : Z;
  newPageClientHeight : Z
}.

Module Measure.

(** The loop of [handlePageOverflow] over the nodes not yet cloned;
    [i] is the index of the first of them.  [-1] is the initial
    [splitIndex], left in place when the loop never breaks. *)
Fixpoint measureLoop (L : Layout) (availableHeight : Z) (rest : list Node)
         (i : Z) (currentHeight : Z) (tempDiv : TempDiv)
  : Outcome Z * TempDiv :=
  match rest with
  | [] => (Returned (-1), tempDiv)
  | node :: rest' =>
    let clone := node in
    let tempDiv := appendChild tempDiv clone in
    match tempDivScrollHeight L tempDiv with
    | None => (Thrown DOMException, tempDiv)
    | Some sh =>
      let nodeHeight := sh - currentHeight in
      if currentHeight + nodeHeight >? availableHeight
      then (Returned i, tempDiv)
      else measureLoop L availableHeight rest' (i + 1) sh tempDiv
    end
  end.

(** The sum of the measured heights of [nodes[0..i]]. *)
Definition cumulativeHeight (heights : list Z) (i : nat) : Z :=
  fold_right Z.add 0 (firstn (S i) heights).

End Measure.

(* ------------------------------------------------------------------ *)
(** ** Calls that read and write the world, and may throw *)

Definition M (A : Type) : Type := World -> Outcome A * World.

Definition ret {A} (a : A) : M A := fun w => (Returned a, w).

Definition throw {A} (e : JsError) : M A := fun w => (Thrown e, w).

Definition bind {A B} (m : M A) (k : A -> M B) : M B :=
  fun w =>
    match m w with
    | (Returned a, w') => k a w'
    | (Thrown e, w') => (Thrown e, w')
    end.

Definition liftOutcome {A} (o : Outcome A) : M A := fun w => (o, w).

Definition modify (f : World -> World) : M unit := fun w => (Returned tt, f w).

(** [try { body } finally { fin }], for a [fin] that cannot throw. *)
Definition tryFinally {A} (body : M A) (fin : World -> World) : M A :=
  fun w => let (o, w') := body w in (o, fin w').

Declare Scope js_scope.
Delimit Scope js_scope with js.
Notation "x <- m ;; k" := (bind m (fun x => k))
  (at level 61, m at next level, right associativity) : js_scope.
Notation "m ;;; k" := (bind m (fun _ => k))
  (at level 61, right associativity) : js_scope.

(** [array.forEach((item, index) => body)] *)
Fixpoint forEachFrom {A} (index : nat) (items : list A)
         (body : A -> nat -> M unit) : M unit :=
  match items with
  | [] => ret tt
  | item :: rest =>
      bind (body item index) (fun _ => forEachFrom (S index) rest body)
  end.

Definition forEach {A} (items : list A) (body : A -> nat -> M unit) : M unit :=
  forEachFrom 0 items body.

(* ------------------------------------------------------------------ *)
(** ** Field updates of the world *)

Definition withPages (f : list Container -> list Container) (w : World) : World :=
  mkWorld (f (pages w)) (scratch w) (isProcessingOverflow w) (pageCount w)
          (pendingChecks w) (focusedPage w) (overflowCalls w) (nextNodeId w).

Definition withScratch (f : list TempDiv -> list TempDiv) (w : World) : World :=
  mkWorld (pages w) (f (scratch w)) (isProcessingOverflow w) (pageCount w)
          (pendingChecks w) (focusedPage w) (overflowCalls w) (nextNodeId w).

Definition setProcessing (b : bool) (w : World) : World :=
  mkWorld (pages w) (scratch w) b (pageCount w)
          (pendingChecks w) (focusedPage w) (overflowCalls w) (nextNodeId w).

Definition setPageCount (n : Z) (w : World) : World :=
  mkWorld (pages w) (scratch w) (isProcessingOverflow w) n
          (pendingChecks w) (focusedPage w) (overflowCalls w) (nextNodeId w).

(** [setTimeout(() => this.checkPageOverflow(), 100)] *)
Definition setTimeoutCheck (w : World) : World :=
  mkWorld (pages w) (scratch w) (isProcessingOverflow w) (pageCount w)
          (S (pendingChecks w)) (focusedPage w) (overflowCalls w) (nextNodeId w).

Definition setFocus (p : nat) (w : World) : World :=
  mkWorld (pages w) (scratch w) (isProcessingOverflow w) (pageCount w)
          (pendingChecks w) (Some p) (overflowCalls w) (nextNodeId w).

Definition recordCall (pageIndex : nat) (w : World) : World :=
  mkWorld (pages w) (scratch w) (isProcessingOverflow w) (pageCount w)
          (pendingChecks w) (focusedPage w) (overflowCalls w ++ [pageIndex])
          (nextNodeId w).

Definition bumpNodeId (w : World) : World :=
  mkWorld (pages w) (scratch w) (isProcessingOverflow w) (pageCount w)
          (pendingChecks w) (focusedPage w) (overflowCalls w) (S (nextNodeId w)).

(** Replace the element at position [p] of a list ([l] unchanged when [p]
    is out of range). *)
Fixpoint updateAt {A} (p : nat) (f : A -> A) (l : list A) : list A :=
  match l, p with
  | [], _ => []
  | x :: rest, O => f x :: rest
  | x :: rest, S p' => x :: updateAt p' f rest
  end.

Fixpoint removeAt {A} (p : nat) (l : list A) : list A :=
  match l, p with
  | [], _ => []
  | _ :: rest, O => rest
  | x :: rest, S p' => x :: removeAt p' rest
  end.

Definition mapChildren (f : list Node -> list Node) (c : Container) : Container :=
  mkContainer (isDocumentContainer c)
    (match editable c with
     | Some ct => Some (mkContent (cssText ct) (clientWidth ct) (clientHeight ct)
                                  (f (childNodes ct)))
     | None => None
     end).

(** The child nodes of the content area of a wrapper child. *)
Definition nodesOf (c : Container) : list Node :=
  match editable c with
  | Some ct => childNodes ct
  | None => []
  end.

(** [content.innerHTML]: the serialisations of the children, in order. *)
Definition innerHTML (nodes : list Node) : string :=
  fold_right (fun n acc => (outerHTML n ++ acc)%string) EmptyString nodes.

(** [array.slice(start)] *)
Definition slice {A} (l : list A) (start : Z) : list A :=
  let len := Z.of_nat (List.length l) in
  let from := if start <? 0 then Z.max (len + start) 0 else start in
  skipn (Z.to_nat from) l.

(* ------------------------------------------------------------------ *)
(** ** PageManager *)

Module PageManager.
Import JsString KeepTogether Splitter Measure.
Local Open Scope js_scope.

(** [getAllDocumentContainers()]: the positions, among the wrapper's
    children, of the elements of class [document-container].  The list is
    static: it is not updated when a page is added. *)
Definition getAllDocumentContainers (w : World) : list nat :=
  filter (fun p => match nth_error (pages w) p with
                   | Some c => isDocumentContainer c
                   | None => false
                   end)
         (seq 0 (List.length (pages w))).

(** [container.querySelector('.editable-content')] *)
Definition querySelectorEditable (w : World) (container : nat)
  : option Content :=
  match nth_error (pages w) container with
  | Some c => editable c
  | None => None
  end.

Definition allChildNodes (w : World) : list Node :=
  List.concat (map nodesOf (pages w)).

(** [node.parentNode] is set: the node is a child of a content area, or
    already sits in the fragment being filled. *)
Definition hasParentNode (w : World) (fragment : list Node) (node : Node)
  : bool :=
  existsb (sameNode node) (allChildNodes w) || existsb (sameNode node) fragment.

Definition without (node : Node) (l : list Node) : list Node :=
  filter (fun m => negb (sameNode node m)) l.

(** [l] once each of [nodes] was taken out of it, one after the other. *)
Definition withoutAll (nodes : list Node) (l : list Node) : list Node :=
  fold_left (fun l node => without node l) nodes l.

(** Removing [node] from its parent, as [appendChild] does first. *)
Definition detach (node : Node) (w : World) : World :=
  withPages (map (mapChildren (without node))) w.

(** [createMeasurementContainer(content)]; the div is appended to the
    body and is referred to by its position there. *)
Definition createMeasurementContainer (content : Content) : M nat :=
  fun w =>
    let tempDiv := mkTempDiv (cssText content) (clientWidth content) [] in
    (Returned (List.length (scratch w)),
     withScratch (fun s => s ++ [tempDiv]) w).

(** The measuring loop, run on the div at position [tempDiv]. *)
Definition measureSplitIndex (L : Layout) (tempDiv : nat)
           (allNodes : list Node) (availableHeight : Z) : M Z :=
  fun w =>
    match nth_error (scratch w) tempDiv with
    | None => (Thrown TypeError, w)
    | Some div =>
      let (o, div') := measureLoop L availableHeight allNodes 0 0 div in
      (o, withScratch (updateAt tempDiv (fun _ => div')) w)
    end.

(** [document.body.removeChild(tempDiv)] *)
Definition removeChild (tempDiv : nat) : M unit :=
  modify (withScratch (removeAt tempDiv)).

(** The text node that the template of [createNewPageElement] leaves in
    the new content area: a line break and the indentation. *)
Definition templateText : string :=
  String (ascii_of_nat 10) "      ".

Definition templateNode (id : nat) : Node :=
  mkNode id 3 EmptyString templateText templateText.

(** The page built from the template, its text node being object [id]. *)
Definition newPageElement (L : Layout) (id : nat) : Container :=
  mkContainer true
    (Some (mkContent (newPageCssText L) (newPageClientWidth L)
                     (newPageClientHeight L) [templateNode id])).

Definition createNewPageElement (L : Layout) : M Container :=
  fun w => (Returned (newPageElement L (nextNodeId w)), bumpNodeId w).

(** [pageWrapper.querySelector('.document-container:last-of-type')]: the
    children of the wrapper are all [div]s, so only the last one is the
    last of its type. *)
Definition lastPageOf (w : World) : option nat :=
  match rev (pages w) with
  | c :: _ => if isDocumentContainer c
              then Some (List.length (pages w) - 1)%nat else None
  | [] => None
  end.

(** [addNewPage(focusNewPage)]; returns the position of the new page.
    The page is inserted after the last page, which is the last child of
    the wrapper; reading [lastPage.insertAdjacentElement] throws when there
    is none. *)
Definition addNewPage (L : Layout) (focusNewPage : bool) : M nat :=
  modify (fun w => setPageCount (pageCount w + 1) w) ;;;
  newPage <- createNewPageElement L ;;
  (fun w =>
     match lastPageOf w with
     | None => (Thrown TypeError, w)
     | Some lastPage =>
       let position := S lastPage in
       let w := withPages (fun ps => ps ++ [newPage]) w in
       let w := if focusNewPage then setFocus position w else w in
       (Returned position, w)
     end).

(** [moveContentToNextPage(allNodes, splitIndex, nextContent)];
    [nextContent] is the page whose content area receives the nodes, or
    [None] for [null].  [moveOne] is the callback of
    [nodesToMove.forEach], on the fragment filled so far. *)
Definition moveOne (st : list Node * World) (node : Node)
  : list Node * World :=
  let (fragment, w) := st in
  if hasParentNode w fragment node
  then (without node fragment ++ [node], detach node w)
  else st.

Definition fillFragment (nodesToMove : list Node) (w : World)
  : list Node * World :=
  fold_left moveOne nodesToMove ([], w).

Definition placeholderText : string := "Continue your content here".

Definition moveContentToNextPage (allNodes : list Node) (splitIndex : Z)
           (nextContent : option nat) : M unit :=
  fun w =>
    let nodesToMove := slice allNodes splitIndex in
    let (fragment, w) := fillFragment nodesToMove w in
    match nextContent with
    | None => (Thrown TypeError, w)
    | Some q =>
      let existing :=
        match nth_error (pages w) q with
        | Some c => nodesOf c
        | None => []
        end in
      let w :=
        if includes (innerHTML existing) placeholderText
        then withPages (updateAt q (mapChildren (fun _ => []))) w
        else w in
      (Returned tt,
       withPages (updateAt q (mapChildren (fun old => fragment ++ old))) w)
    end.

(** [handleCursorMovement(nodesToMove, splitIndex, nextContent,
    nextContainer)]: the focus goes to the receiving content area. *)
Definition handleCursorMovement (nodesToMove : list Node) (splitIndex : Z)
           (nextContent : option nat) (nextContainer : nat) : M unit :=
  if Z.of_nat (List.length nodesToMove) >? splitIndex then
    match nextContent with
    | None => throw TypeError
    | Some q => modify (setFocus q)
    end
  else ret tt.

Definition splitContentAtIndex (L : Layout) (container : nat)
           (content : Content) (allNodes : list Node) (splitIndex : Z)
  : M unit :=
  adjustedSplitIndex <-
    liftOutcome (adjustSplitForKeepTogether (childNodes content) allNodes
                                            splitIndex) ;;
  nextContainer <-
    (fun w =>
       match nth_error (pages w) (S container) with
       | Some c => if isDocumentContainer c
                   then ret (S container) w
                   else addNewPage L false w
       | None => addNewPage L false w
       end) ;;
  nextContent <-
    (fun w =>
       ret (match querySelectorEditable w nextContainer with
            | Some _ => Some nextContainer
            | None => None
            end) w) ;;
  moveContentToNextPage allNodes adjustedSplitIndex nextContent ;;;
  handleCursorMovement allNodes adjustedSplitIndex nextContent nextContainer ;;;
  modify setTimeoutCheck.

Definition handlePageOverflow (L : Layout) (container : nat)
           (content : Content) (availableHeight : Z) (pageIndex : nat)
  : M unit :=
  modify (recordCall pageIndex) ;;;
  tempDiv <- createMeasurementContainer content ;;
  let allNodes := childNodes content in
  splitIndex <- measureSplitIndex L tempDiv allNodes availableHeight ;;
  removeChild tempDiv ;;;
  if splitIndex >=? 0
  then splitContentAtIndex L container content allNodes splitIndex
  else ret tt.

(** The test of [checkPageOverflow] on one content area. *)
Definition isOverflowing (L : Layout) (content : Content) : bool :=
  let availableHeight := clientHeight content in
  let contentHeight := scrollHeight L content in
  contentHeight >? availableHeight + 2.

(** The callback of [containers.forEach] in [checkPageOverflow]. *)
Definition checkContainer (L : Layout) (container : nat) (index : nat)
  : M unit :=
  fun w =>
    match querySelectorEditable w container with
    | None => ret tt w
    | Some content =>
      let availableHeight := clientHeight content in
      let contentHeight := scrollHeight L content in
      if contentHeight >? availableHeight + 2
      then handlePageOverflow L container content availableHeight index w
      else ret tt w
    end.

Definition checkPageOverflow (L : Layout) : M unit :=
  fun w =>
    if isProcessingOverflow w then ret tt w
    else
      tryFinally
        (fun w => forEach (getAllDocumentContainers w) (checkContainer L) w)
        (setProcessing false)
        (setProcessing true w).

(** [getPageCount()] *)
Definition getPageCount (w : World) : Z := pageCount w.

End PageManager.

(* ------------------------------------------------------------------ *)
(** ** The vocabulary of the specification *)

Module Spec.
Import JsString KeepTogether PageManager.

Definition isHeading (n : Node) : Prop :=
  exists level, In level ["1"; "2"; "3"; "4"; "5"; "6"]%string
                /\ tagName n = ("H" ++ level)%string.

Definition isTable (n : Node) : Prop := tagName n = "TABLE"%string.

Definition isList (n : Node) : Prop :=
  tagName n = "UL"%string \/ tagName n = "OL"%string.

Definition isParagraph (n : Node) : Prop := tagName n = "P"%string.

Definition trimmedTextEndsWithColon (n : Node) : Prop :=
  exists before, trim (textContent n) = (before ++ ":")%string.

(** The three cases of section 4.1, for a node whose following element
    siblings are [siblings]. *)
Definition keepWithNextCase (n : Node) (siblings : list Node) : Prop :=
  exists next after, siblings = next :: after /\
    ( (isHeading n /\ (isTable next \/ isList next))
      \/ (isHeading n /\ isParagraph next
          /\ (String.length (textContent next) < 100)%nat
          /\ exists afterNext rest, after = afterNext :: rest /\ isTable afterNext)
      \/ (isParagraph n /\ trimmedTextEndsWithColon n
          /\ (isTable next \/ isList next)) ).

(** The keep-together group of the node at index [i] of [allNodes]
    straddles a cut at [splitIndex]: its last member lies at or after the
    cut. *)
Definition groupLastIndex (allNodes : list Node) (node : Node) : Z :=
  indexOf allNodes
    (last (getKeepTogetherGroup node (nextElementSiblings allNodes node)) node).

Definition straddlesCut (allNodes : list Node) (splitIndex : Z) (i : nat)
  : Prop :=
  exists node, nth_error allNodes i = Some node
               /\ isElement node = true
               /\ splitIndex <= groupLastIndex allNodes node.

(** The nodes of a document are distinct objects. *)
Definition distinctNodes (nodes : list Node) : Prop := NoDup (map nid nodes).

(** A document is a sequence of pages: every child of the wrapper is a
    page, no node sits in two places, and the nodes were created before
    the next one to come. *)
Definition wellFormed (w : World) : Prop :=
  Forall (fun c => isDocumentContainer c = true) (pages w)
  /\ distinctNodes (allChildNodes w)
  /\ Forall (fun n => (nid n < nextNodeId w)%nat) (allChildNodes w).

(** No content area holds the placeholder text. *)
Definition noPlaceholder (w : World) : Prop :=
  Forall (fun c => includes (innerHTML (nodesOf c)) placeholderText = false)
         (pages w).

(** The white-space text left by the page template is not content. *)
Definition isTemplateText (n : Node) : bool :=
  (nodeType n =? 3) && String.eqb (trim (textContent n)) EmptyString.

Definition isBlockNode (n : Node) : bool := negb (isTemplateText n).

(** The block nodes of all pages, in page order. *)
Definition blockNodes (w : World) : list Node :=
  filter isBlockNode (allChildNodes w).

(** The child nodes of [w'], page after page, are those of [w] in the
    same order, followed at most by template text of pages made since. *)
Definition conserved (w w' : World) : Prop :=
  exists stub,
    allChildNodes w' = allChildNodes w ++ stub
    /\ Forall (fun n => isTemplateText n = true) stub.

(** No page of the document overflows. *)
Definition noPageOverflows (L : Layout) (w : World) : Prop :=
  forall c content,
    In c (pages w) -> isDocumentContainer c = true ->
    editable c = Some content -> isOverflowing L content = false.

(** What splitting a page leaves alone: the measurement divs, the record
    of calls and the reentrancy flag. *)
Definition splitFrame (w w' : World) : Prop :=
  scratch w' = scratch w
  /\ overflowCalls w' = overflowCalls w
  /\ isProcessingOverflow w' = isProcessingOverflow w.

(** Every read of the measurement div's height succeeds while the
    children of [content] are measured. *)
Definition measurementSucceeds (L : Layout) (content : Content) : Prop :=
  forall k, (k < List.length (childNodes content))%nat ->
    tempDivScrollHeight L
      (mkTempDiv (cssText content) (clientWidth content)
                 (firstn (S k) (childNodes content))) <> None.

End Spec.

(* ------------------------------------------------------------------ *)
(** ** Sample documents *)

Module Sample.
Import PageManager.
Local Open Scope string_scope.

Definition para (id : nat) (text : string) : Node :=
  mkNode id 1 "P" text ("<p>" ++ text ++ "</p>").

Definition element (id : nat) (tag : string) : Node :=
  mkNode id 1 tag EmptyString ("<" ++ tag ++ "></" ++ tag ++ ">").

Definition text (id : nat) (s : string) : Node :=
  mkNode id 3 EmptyString s s.

Definition elementCount (l : list Node) : Z :=
  Z.of_nat (List.length (filter isElement l)).

(** Every element is 600 units high, in a page as in the measurement div. *)
Definition layout600 : Layout :=
  mkLayout (fun c => 600 * elementCount (childNodes c))
           (fun sb => Some (600 * elementCount (tdChildren sb)))
           EmptyString 624 864.

(** The same pages, with a measurement div whose height cannot be read. *)
Definition layoutThrowing : Layout :=
  mkLayout (fun c => 600 * elementCount (childNodes c))
           (fun _ => None)
           EmptyString 624 864.

(** A content area 624 wide and 864 high, and the page around it. *)
Definition contentArea (l : list Node) : Content :=
  mkContent EmptyString 624 864 l.

Definition page (l : list Node) : Container :=
  mkContainer true (Some (contentArea l)).

(** The measurement div made for such a content area, still empty. *)
Definition emptyDiv : TempDiv := mkTempDiv EmptyString 624 [].

Definition document (ps : list Container) : World :=
  mkWorld ps [] false (Z.of_nat (List.length ps)) 0 None [] 100.

Definition threeParagraphs : list Node :=
  [para 1 "a"; para 2 "b"; para 3 "c"].

Definition mixedNodes : list Node :=
  [para 0 "intro"; element 1 "H2"; element 2 "TABLE"; para 3 "outro"].

(** Heights by tag: a table 800, a heading 100, any other element 300. *)
Definition heightOf (n : Node) : Z :=
  if negb (isElement n) then 0
  else if String.eqb (tagName n) "TABLE" then 800
  else if String.eqb (tagName n) "H2" then 100
  else 300.

Definition totalHeight (l : list Node) : Z :=
  fold_right (fun n acc => heightOf n + acc) 0 l.

Definition layoutByTag : Layout :=
  mkLayout (fun c => totalHeight (childNodes c))
           (fun div => Some (totalHeight (tdChildren div)))
           EmptyString 624 864.

(** Every element is 950 units high. *)
Definition layout950 : Layout :=
  mkLayout (fun c => 950 * elementCount (childNodes c))
           (fun div => Some (950 * elementCount (tdChildren div)))
           EmptyString 624 864.

Definition placeholder : Node := para 7 "Continue your content here...".

Definition quoting : Node :=
  para 8 "The template said: Continue your content here".

End Sample.

(* ------------------------------------------------------------------ *)
(** ** DOMUtils: findFirstTextNode *)

Module DomTree.
Import JsString.

(** A node with its subtree: the node type, the character data of a text
    node, and the child nodes. *)
Unset Elimination Schemes.
Inductive DomNode : Type :=
| mkDomNode (domType : Z) (domData : string) (domChildren : list DomNode).
Set Elimination Schemes.

Definition domNodeType (n : DomNode) : Z :=
  match n with mkDomNode ty _ _ => ty end.

Definition domTextContent (n : DomNode) : string :=
  match n with mkDomNode _ data _ => data end.

Definition domChildNodes (n : DomNode) : list DomNode :=
  match n with mkDomNode _ _ children => children end.

(** [node.nodeType === 3 && node.textContent.trim()] *)
Definition isNonBlankText (n : DomNode) : bool :=
  (domNodeType n =? 3)
  && negb (String.eqb (trim (domTextContent n)) EmptyString).

(** [findFirstTextNode(node)] *)
Fixpoint findFirstTextNode (node : DomNode) : option DomNode :=
  if isNonBlankText node then Some node
  else
    match node with
    | mkDomNode _ _ children =>
      (fix firstIn (childNodes : list DomNode) : option DomNode :=
         match childNodes with
         | [] => None
         | child :: rest =>
           match findFirstTextNode child with
           | Some found => Some found
           | None => firstIn rest
           end
         end) children
    end.

(** The nodes of a subtree in document order. *)
Fixpoint documentOrder (node : DomNode) : list DomNode :=
  match node with
  | mkDomNode _ _ children => node :: flat_map documentOrder children
  end.

Definition textNode (data : string) : DomNode := mkDomNode 3 data [].

Definition elementNode (children : list DomNode) : DomNode :=
  mkDomNode 1 EmptyString children.

End DomTree.

(* ------------------------------------------------------------------ *)
(** ** DOMUtils: debounce *)

Module Timers.

(** The closure made by [debounce(func, delay)], with the timers it has
    pending in the browser and the calls of [func] made so far.  The same
    pattern, on [this.overflowTimeout], is in [setupInputMonitoring]. *)
Record Debounced (A : Type) : Type := mkDebounced {
  timeoutId : option nat;        (* [undefined] before the first call *)
  timers : list (nat * A);       (* pending timers: identifier, arguments *)
  nextTimerId : nat;             (* the identifier [setTimeout] gives next *)
  calls : list A                 (* arguments of the calls of [func] *)
}.

Arguments mkDebounced {A} _ _ _ _.

Definition initial {A} (firstId : nat) : Debounced A :=
  mkDebounced None [] firstId [].

(** [clearTimeout(id)] *)
Definition clearTimeout {A} (id : option nat) (pending : list (nat * A))
  : list (nat * A) :=
  match id with
  | None => pending
  | Some i => filter (fun t => negb (Nat.eqb (fst t) i)) pending
  end.

(** A call of the debounced function:
    [clearTimeout(timeoutId); timeoutId = setTimeout(..., delay)]. *)
Definition invoke {A} (args : A) (st : Debounced A) : Debounced A :=
  let pending := clearTimeout (timeoutId st) (timers st) in
  let id := nextTimerId st in
  mkDebounced (Some id) (pending ++ [(id, args)]) (S id) (calls st).

(** The browser runs the callback of timer [id], if it is still pending. *)
Definition expire {A} (id : nat) (st : Debounced A) : Debounced A :=
  match find (fun t => Nat.eqb (fst t) id) (timers st) with
  | Some (_, args) =>
      mkDebounced (timeoutId st)
                  (filter (fun t => negb (Nat.eqb (fst t) id)) (timers st))
                  (nextTimerId st) (calls st ++ [args])
  | None => st
  end.

(** Some other code takes a timer identifier. *)
Definition foreignTimer {A} (st : Debounced A) : Debounced A :=
  mkDebounced (timeoutId st) (timers st) (S (nextTimerId st)) (calls st).

Inductive Event (A : Type) : Type :=
| Invoke (args : A)
| Expire (id : nat)
| Foreign.

Arguments Invoke {A} args.
Arguments Expire {A} id.
Arguments Foreign {A}.

Definition step {A} (st : Debounced A) (e : Event A) : Debounced A :=
  match e with
  | Invoke args => invoke args st
  | Expire id => expire id st
  | Foreign => foreignTimer st
  end.

Definition run {A} (events : list (Event A)) (st : Debounced A) : Debounced A :=
  fold_left step events st.

(** The arguments of the calls of the debounced function among events. *)
Fixpoint invoked {A} (events : list (Event A)) : list A :=
  match events with
  | [] => []
  | Invoke args :: rest => args :: invoked rest
  | _ :: rest => invoked rest
  end.

(** At most one timer is pending, and it is the one [timeoutId] names. *)
Definition singlePending {A} (st : Debounced A) : Prop :=
  timers st = []
  \/ exists id args, timers st = [(id, args)] /\ timeoutId st = Some id.

End Timers.

(* ------------------------------------------------------------------ *)
(** ** PageManager: margin guides *)

Module Margins.

(** The class [show-margins] of each page, in document order; only pages
    carry it. *)
Definition anyShown (containers : list bool) : bool :=
  existsb (fun shown => shown) containers.

(** [toggleMargins()] *)
Definition toggleMargins (containers : list bool) : list bool :=
  let showMargins := negb (anyShown containers) in
  map (fun _ => showMargins) containers.

(** The class given to a page by [createNewPageElement], and the pages
    once [addNewPage] has inserted it. *)
Definition createNewPageElement (containers : list bool) : bool :=
  let showMargins := anyShown containers in
  showMargins.

Definition addNewPage (containers : list bool) : list bool :=
  containers ++ [createNewPageElement containers].

(** All pages agree. *)
Definition uniform (containers : list bool) : Prop :=
  exists shown, Forall (fun c => c = shown) containers.

End Margins.

(* ------------------------------------------------------------------ *)
(** ** What a call guarantees, by outcome *)

Module Hoare.

Definition errorOf {A} (o : Outcome A) : option JsError :=
  match o with
  | Returned _ => None
  | Thrown e => Some e
  end.

(** Every run of [m] relates the worlds before and after by [R], which
    may depend on the error thrown, if any. *)
Definition sat {A} (R : option JsError -> World -> World -> Prop) (m : M A)
  : Prop :=
  forall w o w', m w = (o, w') -> R (errorOf o) w w'.

(** The pages of [w'] are those of [w], pages or not as before, followed
    by [k] new pages; the page count grew by at least [k], and by [k]
    when no error was thrown. *)
Definition grownBy (k : nat) (e : option JsError) (w w' : World) : Prop :=
  map isDocumentContainer (pages w')
  = map isDocumentContainer (pages w) ++ repeat true k
  /\ pageCount w + Z.of_nat k <= pageCount w'
  /\ (e = None -> pageCount w' = pageCount w + Z.of_nat k).

Definition grown (e : option JsError) (w w' : World) : Prop :=
  exists k, grownBy k e w w'.

Definition grownUpTo (n : nat) (e : option JsError) (w w' : World) : Prop :=
  exists k, (k <= n)%nat /\ grownBy k e w w'.

(** The page that follows position [p] exists and is a page. *)
Definition hasNextPage (p : nat) (w : World) : Prop :=
  exists c, nth_error (pages w) (S p) = Some c /\ isDocumentContainer c = true.

(** As [grownUpTo 1], and no page is added when one follows [p]. *)
Definition grownAfter (p : nat) (e : option JsError) (w w' : World) : Prop :=
  exists k, (k <= 1)%nat /\ grownBy k e w w' /\ (hasNextPage p w -> k = 0%nat).



Definition unchanged (e : option JsError) (w w' : World) : Prop := w' = w.

(** Content may have moved, but the wrapper has the same children, pages
    or not, and the counters are as before. *)
Definition sameShape (e : option JsError) (w w' : World) : Prop :=
  map isDocumentContainer (pages w') = map isDocumentContainer (pages w)
  /\ pageCount w' = pageCount w
  /\ pendingChecks w' = pendingChecks w.

(** At most one measurement div is left behind, and only by an error of
    the DOM. *)
Definition divsLeft (e : option JsError) (w w' : World) : Prop :=
  scratch w' = scratch w
  \/ (e = Some DOMException /\ exists div, scratch w' = scratch w ++ [div]).


(** [lo <= x1 < x2 < ... < hi] *)
Fixpoint ascending (lo hi : nat) (l : list nat) : Prop :=
  match l with
  | [] => True
  | x :: rest => (lo <= x < hi)%nat /\ ascending (S x) hi rest
  end.

End Hoare.
(* ------------------------------------------------------------------ *)
(** ** A node taller than a page *)

Module Cascade.
Import PageManager Spec.

(** [n] calls of [checkPageOverflow], one after the other, as made by
    the follow-up checks when each fires after the pass before it. *)
Fixpoint passes (L : Layout) (n : nat) : M unit :=
  match n with
  | O => ret tt
  | S n' => bind (checkPageOverflow L) (fun _ => passes L n')
  end.

(** A page without nodes (or without content area). *)
Definition emptyPage (c : Container) : Prop :=
  forall content, editable c = Some content ->
    childNodes content = [] /\ 0 <= clientHeight content.

(** A content area without nodes does not overflow. *)
Definition emptyFits (L : Layout) : Prop :=
  forall content,
    childNodes content = [] -> 0 <= clientHeight content ->
    isOverflowing L content = false.

(** [big] alone is higher than any content area of client height at most
    [H]: a content area that begins with it overflows, and the height
    read with [big] alone in the measurement div exceeds it. *)
Definition tooTall (L : Layout) (H : Z) (big : Node) : Prop :=
  forall content rest,
    childNodes content = big :: rest ->
    0 <= clientHeight content <= H ->
    isOverflowing L content = true
    /\ exists h,
         tempDivScrollHeight L
           (mkTempDiv (cssText content) (clientWidth content) [big])
         = Some h
         /\ clientHeight content < h.

(** No pass is running, and the last page of the document begins with
    [big], behind pages that are all empty. *)
Definition stuck (H : Z) (big : Node) (w : World) : Prop :=
  isProcessingOverflow w = false
  /\ wellFormed w
  /\ exists pre c content rest,
       pages w = pre ++ [c]
       /\ Forall emptyPage pre
       /\ editable c = Some content
       /\ childNodes content = big :: rest
       /\ 0 <= clientHeight content <= H.

End Cascade.

(* ------------------------------------------------------------------ *)
(** ** More documents to run the model on *)

Module Fixture.
Import PageManager Sample.
Local Open Scope string_scope.

(** One page of three paragraphs, 1800 units of content for 864. *)
Definition overflowing : World := document [page threeParagraphs].

(** The same page, followed by a page without content area. *)
Definition blocked : World :=
  document [page threeParagraphs; mkContainer true None].

(** A wrapper without children. *)
Definition noPages : World := document [].

(** A page that begins with a paragraph 950 units high. *)
Definition big : Node := para 1 "tall".

Definition tall : World := document [page [big; para 2 "b"]].

(** The heights read while [threeParagraphs] are measured by
    [layout600]. *)
Definition heights600 (j : nat) : Z := 600 * Z.of_nat (S j).

End Fixture.

(* ------------------------------------------------------------------ *)
(** ** Start-up, and documents whose pages all have a content area *)

Module Startup.
Import PageManager.

(** [initialize()]: the pages are counted, with 1 standing in for none,
    and a first overflow check is scheduled.  The observers that
    [setupContentMonitoring] and [setupInputMonitoring] install only
    schedule further checks, and are not part of the state. *)
Definition initialize : M unit :=
  fun w =>
    let n := Z.of_nat (List.length (getAllDocumentContainers w)) in
    let w := setPageCount (if n =? 0 then 1 else n) w in
    (Returned tt, setTimeoutCheck w).

(** [pageCount] is the number of pages of the document. *)
Definition inSync (w : World) : Prop :=
  getPageCount w = Z.of_nat (List.length (getAllDocumentContainers w)).

Definition hasContent (c : Container) : bool :=
  match editable c with
  | Some _ => true
  | None => false
  end.

Definition pageKinds (w : World) : list (bool * bool) :=
  map (fun c => (isDocumentContainer c, hasContent c)) (pages w).

(** Every child of the wrapper is a page with a content area. *)
Definition allPagesWithContent (w : World) : Prop :=
  Forall (fun c => isDocumentContainer c = true /\ hasContent c = true)
         (pages w).

(** The height of the measurement div can always be read. *)
Definition readsSucceed (L : Layout) : Prop :=
  forall div, tempDivScrollHeight L div <> None.

End Startup.

(* ================================================================== *)
(** * Properties *)

(* ------------------------------------------------------------------ *)
(** ** Strings *)

Section StringFacts.
Import JsString.

Lemma arrayIncludes_In (l : list string) (x : string) :
  arrayIncludes l x = true <-> In x l.
Proof.
  unfold arrayIncludes. rewrite existsb_exists. split.
  - intros [y [Hy He]]. apply String.eqb_eq in He. now subst.
  - intros H. exists x. split; [assumption | apply String.eqb_refl].
Qed.

Lemma substring_last (s : string) (c : ascii) :
  substring (String.length s) 1 (s ++ String c EmptyString)
  = String c EmptyString.
Proof. induction s as [|a s IH]; simpl; [reflexivity | exact IH]. Qed.

Lemma string_snoc (s : string) :
  s = EmptyString \/
  exists before c, s = (before ++ String c EmptyString)%string.
Proof.
  induction s as [|a s IH]; [now left | right].
  destruct IH as [-> | [before [c ->]]].
  - exists EmptyString, a. reflexivity.
  - exists (String a before), c. reflexivity.
Qed.

Lemma length_snoc (s : string) (c : ascii) :
  String.length (s ++ String c EmptyString) = S (String.length s).
Proof. induction s; simpl; congruence. Qed.

Lemma endsWith_colon (s : string) :
  endsWith s ":" = true <-> exists before, s = (before ++ ":")%string.
Proof.
  unfold endsWith. split.
  - intros H. apply andb_true_iff in H. destruct H as [Hlen Heq].
    apply String.eqb_eq in Heq.
    destruct (string_snoc s) as [-> | [before [c ->]]].
    + discriminate.
    + exists before. rewrite length_snoc in Heq. simpl in Heq.
      rewrite Nat.sub_0_r, substring_last in Heq. now rewrite Heq.
  - intros [before ->]. rewrite length_snoc. simpl.
    rewrite Nat.sub_0_r, substring_last. reflexivity.
Qed.

End StringFacts.

(* ------------------------------------------------------------------ *)
(** ** shouldKeepWithNext *)

Section KeepWithNext.
Import JsString KeepTogether Spec.

Lemma isHeading_tags (n : Node) :
  arrayIncludes headingTags (tagName n) = true <-> isHeading n.
Proof.
  rewrite arrayIncludes_In. unfold isHeading, headingTags. split.
  - simpl. intros H.
    repeat (destruct H as [H | H];
            [ eexists; split; [| symmetry; exact H]; simpl; tauto | ]).
    contradiction.
  - intros [level [Hin ->]]. simpl in Hin.
    repeat (destruct Hin as [<- | Hin]; [simpl; tauto |]). contradiction.
Qed.

Lemma isList_tags (n : Node) :
  arrayIncludes ["UL"; "OL"]%string (tagName n) = true <-> isList n.
Proof.
  rewrite arrayIncludes_In. unfold isList. simpl.
  split; intros H; intuition congruence.
Qed.

Lemma tableOrList_tags (n : Node) :
  arrayIncludes ["TABLE"; "UL"; "OL"]%string (tagName n) = true
  <-> isTable n \/ isList n.
Proof.
  rewrite arrayIncludes_In. unfold isTable, isList. simpl.
  split; intros H; intuition congruence.
Qed.

Lemma shouldKeepWithNext_cons (n next : Node) (after : list Node) :
  shouldKeepWithNext (Some n) (next :: after) = true <->
  (isHeading n /\ (isTable next \/ isList next))
  \/ (isHeading n /\ isParagraph next
      /\ (String.length (textContent next) < 100)%nat
      /\ exists afterNext rest, after = afterNext :: rest /\ isTable afterNext)
  \/ (isParagraph n /\ trimmedTextEndsWithColon n
      /\ (isTable next \/ isList next)).
Proof.
  unfold shouldKeepWithNext.
  match goal with
  | |- (if ?a then true else if ?b then true else false) = true <-> _ =>
      assert (E : (if a then true else if b then true else false) = a || b)
        by (destruct a, b; reflexivity);
      rewrite E; clear E
  end.
  rewrite orb_true_iff, !andb_true_iff, !orb_true_iff, !andb_true_iff.
  rewrite isHeading_tags, isList_tags, tableOrList_tags, endsWith_colon.
  rewrite !String.eqb_eq, Z.ltb_lt.
  fold (isTable next) (isParagraph next) (isParagraph n)
       (trimmedTextEndsWithColon n).
  assert (Hafter :
    match after with
    | afterParagraph :: _ => String.eqb (tagName afterParagraph) "TABLE"
    | [] => false
    end = true <->
    exists afterNext rest, after = afterNext :: rest /\ isTable afterNext).
  { destruct after as [|a rest].
    - split; [discriminate | intros [? [? [? _]]]; discriminate].
    - rewrite String.eqb_eq. split.
      + intros H. now exists a, rest.
      + intros [? [? [E H]]]. now inversion E; subst. }
  rewrite Hafter.
  split.
  - intros [[Hh [[Ht | Hl] | [[Hp Hlen] Ha]]] | [[Hp He] Htl]].
    + left. tauto.
    + left. tauto.
    + right; left. repeat split; try assumption. lia.
    + right; right. tauto.
  - intros [[Hh Htl] | [[Hh [Hp [Hlen Ha]]] | [Hp [He Htl]]]].
    + left. split; [assumption|]. left. tauto.
    + left. split; [assumption|]. right. repeat split; try assumption. lia.
    + right. tauto.
Qed.

(** C5. [shouldKeepWithNext] is false for an absent node and for a node
    without a next element sibling, and is true exactly in the three
    cases of the specification: a heading before a table or a list, a
    heading before a paragraph of fewer than 100 characters that stands
    before a table, a paragraph whose trimmed text ends with a colon
    before a table or a list. *)
Theorem shouldKeepWithNext_spec (n : Node) (siblings : list Node) :
  shouldKeepWithNext None siblings = false
  /\ shouldKeepWithNext (Some n) [] = false
  /\ (shouldKeepWithNext (Some n) siblings = true
      <-> keepWithNextCase n siblings).
Proof.
  split; [reflexivity | split; [reflexivity |]].
  unfold keepWithNextCase. destruct siblings as [|next after].
  - split; [discriminate | intros [? [? [? _]]]; discriminate].
  - rewrite shouldKeepWithNext_cons. split.
    + intros H. now exists next, after.
    + intros [? [? [E H]]]. now inversion E; subst.
Qed.

End KeepWithNext.

(* ------------------------------------------------------------------ *)
(** ** adjustSplitForKeepTogether: the result stays within bounds *)

Section AdjustBounds.
Import Splitter.

Lemma scanBackward_bounds (dom allNodes : list Node) (splitIndex : Z) :
  forall n v, Z.of_nat n <= splitIndex ->
    scanBackward dom allNodes splitIndex n = Returned v ->
    0 <= v <= splitIndex.
Proof.
  induction n as [|i IH]; intros v Hn H; simpl in H.
  - inversion H; subst. lia.
  - destruct (nth_error allNodes i) as [node|]; [|discriminate].
    destruct (groupExtendsPastSplit dom allNodes splitIndex i node).
    + inversion H; subst. lia.
    + apply IH; [lia | assumption].
Qed.

Lemma scanBackward_returns (dom allNodes : list Node) (splitIndex : Z) :
  forall n, (n <= List.length allNodes)%nat ->
    exists v, scanBackward dom allNodes splitIndex n = Returned v.
Proof.
  induction n as [|i IH]; intros Hn; simpl.
  - now exists splitIndex.
  - destruct (nth_error allNodes i) as [node|] eqn:E.
    + destruct (groupExtendsPastSplit dom allNodes splitIndex i node).
      * now eexists.
      * apply IH. lia.
    + apply nth_error_None in E. lia.
Qed.

(** C10. Whatever [adjustSplitForKeepTogether] returns for a split index
    that is not negative lies between 0 and that index, and it does
    return when the index is within the node list: the adjustment moves
    the cut towards the start only. *)
Theorem adjustSplit_within_bounds (dom allNodes : list Node) (splitIndex : Z) :
  0 <= splitIndex ->
  (forall v, adjustSplitForKeepTogether dom allNodes splitIndex = Returned v ->
             0 <= v <= splitIndex)
  /\ (splitIndex <= Z.of_nat (List.length allNodes) ->
      exists v, adjustSplitForKeepTogether dom allNodes splitIndex = Returned v).
Proof.
  intros Hs. unfold adjustSplitForKeepTogether. split.
  - intros v. apply scanBackward_bounds. lia.
  - intros Hle. apply scanBackward_returns. lia.
Qed.

Lemma adjustSplit_within_bounds_witness :
  0 <= 2
  /\ Splitter.adjustSplitForKeepTogether Sample.mixedNodes Sample.mixedNodes 2
     = Returned 1
  /\ 0 <= 1 <= 2.
Proof.
  split; [lia |]. split; [reflexivity |].
  apply (proj1 (@adjustSplit_within_bounds Sample.mixedNodes Sample.mixedNodes
                  2 ltac:(lia)) 1).
  reflexivity.
Defined.

End AdjustBounds.

(* ------------------------------------------------------------------ *)
(** ** Node identity and positions *)

Section NodeFacts.

Lemma sameNode_true (a b : Node) : sameNode a b = true <-> nid a = nid b.
Proof. unfold sameNode. apply Nat.eqb_eq. Qed.

Lemma sameNode_false (a b : Node) : sameNode a b = false <-> nid a <> nid b.
Proof. unfold sameNode. apply Nat.eqb_neq. Qed.

Lemma sameNode_refl (a : Node) : sameNode a a = true.
Proof. now apply sameNode_true. Qed.

Lemma indexOfFrom_shift (l : list Node) (x : Node) :
  forall k, indexOfFrom k l x = -1 \/ k <= indexOfFrom k l x.
Proof.
  induction l as [|m l IH]; intros k; simpl; [now left |].
  destruct (sameNode m x); [right; lia |].
  destruct (IH (k + 1)) as [H | H]; [now left | right; lia].
Qed.

Lemma indexOfFrom_middle (pre suf : list Node) (x : Node) :
  ~ In (nid x) (map nid pre) ->
  forall k, indexOfFrom k (pre ++ x :: suf) x = k + Z.of_nat (List.length pre).
Proof.
  induction pre as [|m pre IH]; intros Hnot k; simpl.
  - rewrite sameNode_refl. lia.
  - simpl in Hnot.
    destruct (sameNode m x) eqn:E.
    + apply sameNode_true in E. tauto.
    + rewrite IH by tauto. lia.
Qed.

Lemma indexOf_middle (pre suf : list Node) (x : Node) :
  NoDup (map nid (pre ++ x :: suf)) ->
  indexOf (pre ++ x :: suf) x = Z.of_nat (List.length pre).
Proof.
  intros Hnd. unfold indexOf. rewrite indexOfFrom_middle; [lia |].
  rewrite map_app in Hnd. simpl in Hnd.
  apply NoDup_remove_2 in Hnd. intros Hin. apply Hnd.
  apply in_or_app. now left.
Qed.

Lemma siblingsAfter_middle (pre suf : list Node) (x : Node) :
  NoDup (map nid (pre ++ x :: suf)) ->
  siblingsAfter (pre ++ x :: suf) x = suf.
Proof.
  induction pre as [|m pre IH]; intros Hnd; simpl.
  - now rewrite sameNode_refl.
  - simpl in Hnd. inversion Hnd as [|? ? Hm Hrest]; subst.
    destruct (sameNode m x) eqn:E.
    + apply sameNode_true in E. exfalso. apply Hm. rewrite E, map_app.
      apply in_or_app. right. now left.
    + now apply IH.
Qed.

Lemma nth_error_decompose (A : Type) (l : list A) (i : nat) (x : A) :
  nth_error l i = Some x ->
  l = firstn i l ++ x :: skipn (S i) l /\ List.length (firstn i l) = i.
Proof.
  revert i. induction l as [|a l IH]; intros [|i] H; simpl in *;
    try discriminate.
  - inversion H. auto.
  - destruct (IH i H) as [E1 E2]. split; [f_equal; exact E1 | now f_equal].
Qed.

End NodeFacts.

(* ------------------------------------------------------------------ *)
(** ** adjustSplitForKeepTogether against the wording of section 4.5 *)

Section AdjustSpec.
Import KeepTogether Splitter Spec.

Lemma keepTogetherTail_prefix (siblings : list Node) :
  forall current, exists rest,
    siblings = keepTogetherTail current siblings ++ rest.
Proof.
  induction siblings as [|next more IH]; intros current;
    cbn [keepTogetherTail].
  - now exists [].
  - destruct (shouldKeepWithNext (Some current) (next :: more)).
    + destruct (IH next) as [rest E]. exists rest.
      rewrite <- app_comm_cons. f_equal. exact E.
    + now eexists.
Qed.

(** Along a run of following siblings the positions grow, so the largest
    position met by the inner loop is the position of the last member. *)
Lemma groupEnd_is_last (suf : list Node) :
  forall (pre g : list Node) (init : Z) (d : Node),
    NoDup (map nid (pre ++ suf)) ->
    (exists rest, filter isElement suf = g ++ rest) ->
    init < Z.of_nat (List.length pre) ->
    g <> [] ->
    fold_left (maxStep (pre ++ suf)) g init = indexOf (pre ++ suf) (last g d).
Proof.
  induction suf as [|x suf IH]; intros pre g init d Hnd [rest Hg] Hinit Hne.
  - simpl in Hg. destruct g; [congruence | discriminate].
  - assert (Hl : pre ++ x :: suf = (pre ++ [x]) ++ suf)
      by (rewrite <- app_assoc; reflexivity).
    simpl in Hg. destruct (isElement x) eqn:Ex.
    + destruct g as [|y g]; [congruence |].
      simpl in Hg. inversion Hg; subst y.
      simpl fold_left. unfold maxStep at 2.
      rewrite (indexOf_middle _ _ _ Hnd).
      replace (Z.of_nat (List.length pre) >? init) with true
        by (symmetry; apply Z.gtb_lt; lia).
      destruct g as [|z g].
      * simpl. now rewrite (indexOf_middle _ _ _ Hnd).
      * rewrite Hl. change (last (x :: z :: g) d) with (last (z :: g) d).
        apply IH.
        -- now rewrite <- Hl.
        -- now exists rest.
        -- rewrite length_app. simpl. lia.
        -- discriminate.
    + rewrite Hl. apply IH.
      * now rewrite <- Hl.
      * now exists rest.
      * rewrite length_app. simpl. lia.
      * assumption.
Qed.

Lemma groupExtendsPastSplit_spec (allNodes : list Node) (splitIndex : Z)
      (i : nat) (node : Node) :
  distinctNodes allNodes ->
  nth_error allNodes i = Some node ->
  Z.of_nat i < splitIndex ->
  groupExtendsPastSplit allNodes allNodes splitIndex i node = true
  <-> isElement node = true /\ splitIndex <= groupLastIndex allNodes node.
Proof.
  intros Hnd Hnth Hi.
  destruct (nth_error_decompose _ _ Hnth) as [Hl Hlen].
  set (pre := firstn i allNodes) in *.
  set (suf := skipn (S i) allNodes) in *.
  assert (Hidx : indexOf allNodes node = Z.of_nat i).
  { rewrite Hl. rewrite indexOf_middle; [now rewrite Hlen |].
    now rewrite <- Hl. }
  assert (Hsib : nextElementSiblings allNodes node = filter isElement suf).
  { unfold nextElementSiblings. rewrite Hl at 1.
    rewrite siblingsAfter_middle; [reflexivity | now rewrite <- Hl]. }
  unfold groupExtendsPastSplit, groupLastIndex, isElement.
  rewrite Hsib. unfold getKeepTogetherGroup.
  destruct (nodeType node =? 1); [| split; [discriminate | intros [? _]; discriminate]].
  destruct (keepTogetherTail_prefix (filter isElement suf) node) as [rest Hrest].
  destruct (keepTogetherTail node (filter isElement suf)) as [|y tail] eqn:Et.
  - simpl. rewrite Hidx. split; [discriminate | intros [_ H]; lia].
  - replace (Z.of_nat (List.length (node :: y :: tail)) >? 1) with true
      by (symmetry; apply Z.gtb_lt; simpl List.length; lia).
    unfold groupEndIndexOf. cbn [fold_left].
    assert (E0 : maxStep allNodes (Z.of_nat i) node = Z.of_nat i).
    { unfold maxStep. rewrite Hidx.
      now rewrite Z.gtb_ltb, Z.ltb_irrefl. }
    rewrite E0.
    change (last (node :: y :: tail) node) with (last (y :: tail) node).
    assert (E : fold_left (maxStep allNodes) (y :: tail) (Z.of_nat i)
                = indexOf allNodes (last (y :: tail) node)).
    { assert (Hl' : allNodes = (pre ++ [node]) ++ suf)
        by (rewrite <- app_assoc; exact Hl).
      rewrite Hl'. apply groupEnd_is_last.
      - now rewrite <- Hl'.
      - now exists rest.
      - rewrite length_app, Hlen. simpl. lia.
      - discriminate. }
    cbn [fold_left] in E. rewrite E.
    rewrite Z.geb_le. tauto.
Qed.

Lemma scanBackward_spec (allNodes : list Node) (splitIndex : Z) :
  distinctNodes allNodes ->
  forall n, (n <= List.length allNodes)%nat -> Z.of_nat n <= splitIndex ->
    exists r, scanBackward allNodes allNodes splitIndex n = Returned r
      /\ ( (r = splitIndex
            /\ forall i, (i < n)%nat -> ~ straddlesCut allNodes splitIndex i)
           \/ (exists i, r = Z.of_nat i /\ (i < n)%nat
                /\ straddlesCut allNodes splitIndex i
                /\ forall j, (i < j < n)%nat ->
                             ~ straddlesCut allNodes splitIndex j) ).
Proof.
  intros Hnd. induction n as [|i IH]; intros Hlen Hn; simpl.
  - exists splitIndex. split; [reflexivity | left]. split; [reflexivity |].
    intros i Hi. lia.
  - destruct (nth_error allNodes i) as [node|] eqn:Hnth;
      [| apply nth_error_None in Hnth; lia].
    pose proof (@groupExtendsPastSplit_spec allNodes splitIndex i node
                  Hnd Hnth ltac:(lia)) as Hspec.
    destruct (groupExtendsPastSplit allNodes allNodes splitIndex i node).
    + exists (Z.of_nat i). split; [reflexivity | right].
      exists i. repeat split; [lia | | intros j Hj; lia].
      exists node. split; [assumption |]. now apply Hspec.
    + destruct (IH ltac:(lia) ltac:(lia)) as [r [Hr Hcases]].
      exists r. split; [assumption |].
      assert (Hnot : ~ straddlesCut allNodes splitIndex i).
      { intros [node' [Hnth' Hs]]. rewrite Hnth in Hnth'.
        inversion Hnth'; subst node'. apply Hspec in Hs. discriminate. }
      destruct Hcases as [[-> Hnone] | [k [-> [Hk [Hs Hafter]]]]].
      * left. split; [reflexivity |]. intros j Hj.
        destruct (Nat.eq_dec j i) as [-> | Hne]; [assumption |].
        apply Hnone. lia.
      * right. exists k. repeat split; [lia | assumption |].
        intros j Hj.
        destruct (Nat.eq_dec j i) as [-> | Hne]; [assumption |].
        apply Hafter. lia.
Qed.

(** C4, as the code has it. On the child nodes of a content area, which
    are distinct objects and whose element siblings are read from the
    same list, and for a split index from 0 to the number of nodes,
    [adjustSplitForKeepTogether] returns the index of the first element,
    scanning from [splitIndex - 1] down to 0, whose keep-together group
    has its last member at or after the cut (the group starts at that
    element); when no scanned element has such a group it returns
    [splitIndex] unchanged. *)
Theorem adjustSplit_keep_together (allNodes : list Node) (splitIndex : Z) :
  distinctNodes allNodes ->
  0 <= splitIndex <= Z.of_nat (List.length allNodes) ->
  exists r, adjustSplitForKeepTogether allNodes allNodes splitIndex = Returned r
    /\ ( (r = splitIndex
          /\ forall i, Z.of_nat i < splitIndex ->
                       ~ straddlesCut allNodes splitIndex i)
         \/ (exists i node,
               r = Z.of_nat i /\ Z.of_nat i < splitIndex
               /\ straddlesCut allNodes splitIndex i
               /\ nth_error allNodes i = Some node
               /\ hd node (getKeepTogetherGroup node
                             (nextElementSiblings allNodes node)) = node
               /\ forall j, (i < j)%nat -> Z.of_nat j < splitIndex ->
                            ~ straddlesCut allNodes splitIndex j) ).
Proof.
  intros Hnd Hs. unfold adjustSplitForKeepTogether.
  destruct (@scanBackward_spec allNodes splitIndex Hnd (Z.to_nat splitIndex)
              ltac:(lia) ltac:(lia)) as [r [Hr Hcases]].
  exists r. split; [assumption |].
  destruct Hcases as [[-> Hnone] | [i [-> [Hi [Hstr Hafter]]]]].
  - left. split; [reflexivity |]. intros i Hi. apply Hnone. lia.
  - right. destruct Hstr as [node [Hnth Hrest]].
    exists i, node. repeat split; try assumption; try lia.
    + exists node. now split.
    + intros j Hj Hjs. apply Hafter. lia.
Qed.

Lemma adjustSplit_keep_together_witness :
  exists r,
    adjustSplitForKeepTogether Sample.mixedNodes Sample.mixedNodes 2
    = Returned r
    /\ ( (r = 2 /\ forall i, Z.of_nat i < 2 ->
                             ~ straddlesCut Sample.mixedNodes 2 i)
         \/ (exists i node,
               r = Z.of_nat i /\ Z.of_nat i < 2
               /\ straddlesCut Sample.mixedNodes 2 i
               /\ nth_error Sample.mixedNodes i = Some node
               /\ hd node (getKeepTogetherGroup node
                             (nextElementSiblings Sample.mixedNodes node)) = node
               /\ forall j, (i < j)%nat -> Z.of_nat j < 2 ->
                            ~ straddlesCut Sample.mixedNodes 2 j) ).
Proof.
  apply (@adjustSplit_keep_together Sample.mixedNodes 2).
  - unfold distinctNodes. simpl.
    repeat (constructor; [simpl; intuition discriminate |]). constructor.
  - simpl. lia.
Defined.

(** C4 does not hold for every split index: beyond the end of the node
    list no element has a group that reaches the cut, and yet the call
    does not return the split index; it throws, reading [nodeType] of
    [allNodes[splitIndex - 1]], which is [undefined]. *)
Lemma adjustSplit_throws_beyond_nodes :
  0 <= 5
  /\ (forall i, ~ straddlesCut Sample.threeParagraphs 5 i)
  /\ adjustSplitForKeepTogether Sample.threeParagraphs
                                Sample.threeParagraphs 5
     = Thrown TypeError
  /\ adjustSplitForKeepTogether Sample.threeParagraphs
                                Sample.threeParagraphs 5
     <> Returned 5.
Proof.
  split; [lia |]. split; [| split; [reflexivity | discriminate]].
  intros i [node [Hnth [_ Hlast]]].
  assert (Hgroup : groupLastIndex Sample.threeParagraphs node <= 2).
  { destruct i as [|[|[|i]]]; cbn in Hnth.
    - inversion Hnth; subst node. vm_compute. discriminate.
    - inversion Hnth; subst node. vm_compute. discriminate.
    - inversion Hnth; subst node. vm_compute. discriminate.
    - destruct i; discriminate. }
  lia.
Qed.

End AdjustSpec.

(* ------------------------------------------------------------------ *)
(** ** The split index found by the measuring loop *)

Section SplitIndex.
Import Measure.

Variable L : Layout.

Lemma appendChild_appendChildren (div : TempDiv) (node : Node) (l : list Node) :
  appendChildren (appendChild div node) l = appendChildren div (node :: l).
Proof.
  unfold appendChildren, appendChild. simpl. now rewrite <- app_assoc.
Qed.

(** The loop, started at index [i] on a measurement div that already holds the
    clones before [rest]; [c k] is the height read after [k + 1] more
    clones. *)
Lemma measureLoop_spec (availableHeight : Z) (rest : list Node) :
  forall (i currentHeight : Z) (div : TempDiv) (c : nat -> Z),
    (forall k, (k < List.length rest)%nat ->
       tempDivScrollHeight L (appendChildren div (firstn (S k) rest))
       = Some (c k)) ->
    exists r,
      fst (measureLoop L availableHeight rest i currentHeight div) = Returned r
      /\ ( (r = -1
            /\ forall k, (k < List.length rest)%nat -> c k <= availableHeight)
           \/ (exists k, r = i + Z.of_nat k /\ (k < List.length rest)%nat
                 /\ availableHeight < c k
                 /\ forall j, (j < k)%nat -> c j <= availableHeight) ).
Proof.
  induction rest as [|node rest IH]; intros i cur div c Hread.
  - exists (-1). split; [reflexivity | left]. split; [reflexivity |].
    simpl. intros k Hk. lia.
  - cbn [measureLoop].
    pose proof (Hread O ltac:(simpl; lia)) as H0.
    change (appendChildren div (firstn 1 (node :: rest)))
      with (appendChild div node) in H0.
    rewrite H0.
    replace (cur + (c O - cur)) with (c O) by lia.
    destruct (c O >? availableHeight) eqn:Hgt.
    + exists i. split; [reflexivity | right]. exists O.
      repeat split; [lia | simpl; lia | apply Z.gtb_lt; assumption |].
      intros j Hj. lia.
    + assert (Hle : c O <= availableHeight).
      { destruct (Z.gtb_spec (c O) availableHeight); [discriminate | lia]. }
      destruct (IH (i + 1) (c O) (appendChild div node) (fun k => c (S k)))
        as [r [Hr Hcases]].
      { intros k Hk. rewrite appendChild_appendChildren.
        apply (Hread (S k)). simpl. lia. }
      exists r. split; [assumption |].
      destruct Hcases as [[-> Hall] | [k [-> [Hk [Hck Hbefore]]]]].
      * left. split; [reflexivity |]. intros [|k] Hk; [assumption |].
        apply Hall. simpl in Hk. lia.
      * right. exists (S k). repeat split; [lia | simpl; lia | assumption |].
        intros [|j] Hj; [assumption | apply Hbefore; lia].
Qed.

(** C3. When the measurement div, after the clones of [nodes[0..k]] were
    appended, reads as the sum of the measured heights of these nodes, the
    measuring loop of [handlePageOverflow] returns the least index whose
    cumulative height is strictly greater than [availableHeight]; it
    returns -1 when no cumulative height is; and it returns 0 when the
    first node alone is higher than [availableHeight]. *)
Theorem measureLoop_split_index (nodes : list Node) (heights : list Z)
        (availableHeight : Z) (tempDiv : TempDiv) :
  (forall k, (k < List.length nodes)%nat ->
     tempDivScrollHeight L (appendChildren tempDiv (firstn (S k) nodes))
     = Some (cumulativeHeight heights k)) ->
  exists r,
    fst (measureLoop L availableHeight nodes 0 0 tempDiv) = Returned r
    /\ ( (r = -1
          /\ forall k, (k < List.length nodes)%nat ->
                       cumulativeHeight heights k <= availableHeight)
         \/ (exists k, r = Z.of_nat k /\ (k < List.length nodes)%nat
               /\ availableHeight < cumulativeHeight heights k
               /\ forall j, (j < k)%nat ->
                            cumulativeHeight heights j <= availableHeight) )
    /\ (nodes <> [] -> availableHeight < cumulativeHeight heights 0 -> r = 0).
Proof.
  intros Hread.
  destruct (@measureLoop_spec availableHeight nodes 0 0 tempDiv
              (cumulativeHeight heights) Hread) as [r [Hr Hcases]].
  exists r. split; [assumption |]. split.
  - destruct Hcases as [H | [k [-> H]]]; [now left | right].
    exists k. split; [lia | exact H].
  - intros Hne Hfirst.
    destruct Hcases as [[-> Hall] | [k [-> [Hk [Hck Hbefore]]]]].
    + destruct nodes as [|n nodes]; [congruence |].
      specialize (Hall O ltac:(simpl; lia)). lia.
    + destruct k as [|k]; [reflexivity |].
      specialize (Hbefore O ltac:(lia)). lia.
Qed.

End SplitIndex.

(* ------------------------------------------------------------------ *)
(** ** What a split leaves alone *)

Section Frame.
Import PageManager Spec.

Lemma splitFrame_refl (w : World) : splitFrame w w.
Proof. now repeat split. Qed.

Lemma splitFrame_trans (w1 w2 w3 : World) :
  splitFrame w1 w2 -> splitFrame w2 w3 -> splitFrame w1 w3.
Proof.
  intros [A1 [B1 C1]] [A2 [B2 C2]]. repeat split; congruence.
Qed.

Lemma fillFragment_frame (nodesToMove : list Node) :
  forall (st : list Node * World),
    splitFrame (snd st) (snd (fold_left moveOne nodesToMove st)).
Proof.
  induction nodesToMove as [|node rest IH]; intros [fragment w];
    cbn [fold_left].
  - apply splitFrame_refl.
  - unfold moveOne at 2. destruct (hasParentNode w fragment node).
    + eapply splitFrame_trans; [| apply IH]. now repeat split.
    + apply IH.
Qed.

Lemma moveContentToNextPage_frame (allNodes : list Node) (splitIndex : Z)
      (nextContent : option nat) (w : World) :
  splitFrame w (snd (moveContentToNextPage allNodes splitIndex nextContent w)).
Proof.
  unfold moveContentToNextPage, fillFragment.
  pose proof (fillFragment_frame (slice allNodes splitIndex) ([], w)) as H.
  destruct (fold_left _ (slice allNodes splitIndex) ([], w)) as [fragment w1].
  simpl in H.
  destruct nextContent as [q|]; [| exact H].
  destruct (JsString.includes _ _); simpl;
    (eapply splitFrame_trans; [exact H | now repeat split]).
Qed.

Lemma addNewPage_frame (L : Layout) (focus : bool) (w : World) :
  splitFrame w (snd (addNewPage L focus w)).
Proof.
  unfold addNewPage, bind, modify, createNewPageElement. simpl.
  destruct (lastPageOf _); [| now repeat split].
  destruct focus; now repeat split.
Qed.

Lemma handleCursorMovement_frame (nodes : list Node) (splitIndex : Z)
      (nextContent : option nat) (nextContainer : nat) (w : World) :
  splitFrame w
    (snd (handleCursorMovement nodes splitIndex nextContent nextContainer w)).
Proof.
  unfold handleCursorMovement.
  destruct (_ >? _); [| apply splitFrame_refl].
  destruct nextContent; now repeat split.
Qed.

Lemma bind_frame (A B : Type) (m : M A) (k : A -> M B) (w : World) :
  splitFrame w (snd (m w)) ->
  (forall a w', splitFrame w' (snd (k a w'))) ->
  splitFrame w (snd (bind m k w)).
Proof.
  intros Hm Hk. unfold bind. destruct (m w) as [[a | e] w']; simpl in *.
  - eapply splitFrame_trans; [exact Hm | apply Hk].
  - exact Hm.
Qed.

Lemma splitContentAtIndex_frame (L : Layout) (container : nat)
      (content : Content) (allNodes : list Node) (splitIndex : Z) (w : World) :
  splitFrame w
    (snd (splitContentAtIndex L container content allNodes splitIndex w)).
Proof.
  unfold splitContentAtIndex.
  apply bind_frame; [apply splitFrame_refl |]. intros adjusted w1.
  apply bind_frame.
  { destruct (nth_error (pages w1) (S container)) as [c|].
    - destruct (isDocumentContainer c);
        [apply splitFrame_refl | apply addNewPage_frame].
    - apply addNewPage_frame. }
  intros nextContainer w2.
  apply bind_frame; [apply splitFrame_refl |]. intros nextContent w3.
  apply bind_frame; [apply moveContentToNextPage_frame |]. intros _ w4.
  apply bind_frame; [apply handleCursorMovement_frame |]. intros _ w5.
  now repeat split.
Qed.

End Frame.

(* ------------------------------------------------------------------ *)
(** ** The measurement div *)

Section MeasurementDivRelease.
Import PageManager Spec Measure.

Lemma removeAt_updateAt_last (A : Type) (s : list A) (x y : A) :
  removeAt (List.length s) (updateAt (List.length s) (fun _ => y) (s ++ [x]))
  = s.
Proof. induction s as [|a s IH]; simpl; [reflexivity | now f_equal]. Qed.

Lemma nth_error_last (A : Type) (s : list A) (x : A) :
  nth_error (s ++ [x]) (List.length s) = Some x.
Proof. induction s as [|a s IH]; simpl; [reflexivity | exact IH]. Qed.

Lemma measureLoop_returns (L : Layout) (content : Content) (availableHeight : Z) :
  measurementSucceeds L content ->
  exists r,
    fst (measureLoop L availableHeight (childNodes content) 0 0
           (mkTempDiv (cssText content) (clientWidth content) []))
    = Returned r.
Proof.
  intros Hok.
  set (div := mkTempDiv (cssText content) (clientWidth content) []).
  set (c := fun k =>
              match tempDivScrollHeight L
                      (appendChildren div (firstn (S k) (childNodes content)))
              with Some v => v | None => 0 end).
  destruct (@measureLoop_spec L availableHeight (childNodes content) 0 0 div c)
    as [r [Hr _]].
  - intros k Hk. unfold c. specialize (Hok k Hk).
    unfold appendChildren, div in *. simpl in *.
    now destruct (tempDivScrollHeight L _).
  - now exists r.
Qed.

(** C6. Reading [scrollHeight] gives a number in every DOM; that every
    read of the measurement div's height succeeds is the hypothesis.
    Then the div that [createMeasurementContainer] appended to the body
    is gone again on every way out of [handlePageOverflow], whether it
    returns, with or without a split, or the split or move step throws:
    the divs attached to the body are those from before the call. *)
Theorem measurement_div_released (L : Layout) (container : nat)
        (content : Content) (availableHeight : Z) (pageIndex : nat)
        (w : World) :
  measurementSucceeds L content ->
  forall o w',
    handlePageOverflow L container content availableHeight pageIndex w = (o, w') ->
    scratch w' = scratch w.
Proof.
  intros Hok o w' Hrun.
  destruct (measureLoop_returns availableHeight Hok) as [r Hr].
  unfold handlePageOverflow, bind, modify, createMeasurementContainer,
    measureSplitIndex, removeChild in Hrun.
  cbn [scratch recordCall withScratch] in Hrun.
  rewrite nth_error_last in Hrun.
  destruct (measureLoop L availableHeight (childNodes content) 0 0 _)
    as [o1 div'] eqn:Hloop.
  simpl in Hr. subst o1.
  cbn [scratch withScratch modify] in Hrun.
  match type of Hrun with
  | _ ?world = _ =>
      assert (Hs : scratch world = scratch w)
        by (unfold withScratch; simpl; apply removeAt_updateAt_last);
      remember world as w0 eqn:Ew0
  end.
  clear Ew0.
  destruct (r >=? 0).
  - pose proof (splitContentAtIndex_frame L container content
                  (childNodes content) r w0) as [Hf _].
    rewrite Hrun in Hf. simpl in Hf. congruence.
  - inversion Hrun; subst. exact Hs.
Qed.

End MeasurementDivRelease.

Section MeasurementDivExamples.
Import PageManager Spec Sample.

Lemma measurement_div_released_witness :
  measurementSucceeds layout600 (contentArea threeParagraphs)
  /\ fst (handlePageOverflow layout600 0 (contentArea threeParagraphs)
            864 0 (document [page threeParagraphs; mkContainer true None]))
     = Thrown TypeError
  /\ scratch
       (snd (handlePageOverflow layout600 0
               (contentArea threeParagraphs) 864 0
               (document [page threeParagraphs; mkContainer true None])))
     = [].
Proof.
  assert (H : measurementSucceeds layout600
                (contentArea threeParagraphs))
    by (intros k _; discriminate).
  split; [exact H |]. split; [reflexivity |].
  apply (@measurement_div_released layout600 0
           (contentArea threeParagraphs) 864 0
           (document [page threeParagraphs; mkContainer true None]) H
           (Thrown TypeError)).
  reflexivity.
Defined.

(** What the hypothesis on the reads is for: the code has no handler
    around the measuring loop, so with a layout whose read of the height
    fails, as no DOM's does, the div would stay attached to the body. *)
Lemma measurement_div_left_when_read_throws :
  fst (handlePageOverflow layoutThrowing 0
         (contentArea threeParagraphs) 864 0
         (document [page threeParagraphs]))
  = Thrown DOMException
  /\ scratch
       (snd (handlePageOverflow layoutThrowing 0
               (contentArea threeParagraphs) 864 0
               (document [page threeParagraphs])))
     = [appendChild emptyDiv (para 1 "a")]
  /\ scratch
       (snd (handlePageOverflow layoutThrowing 0
               (contentArea threeParagraphs) 864 0
               (document [page threeParagraphs])))
     <> scratch (document [page threeParagraphs]).
Proof.
  split; [vm_compute; reflexivity |].
  split; [vm_compute; reflexivity |].
  vm_compute. discriminate.
Qed.

End MeasurementDivExamples.

(* ------------------------------------------------------------------ *)
(** ** The reentrancy flag *)

Section Reentrancy.
Import PageManager Spec Sample.

(** C2. A call of [checkPageOverflow] that starts a pass leaves the flag
    [isProcessingOverflow] false when it ends, whether it returns or
    throws; a call made while the flag is set returns at once and changes
    nothing. *)
Theorem checkPageOverflow_reentrancy (L : Layout) (w : World) :
  forall o w',
    checkPageOverflow L w = (o, w') ->
    (isProcessingOverflow w = false -> isProcessingOverflow w' = false)
    /\ (isProcessingOverflow w = true -> o = Returned tt /\ w' = w).
Proof.
  intros o w' Hrun. unfold checkPageOverflow, tryFinally in Hrun.
  destruct (isProcessingOverflow w) eqn:Hflag.
  - inversion Hrun; subst. split; [discriminate | auto].
  - destruct (forEach _ _ _) as [o1 w1]. inversion Hrun; subst.
    split; [reflexivity | discriminate].
Qed.

Lemma checkPageOverflow_reentrancy_witness :
  fst (checkPageOverflow layout600
         (document [page threeParagraphs; mkContainer true None]))
  = Thrown TypeError
  /\ isProcessingOverflow
       (snd (checkPageOverflow layout600
               (document [page threeParagraphs; mkContainer true None])))
     = false.
Proof.
  split; [vm_compute; reflexivity |].
  apply (proj1 (@checkPageOverflow_reentrancy layout600
                  (document [page threeParagraphs; mkContainer true None])
                  (Thrown TypeError)
                  (snd (checkPageOverflow layout600
                          (document [page threeParagraphs;
                                     mkContainer true None])))
                  ltac:(vm_compute; reflexivity))).
  reflexivity.
Defined.

End Reentrancy.

(* ------------------------------------------------------------------ *)
(** ** The overflow threshold *)

Section Threshold.
Import PageManager Spec Sample.

Lemma handlePageOverflow_recorded (L : Layout) (container : nat)
      (content : Content) (availableHeight : Z) (pageIndex : nat) (w : World) :
  overflowCalls
    (snd (handlePageOverflow L container content availableHeight pageIndex w))
  = overflowCalls w ++ [pageIndex].
Proof.
  unfold handlePageOverflow, bind, modify, createMeasurementContainer,
    measureSplitIndex, removeChild.
  cbn [scratch recordCall withScratch].
  rewrite nth_error_last.
  destruct (Measure.measureLoop L availableHeight (childNodes content) 0 0 _)
    as [[r | e] div']; [| reflexivity].
  destruct (r >=? 0); [| reflexivity].
  cbn [modify].
  match goal with
  | |- overflowCalls (snd (splitContentAtIndex ?L ?c ?ct ?ns ?s ?w0)) = _ =>
      destruct (splitContentAtIndex_frame L c ct ns s w0) as [_ [Hc _]];
      rewrite Hc
  end.
  reflexivity.
Qed.

(** C9. For a page with a content area, the callback of
    [checkPageOverflow] calls [handlePageOverflow] for that page exactly
    when the scroll height of the content is strictly greater than its
    client height plus 2; when the two differ by at most 2 the call
    changes nothing. *)
Theorem overflow_threshold (L : Layout) (container index : nat)
        (content : Content) (w : World) :
  querySelectorEditable w container = Some content ->
  (overflowCalls (snd (checkContainer L container index w))
   = overflowCalls w ++ [index]
   <-> clientHeight content + 2 < scrollHeight L content)
  /\ (isOverflowing L content = true
      <-> clientHeight content + 2 < scrollHeight L content)
  /\ (scrollHeight L content - clientHeight content <= 2 ->
      checkContainer L container index w = (Returned tt, w)).
Proof.
  intros Hq. unfold checkContainer, isOverflowing. rewrite Hq.
  destruct (Z.gtb_spec (scrollHeight L content) (clientHeight content + 2))
    as [Hgt | Hle].
  - split; [| split].
    + rewrite handlePageOverflow_recorded. split; [lia | reflexivity].
    + split; [lia | reflexivity].
    + lia.
  - split; [| split].
    + simpl. split; [| lia]. intros H.
      apply (f_equal (@List.length nat)) in H.
      rewrite length_app in H. simpl in H. lia.
    + split; [discriminate | lia].
    + reflexivity.
Qed.

Lemma overflow_threshold_witness :
  overflowCalls
    (snd (checkContainer layout600 0 0 (document [page threeParagraphs])))
  = overflowCalls (document [page threeParagraphs]) ++ [0%nat]
  <-> 864 + 2 < 1800.
Proof.
  apply (proj1 (@overflow_threshold layout600 0 0
                  (contentArea threeParagraphs)
                  (document [page threeParagraphs]) eq_refl)).
Defined.

End Threshold.

(* ------------------------------------------------------------------ *)
(** ** A second pass *)

Section SecondPass.
Import PageManager Spec Sample.

Lemma forEachFrom_unchanged (A : Type) (body : A -> nat -> M unit)
      (w : World) (items : list A) :
  (forall item index, In item items -> body item index w = (Returned tt, w)) ->
  forall index, forEachFrom index items body w = (Returned tt, w).
Proof.
  induction items as [|item rest IH]; intros Hbody index; simpl.
  - reflexivity.
  - unfold bind. rewrite Hbody by now left.
    apply IH. intros it ix Hin. apply Hbody. now right.
Qed.

Lemma setProcessing_idle (w : World) :
  isProcessingOverflow w = false ->
  setProcessing false (setProcessing true w) = w.
Proof. destruct w. simpl. now intros ->. Qed.

(** C8, as the code has it. When the first call of [checkPageOverflow]
    leaves no page overflowing, a second call right after it returns and
    changes nothing: no node moves, no page is made, the page count
    stays. *)
Theorem second_pass_is_idle (L : Layout) (w : World) :
  forall o w1,
    checkPageOverflow L w = (o, w1) ->
    noPageOverflows L w1 ->
    checkPageOverflow L w1 = (Returned tt, w1)
    /\ pages (snd (checkPageOverflow L w1)) = pages w1
    /\ getPageCount (snd (checkPageOverflow L w1)) = getPageCount w1.
Proof.
  intros o w1 _ Hquiet.
  assert (Hidle : checkPageOverflow L w1 = (Returned tt, w1)).
  { unfold checkPageOverflow, tryFinally.
    destruct (isProcessingOverflow w1) eqn:Hflag; [reflexivity |].
    unfold forEach. rewrite forEachFrom_unchanged.
    - now rewrite setProcessing_idle.
    - intros p index Hin.
      unfold getAllDocumentContainers in Hin. apply filter_In in Hin.
      destruct Hin as [_ Hdc]. cbn [pages setProcessing] in Hdc.
      unfold checkContainer, querySelectorEditable. cbn [pages setProcessing].
      destruct (nth_error (pages w1) p) as [c|] eqn:Hnth; [| discriminate].
      destruct (editable c) as [content|] eqn:Hed; [| reflexivity].
      pose proof (Hquiet c content (nth_error_In _ _ Hnth) Hdc Hed) as Hno.
      unfold isOverflowing in Hno. rewrite Hno. reflexivity. }
  rewrite Hidle. now repeat split.
Qed.

End SecondPass.

(* ------------------------------------------------------------------ *)
(** ** Lists of distinct nodes *)

Section DistinctNodes.
Import PageManager Spec.

Lemma NoDup_app_inv (A : Type) (l1 l2 : list A) :
  NoDup (l1 ++ l2) ->
  NoDup l1 /\ NoDup l2 /\ forall a, In a l1 -> ~ In a l2.
Proof.
  induction l1 as [|x l1 IH]; simpl; intros H.
  - repeat split; [constructor | assumption | tauto].
  - inversion H as [|? ? Hx Hrest]; subst.
    destruct (IH Hrest) as [H1 [H2 H3]].
    repeat split.
    + constructor; [| assumption]. intros Hin. apply Hx.
      apply in_or_app. now left.
    + assumption.
    + intros a [<- | Ha] Hin2.
      * apply Hx. apply in_or_app. now right.
      * now apply (H3 a).
Qed.

Lemma existsb_sameNode (m : Node) (l : list Node) :
  existsb (sameNode m) l = true <-> In (nid m) (map nid l).
Proof.
  rewrite existsb_exists, in_map_iff. split.
  - intros [x [Hin Hs]]. apply sameNode_true in Hs. now exists x.
  - intros [x [Hid Hin]]. exists x. split; [assumption |].
    now apply sameNode_true.
Qed.

Lemma without_notin (m : Node) (l : list Node) :
  ~ In (nid m) (map nid l) -> without m l = l.
Proof.
  induction l as [|x l IH]; simpl; intros Hnot; [reflexivity |].
  destruct (sameNode m x) eqn:E.
  - apply sameNode_true in E. exfalso. apply Hnot. left. congruence.
  - simpl. f_equal. apply IH. tauto.
Qed.

Lemma In_without (m x : Node) (l : list Node) :
  In x (without m l) <-> In x l /\ nid m <> nid x.
Proof.
  unfold without. rewrite filter_In, negb_true_iff, sameNode_false.
  reflexivity.
Qed.

Lemma without_app (m : Node) (l1 l2 : list Node) :
  without m (l1 ++ l2) = without m l1 ++ without m l2.
Proof. apply filter_app. Qed.

Lemma without_middle (m : Node) (a b : list Node) :
  NoDup (map nid (a ++ m :: b)) -> without m (a ++ m :: b) = a ++ b.
Proof.
  intros Hnd. rewrite map_app in Hnd. simpl in Hnd.
  apply NoDup_remove_2 in Hnd.
  rewrite without_app. simpl. rewrite sameNode_refl. simpl.
  rewrite !without_notin; [reflexivity | |];
    intros Hin; apply Hnd; apply in_or_app; tauto.
Qed.

Lemma withoutAll_disjoint (ms l : list Node) :
  (forall m, In m ms -> ~ In (nid m) (map nid l)) -> withoutAll ms l = l.
Proof.
  revert l. induction ms as [|m ms IH]; intros l Hdis; [reflexivity |].
  unfold withoutAll. cbn [fold_left].
  rewrite without_notin by (apply Hdis; now left).
  apply IH. intros m' Hin. apply Hdis. now right.
Qed.

Lemma withoutAll_suffix (b : list Node) :
  forall a, NoDup (map nid (a ++ b)) -> withoutAll b (a ++ b) = a.
Proof.
  induction b as [|m b IH]; intros a Hnd.
  - now rewrite app_nil_r.
  - unfold withoutAll. cbn [fold_left].
    rewrite without_middle by assumption.
    apply IH. rewrite map_app in *. simpl in Hnd.
    now apply NoDup_remove_1 in Hnd.
Qed.

Lemma withoutAll_tail (l : list Node) (k : nat) :
  distinctNodes l -> withoutAll (skipn k l) l = firstn k l.
Proof.
  intros Hnd. rewrite <- (firstn_skipn k l) at 2.
  apply withoutAll_suffix. now rewrite firstn_skipn.
Qed.

Lemma distinct_parts (A N B : list Node) :
  distinctNodes (A ++ N ++ B) ->
  distinctNodes N
  /\ (forall x m, In x A -> In m N -> nid m <> nid x)
  /\ (forall x m, In x B -> In m N -> nid m <> nid x).
Proof.
  unfold distinctNodes. rewrite !map_app. intros H.
  destruct (NoDup_app_inv _ _ H) as [_ [HNB HA]].
  destruct (NoDup_app_inv _ _ HNB) as [HN [_ HB]].
  repeat split; [assumption | |].
  - intros x m Hx Hm E. apply (HA (nid x)).
    + now apply in_map.
    + apply in_or_app. left. rewrite <- E. now apply in_map.
  - intros x m Hx Hm E. apply (HB (nid m)).
    + now apply in_map.
    + rewrite E. now apply in_map.
Qed.

End DistinctNodes.

(* ------------------------------------------------------------------ *)
(** ** Containers and their children *)

Section Containers.
Import PageManager Spec.

Lemma mapChildren_same (f : list Node -> list Node) (c : Container) :
  f (nodesOf c) = nodesOf c -> mapChildren f c = c.
Proof.
  destruct c as [dc [[css cw ch nodes]|]]; unfold mapChildren, nodesOf; simpl;
    [intros -> |]; reflexivity.
Qed.

Lemma mapChildren_ext (f g : list Node -> list Node) (c : Container) :
  f (nodesOf c) = g (nodesOf c) -> mapChildren f c = mapChildren g c.
Proof.
  destruct c as [dc [[css cw ch nodes]|]]; unfold mapChildren, nodesOf; simpl;
    [intros -> |]; reflexivity.
Qed.

Lemma mapChildren_compose (f g : list Node -> list Node) (c : Container) :
  mapChildren g (mapChildren f c) = mapChildren (fun l => g (f l)) c.
Proof. now destruct c as [dc [[css cw ch nodes]|]]. Qed.

Lemma nodesOf_mapChildren (f : list Node -> list Node) (c : Container)
      (content : Content) :
  editable c = Some content ->
  nodesOf (mapChildren f c) = f (childNodes content).
Proof. unfold nodesOf, mapChildren. now intros ->. Qed.

Lemma nodesOf_editable (c : Container) (content : Content) :
  editable c = Some content -> nodesOf c = childNodes content.
Proof. unfold nodesOf. now intros ->. Qed.

Lemma nodesOf_without (m : Node) (c : Container) :
  nodesOf (mapChildren (without m) c) = without m (nodesOf c).
Proof. now destruct c as [dc [[css cw ch nodes]|]]. Qed.

Lemma allChildNodes_detach (m : Node) (w : World) :
  allChildNodes (detach m w) = without m (allChildNodes w).
Proof.
  unfold allChildNodes, detach. cbn [pages withPages].
  induction (pages w) as [|c ps IH]; [reflexivity |].
  cbn [map List.concat]. now rewrite without_app, nodesOf_without, IH.
Qed.

Lemma updateAt_middle (A : Type) (f : A -> A) (pre : list A) (x : A)
      (post : list A) :
  updateAt (List.length pre) f (pre ++ x :: post) = pre ++ f x :: post.
Proof. induction pre as [|a pre IH]; simpl; [reflexivity | now f_equal]. Qed.

Lemma nth_error_middle (A : Type) (pre : list A) (x : A) (post : list A) :
  nth_error (pre ++ x :: post) (List.length pre) = Some x.
Proof. induction pre as [|a pre IH]; simpl; [reflexivity | exact IH]. Qed.

Lemma withPages_id (w : World) : withPages (fun ps => ps) w = w.
Proof. now destruct w. Qed.

End Containers.

(* ------------------------------------------------------------------ *)
(** ** Moving the tail of a page *)

Section Mover.
Import PageManager Spec.

Lemma fillFragment_effect (ms : list Node) :
  forall (fragment : list Node) (w : World),
    NoDup (map nid ms) ->
    (forall m, In m ms -> In (nid m) (map nid (allChildNodes w))) ->
    (forall m, In m ms -> ~ In (nid m) (map nid fragment)) ->
    fold_left moveOne ms (fragment, w)
    = (fragment ++ ms, withPages (map (mapChildren (withoutAll ms))) w).
Proof.
  induction ms as [|m ms IH]; intros fragment w Hnd Hin Hfrag.
  - cbn [fold_left]. rewrite app_nil_r. f_equal.
    unfold withoutAll. cbn [fold_left].
    rewrite <- (withPages_id w) at 1. unfold withPages. f_equal.
    symmetry. rewrite <- (map_id (pages w)) at 2. apply map_ext.
    intros c. now apply mapChildren_same.
  - cbn [fold_left]. unfold moveOne at 2. unfold hasParentNode.
    assert (Hm : existsb (sameNode m) (allChildNodes w) = true)
      by (apply existsb_sameNode, Hin; now left).
    rewrite Hm. cbn [orb].
    rewrite without_notin by (apply Hfrag; now left).
    simpl in Hnd. inversion Hnd as [|? ? Hm_fresh Hnd']; subst.
    rewrite IH.
    + rewrite <- app_assoc. cbn [app]. f_equal.
      unfold detach, withPages. cbn [pages]. f_equal.
      rewrite map_map. apply map_ext. intros c.
      now rewrite mapChildren_compose.
    + assumption.
    + intros m' Hm'. rewrite allChildNodes_detach.
      specialize (Hin m' (or_intror Hm')).
      apply in_map_iff in Hin. destruct Hin as [x [Hid Hx]].
      apply in_map_iff. exists x. split; [assumption |].
      apply In_without. split; [assumption |].
      rewrite Hid. intros E. apply Hm_fresh. rewrite E. now apply in_map.
    + intros m' Hm'. rewrite map_app. intros Hbad.
      apply in_app_or in Hbad. destruct Hbad as [Hbad | [Hbad | []]].
      * now apply (Hfrag m' (or_intror Hm')).
      * apply Hm_fresh. rewrite Hbad. now apply in_map.
Qed.

(** Detaching the tail of one page leaves the other pages alone. *)
Lemma detach_tail (pre : list Container) (c : Container)
      (post : list Container) (content : Content) (k : nat) :
  editable c = Some content ->
  distinctNodes (List.concat (map nodesOf (pre ++ c :: post))) ->
  map (mapChildren (withoutAll (skipn k (childNodes content))))
      (pre ++ c :: post)
  = pre ++ mapChildren (fun _ => firstn k (childNodes content)) c :: post.
Proof.
  intros Hed Hnd.
  rewrite map_app, concat_app in Hnd. cbn [map List.concat] in Hnd.
  rewrite (nodesOf_editable _ Hed) in Hnd.
  destruct (distinct_parts _ _ _ Hnd) as [HN [HA HB]].
  assert (Hother : forall side c',
             (forall x m, In x (List.concat (map nodesOf side)) ->
                          In m (childNodes content) -> nid m <> nid x) ->
             In c' side ->
             mapChildren (withoutAll (skipn k (childNodes content))) c' = c').
  { intros side c' Hside Hc'. apply mapChildren_same.
    apply withoutAll_disjoint. intros m Hm Hbad.
    apply in_map_iff in Hbad. destruct Hbad as [x [Hid Hx]].
    apply (Hside x m).
    - apply in_concat. exists (nodesOf c'). split; [now apply in_map | assumption].
    - rewrite <- (firstn_skipn k (childNodes content)).
      apply in_or_app. now right.
    - congruence. }
  rewrite map_app. cbn [map]. f_equal; [| f_equal].
  - rewrite <- (map_id pre) at 2. apply map_ext_in.
    intros c' Hc'. now apply (Hother pre).
  - apply mapChildren_ext. rewrite (nodesOf_editable _ Hed).
    now apply withoutAll_tail.
  - rewrite <- (map_id post) at 2. apply map_ext_in.
    intros c' Hc'. now apply (Hother post).
Qed.

End Mover.

Section MoveEffect.
Import JsString PageManager Spec.

Lemma slice_of_nat (A : Type) (l : list A) (k : nat) :
  slice l (Z.of_nat k) = skipn k l.
Proof.
  unfold slice.
  replace (Z.of_nat k <? 0) with false by (symmetry; apply Z.ltb_ge; lia).
  now rewrite Nat2Z.id.
Qed.

Lemma updateAt_next (A : Type) (f : A -> A) (pre : list A) (x y : A)
      (post : list A) :
  updateAt (S (List.length pre)) f (pre ++ x :: y :: post)
  = pre ++ x :: f y :: post.
Proof. induction pre as [|a pre IH]; simpl; [reflexivity | now f_equal]. Qed.

Lemma nth_error_next (A : Type) (pre : list A) (x y : A) (post : list A) :
  nth_error (pre ++ x :: y :: post) (S (List.length pre)) = Some y.
Proof. induction pre as [|a pre IH]; simpl; [reflexivity | exact IH]. Qed.

Lemma distinct_skipn (l : list Node) (k : nat) :
  distinctNodes l -> NoDup (map nid (skipn k l)).
Proof.
  unfold distinctNodes. intros H. rewrite <- (firstn_skipn k l), map_app in H.
  now apply NoDup_app_remove_l in H.
Qed.

Lemma In_skipn_In (A : Type) (l : list A) (k : nat) (x : A) :
  In x (skipn k l) -> In x l.
Proof.
  intros H. rewrite <- (firstn_skipn k l). apply in_or_app. now right.
Qed.

(** What [moveContentToNextPage] does to two neighbouring pages. *)
Lemma moveContentToNextPage_effect (w : World) (pre : list Container)
      (c cq : Container) (post : list Container) (content cc : Content)
      (k : nat) :
  pages w = pre ++ c :: cq :: post ->
  editable c = Some content ->
  editable cq = Some cc ->
  distinctNodes (allChildNodes w) ->
  moveContentToNextPage (childNodes content) (Z.of_nat k)
                        (Some (S (List.length pre))) w
  = (Returned tt,
     withPages
       (fun _ =>
          pre ++ mapChildren (fun _ => firstn k (childNodes content)) c
              :: mapChildren
                   (fun old =>
                      skipn k (childNodes content)
                      ++ (if includes (innerHTML old) placeholderText
                          then [] else old)) cq
              :: post) w).
Proof.
  intros Hpages Hc Hcq Hnd.
  unfold moveContentToNextPage, fillFragment. rewrite slice_of_nat.
  assert (HN : distinctNodes (childNodes content)).
  { unfold allChildNodes in Hnd. rewrite Hpages, map_app, concat_app in Hnd.
    cbn [map List.concat] in Hnd. rewrite (nodesOf_editable _ Hc) in Hnd.
    apply distinct_parts in Hnd. tauto. }
  rewrite fillFragment_effect.
  - cbn [app].
    assert (Hw1 : withPages
                    (map (mapChildren
                            (withoutAll (skipn k (childNodes content))))) w
                  = withPages
                      (fun _ => pre ++ mapChildren
                                         (fun _ => firstn k (childNodes content)) c
                                    :: cq :: post) w).
    { unfold withPages. rewrite Hpages. f_equal.
      apply detach_tail; [assumption |].
      unfold allChildNodes in Hnd. now rewrite Hpages in Hnd. }
    rewrite Hw1. cbn [pages withPages].
    rewrite nth_error_next. rewrite (nodesOf_editable _ Hcq).
    destruct (includes (innerHTML (childNodes cc)) placeholderText) eqn:Hinc;
      unfold withPages; cbn [pages scratch isProcessingOverflow pageCount
                               pendingChecks focusedPage overflowCalls nextNodeId];
      repeat rewrite updateAt_next.
    + rewrite mapChildren_compose.
      rewrite (@mapChildren_ext
                 (fun l => skipn k (childNodes content) ++ [])
                 (fun old =>
                    skipn k (childNodes content)
                    ++ (if includes (innerHTML old) placeholderText
                        then [] else old)) cq)
        by (rewrite (nodesOf_editable _ Hcq), Hinc; reflexivity).
      reflexivity.
    + rewrite (@mapChildren_ext
                 (fun old => skipn k (childNodes content) ++ old)
                 (fun old =>
                    skipn k (childNodes content)
                    ++ (if includes (innerHTML old) placeholderText
                        then [] else old)) cq)
        by (rewrite (nodesOf_editable _ Hcq), Hinc; reflexivity).
      reflexivity.
  - now apply distinct_skipn.
  - intros m Hm. apply in_map. unfold allChildNodes.
    rewrite Hpages, map_app, concat_app. cbn [map List.concat].
    apply in_or_app. right. apply in_or_app. left.
    rewrite (nodesOf_editable _ Hc). now apply In_skipn_In in Hm.
  - intros m _ [].
Qed.

End MoveEffect.

Section StepEffect.
Import JsString PageManager Spec Measure Splitter.

Variable L : Layout.

Lemma measureLoop_range (availableHeight : Z) (rest : list Node) :
  forall (i currentHeight : Z) (div div' : TempDiv) (r : Z),
    measureLoop L availableHeight rest i currentHeight div = (Returned r, div') ->
    r = -1 \/ i <= r < i + Z.of_nat (List.length rest).
Proof.
  induction rest as [|node rest IH]; intros i cur div div' r H;
    cbn [measureLoop] in H.
  - inversion H. now left.
  - destruct (tempDivScrollHeight L (appendChild div node)) as [sh|];
      [| discriminate].
    destruct (cur + (sh - cur) >? availableHeight).
    + inversion H; subst. right. simpl List.length. lia.
    + apply IH in H. simpl List.length. lia.
Qed.

Lemma updateAt_last (A : Type) (f : A -> A) (s : list A) (x : A) :
  updateAt (List.length s) f (s ++ [x]) = s ++ [f x].
Proof. apply updateAt_middle. Qed.

Lemma handlePageOverflow_unfold (container : nat) (content : Content)
      (availableHeight : Z) (pageIndex : nat) (w : World) :
  handlePageOverflow L container content availableHeight pageIndex w
  = match measureLoop L availableHeight (childNodes content) 0 0
            (mkTempDiv (cssText content) (clientWidth content) []) with
    | (Returned r, _) =>
        if r >=? 0
        then splitContentAtIndex L container content (childNodes content) r
               (recordCall pageIndex w)
        else (Returned tt, recordCall pageIndex w)
    | (Thrown e, div') =>
        (Thrown e, withScratch (fun s => s ++ [div']) (recordCall pageIndex w))
    end.
Proof.
  unfold handlePageOverflow, bind, modify, createMeasurementContainer,
    measureSplitIndex, removeChild.
  cbn [scratch recordCall withScratch].
  rewrite nth_error_last.
  destruct (measureLoop L availableHeight (childNodes content) 0 0 _)
    as [[r | e] div'].
  - cbn [modify].
    assert (E : withScratch (removeAt (List.length (scratch w)))
                  (withScratch
                     (updateAt (List.length (scratch w)) (fun _ => div'))
                     (withScratch
                        (fun s =>
                           s ++ [mkTempDiv (cssText content)
                                           (clientWidth content) []])
                        (recordCall pageIndex w)))
                = recordCall pageIndex w).
    { unfold withScratch, recordCall.
      cbn [pages scratch isProcessingOverflow pageCount pendingChecks
             focusedPage overflowCalls nextNodeId].
      now rewrite removeAt_updateAt_last. }
    rewrite E. now destruct (r >=? 0).
  - f_equal. unfold withScratch, recordCall.
    cbn [pages scratch isProcessingOverflow pageCount pendingChecks
           focusedPage overflowCalls nextNodeId].
    now rewrite updateAt_last.
Qed.

Lemma addNewPage_last (w : World) (pre : list Container) (c : Container) :
  pages w = pre ++ [c] ->
  isDocumentContainer c = true ->
  addNewPage L false w
  = (Returned (S (List.length pre)),
     withPages (fun ps => ps ++ [newPageElement L (nextNodeId w)])
               (bumpNodeId (setPageCount (pageCount w + 1) w))).
Proof.
  intros Hpages Hdc.
  unfold addNewPage, bind, modify, createNewPageElement, lastPageOf.
  cbn [pages bumpNodeId setPageCount nextNodeId].
  rewrite Hpages, rev_app_distr. cbn [rev app]. rewrite Hdc.
  rewrite length_app. cbn [List.length].
  replace (List.length pre + 1 - 1)%nat with (List.length pre) by lia.
  reflexivity.
Qed.

Lemma template_has_no_placeholder (id : nat) :
  includes (innerHTML [templateNode id]) placeholderText = false.
Proof. reflexivity. Qed.

Lemma handleCursorMovement_some (nodes : list Node) (splitIndex : Z)
      (q nextContainer : nat) (w : World) :
  exists w',
    handleCursorMovement nodes splitIndex (Some q) nextContainer w
    = (Returned tt, w')
    /\ pages w' = pages w /\ nextNodeId w' = nextNodeId w.
Proof.
  unfold handleCursorMovement.
  destruct (_ >? _); eexists; (split; [reflexivity | now split]).
Qed.

(** What a split that returns does to the pages of a document. *)
Lemma splitContentAtIndex_effect (w w' : World) (pre : list Container)
      (c : Container) (post : list Container) (content : Content) (r : Z) :
  wellFormed w ->
  pages w = pre ++ c :: post ->
  editable c = Some content ->
  0 <= r < Z.of_nat (List.length (childNodes content)) ->
  splitContentAtIndex L (List.length pre) content (childNodes content) r w
  = (Returned tt, w') ->
  exists k,
    (exists cq post' cc,
        post = cq :: post' /\ editable cq = Some cc
        /\ nextNodeId w' = nextNodeId w
        /\ pages w'
           = pre ++ mapChildren (fun _ => firstn k (childNodes content)) c
                 :: mapChildren
                      (fun old =>
                         skipn k (childNodes content)
                         ++ (if includes (innerHTML old) placeholderText
                             then [] else old)) cq
                 :: post')
    \/ (post = [] /\ nextNodeId w' = S (nextNodeId w)
        /\ pages w'
           = pre ++ [mapChildren (fun _ => firstn k (childNodes content)) c;
                     mapChildren
                       (fun old => skipn k (childNodes content) ++ old)
                       (newPageElement L (nextNodeId w))]).
Proof.
  intros [Hdc [Hnd Hfresh]] Hpages Hc Hr Hrun.
  unfold splitContentAtIndex in Hrun. unfold bind at 1 in Hrun.
  unfold liftOutcome in Hrun.
  destruct (adjustSplitForKeepTogether (childNodes content)
              (childNodes content) r) as [adj | e] eqn:Hadj; [| discriminate].
  assert (Hk : 0 <= adj <= r).
  { unfold adjustSplitForKeepTogether in Hadj.
    apply scanBackward_bounds in Hadj; lia. }
  exists (Z.to_nat adj).
  replace adj with (Z.of_nat (Z.to_nat adj)) in Hrun by lia.
  set (k := Z.to_nat adj) in *.
  unfold bind at 1 in Hrun.
  destruct post as [|cq post'].
  - right.
    replace (nth_error (pages w) (S (List.length pre))) with (@None Container)
      in Hrun
      by (symmetry; apply nth_error_None; rewrite Hpages, length_app;
          simpl; lia).
    assert (Hcdc : isDocumentContainer c = true).
    { rewrite Hpages in Hdc. now apply Forall_elt in Hdc. }
    rewrite (@addNewPage_last w pre c Hpages Hcdc) in Hrun.
    set (w2 := withPages (fun ps => ps ++ [newPageElement L (nextNodeId w)])
                 (bumpNodeId (setPageCount (pageCount w + 1) w))) in *.
    assert (Hpages2 : pages w2
                      = pre ++ c :: newPageElement L (nextNodeId w) :: []).
    { unfold w2. cbn [pages withPages bumpNodeId setPageCount].
      rewrite Hpages, <- app_assoc. reflexivity. }
    unfold bind at 1 in Hrun. unfold ret at 1 in Hrun.
    unfold querySelectorEditable in Hrun.
    rewrite Hpages2, nth_error_next in Hrun.
    cbn [editable newPageElement] in Hrun.
    unfold bind at 1 in Hrun.
    rewrite (@moveContentToNextPage_effect w2 pre c
               (newPageElement L (nextNodeId w)) [] content _ k
               Hpages2 Hc eq_refl) in Hrun.
    + unfold bind at 1 in Hrun.
      match type of Hrun with
      | context [handleCursorMovement ?a ?b (Some ?q) ?n ?w0] =>
          destruct (handleCursorMovement_some a b q n w0)
            as [w3 [Hcur [Hp3 Hn3]]];
          rewrite Hcur in Hrun
      end.
      unfold modify in Hrun. inversion Hrun; subst w'.
      split; [reflexivity |]. split.
      * cbn [nextNodeId setTimeoutCheck]. rewrite Hn3. reflexivity.
      * cbn [pages setTimeoutCheck]. rewrite Hp3. cbn [pages withPages].
        do 3 f_equal.
    + unfold distinctNodes, allChildNodes. rewrite Hpages2.
      replace (pre ++ [c; newPageElement L (nextNodeId w)])
        with ((pre ++ [c]) ++ [newPageElement L (nextNodeId w)])
        by (rewrite <- app_assoc; reflexivity).
      rewrite <- Hpages, map_app, concat_app, map_app.
      cbn [map List.concat nodesOf newPageElement editable childNodes
               templateNode nid app].
      apply NoDup_app; [exact Hnd | repeat constructor; simpl; tauto |].
      intros a Ha [<- | []].
      apply in_map_iff in Ha. destruct Ha as [x [Hid Hx]].
      rewrite Forall_forall in Hfresh. specialize (Hfresh x Hx). lia.
  - left.
    rewrite Hpages, nth_error_next in Hrun.
    assert (Hqdc : isDocumentContainer cq = true).
    { rewrite Hpages in Hdc. apply Forall_app in Hdc.
      destruct Hdc as [_ Hdc]. inversion Hdc as [|? ? _ Hdc']; subst.
      now inversion Hdc'. }
    rewrite Hqdc in Hrun. unfold ret at 1 in Hrun.
    unfold bind at 1 in Hrun. unfold ret at 1 in Hrun.
    unfold querySelectorEditable in Hrun.
    rewrite Hpages, nth_error_next in Hrun.
    destruct (editable cq) as [cc|] eqn:Hcq.
    + exists cq, post', cc. split; [reflexivity |]. split; [exact Hcq |].
      unfold bind at 1 in Hrun.
      rewrite (@moveContentToNextPage_effect w pre c cq post' content cc k
                 Hpages Hc Hcq Hnd) in Hrun.
      unfold bind at 1 in Hrun.
      match type of Hrun with
      | context [handleCursorMovement ?a ?b (Some ?q) ?n ?w0] =>
          destruct (handleCursorMovement_some a b q n w0)
            as [w3 [Hcur [Hp3 Hn3]]];
          rewrite Hcur in Hrun
      end.
      unfold modify in Hrun. inversion Hrun; subst w'.
      split.
      * cbn [nextNodeId setTimeoutCheck]. rewrite Hn3. reflexivity.
      * cbn [pages setTimeoutCheck]. rewrite Hp3. reflexivity.
    + exfalso. unfold bind at 1 in Hrun. unfold moveContentToNextPage in Hrun.
      destruct (fillFragment _ _) in Hrun. discriminate.
Qed.

End StepEffect.

(* ------------------------------------------------------------------ *)
(** ** Conservation of the content by an overflow pass *)

Section Conservation.
Import JsString PageManager Spec Measure Splitter.

Variable L : Layout.

Lemma conserved_refl (w : World) : conserved w w.
Proof. exists []. now rewrite app_nil_r. Qed.

Lemma conserved_trans (w1 w2 w3 : World) :
  conserved w1 w2 -> conserved w2 w3 -> conserved w1 w3.
Proof.
  intros [s1 [E1 F1]] [s2 [E2 F2]]. exists (s1 ++ s2). split.
  - now rewrite E2, E1, app_assoc.
  - apply Forall_app. now split.
Qed.

Lemma allChildNodes_middle (w : World) (pre : list Container) (c : Container)
      (post : list Container) :
  pages w = pre ++ c :: post ->
  allChildNodes w
  = List.concat (map nodesOf pre) ++ nodesOf c ++ List.concat (map nodesOf post).
Proof.
  intros H. unfold allChildNodes. now rewrite H, map_app, concat_app.
Qed.

Lemma isDocumentContainer_mapChildren (f : list Node -> list Node)
      (c : Container) :
  isDocumentContainer (mapChildren f c) = isDocumentContainer c.
Proof. reflexivity. Qed.

(** A world with the same nodes, and at most one new template text, is
    well formed again. *)
Lemma wellFormed_step (w w' : World) (stub : list Node) :
  wellFormed w ->
  Forall (fun c => isDocumentContainer c = true) (pages w') ->
  allChildNodes w' = allChildNodes w ++ stub ->
  (stub = [] /\ nextNodeId w' = nextNodeId w)
  \/ (stub = [templateNode (nextNodeId w)]
      /\ nextNodeId w' = S (nextNodeId w)) ->
  wellFormed w'.
Proof.
  intros [Hdc [Hnd Hfresh]] Hdc' Hnodes Hstub.
  split; [assumption |]. unfold distinctNodes in *. rewrite Hnodes.
  destruct Hstub as [[-> Hn] | [-> Hn]]; rewrite Hn.
  - rewrite app_nil_r. now split.
  - split.
    + rewrite map_app. apply NoDup_app;
        [assumption | repeat constructor; simpl; tauto |].
      intros a Ha [<- | []].
      apply in_map_iff in Ha. destruct Ha as [x [Hid Hx]].
      rewrite Forall_forall in Hfresh. specialize (Hfresh x Hx).
      simpl in Hid. lia.
    + apply Forall_app. split.
      * eapply Forall_impl; [| exact Hfresh]. simpl. intros. lia.
      * repeat constructor.
  Qed.

Lemma wellFormed_recordCall (index : nat) (w : World) :
  wellFormed w -> wellFormed (recordCall index w).
Proof. intros H. exact H. Qed.

(** One step of the pass, on the page that follows [pre]. *)
Lemma checkContainer_step (w w' : World) (pre : list Container)
      (c : Container) (post : list Container) (index : nat) :
  wellFormed w ->
  pages w = pre ++ c :: post ->
  (forall cq post', post = cq :: post' ->
      includes (innerHTML (nodesOf cq)) placeholderText = false) ->
  checkContainer L (List.length pre) index w = (Returned tt, w') ->
  wellFormed w' /\ conserved w w'
  /\ ( (exists c', pages w' = pre ++ c' :: post)
       \/ (exists c' cq cq' post',
              post = cq :: post' /\ pages w' = pre ++ c' :: cq' :: post')
       \/ (post = [] /\ exists c' n, pages w' = pre ++ [c'; n]) ).
Proof.
  intros Hwf Hpages Hph Hrun.
  assert (Hsame : forall w0, pages w0 = pages w ->
                             nextNodeId w0 = nextNodeId w ->
                             wellFormed w0 /\ conserved w w0
                             /\ ( (exists c', pages w0 = pre ++ c' :: post)
                                  \/ (exists c' cq cq' post',
                                         post = cq :: post'
                                         /\ pages w0 = pre ++ c' :: cq' :: post')
                                  \/ (post = []
                                      /\ exists c' n, pages w0 = pre ++ [c'; n]) )).
  { intros w0 Hp Hn.
    assert (Hnodes : allChildNodes w0 = allChildNodes w ++ [])
      by (unfold allChildNodes; now rewrite Hp, app_nil_r).
    split; [| split].
    - apply (@wellFormed_step w w0 [] Hwf); try assumption.
      + rewrite Hp. apply Hwf.
      + now left.
    - exists []. now split.
    - left. exists c. now rewrite Hp. }
  unfold checkContainer, querySelectorEditable in Hrun.
  rewrite Hpages, nth_error_middle in Hrun.
  destruct (editable c) as [content|] eqn:Hc;
    [| inversion Hrun; subst; now apply Hsame].
  destruct (scrollHeight L content >? clientHeight content + 2);
    [| inversion Hrun; subst; now apply Hsame].
  rewrite handlePageOverflow_unfold in Hrun.
  destruct (measureLoop L (clientHeight content) (childNodes content) 0 0 _)
    as [[r | e] div'] eqn:Hloop; [| discriminate].
  destruct (r >=? 0) eqn:Hr0;
    [| inversion Hrun; subst; now apply Hsame].
  apply measureLoop_range in Hloop. apply Z.geb_le in Hr0.
  assert (Hr : 0 <= r < Z.of_nat (List.length (childNodes content))) by lia.
  destruct (@splitContentAtIndex_effect L (recordCall index w) w' pre c post
              content r (wellFormed_recordCall index Hwf) Hpages Hc Hr Hrun)
    as [k [[cq [post' [cc [-> [Hcq [Hn Hp]]]]]] | [-> [Hn Hp]]]].
  - cbn [nextNodeId recordCall] in Hn.
    specialize (Hph cq post' eq_refl).
    rewrite (nodesOf_editable _ Hcq) in Hph.
    assert (Hnodes : allChildNodes w' = allChildNodes w ++ []).
    { rewrite app_nil_r. unfold allChildNodes. rewrite Hp, Hpages.
      rewrite !map_app, !concat_app. cbn [map List.concat].
      rewrite (nodesOf_mapChildren _ _ Hc), (nodesOf_mapChildren _ _ Hcq).
      rewrite Hph, (nodesOf_editable _ Hc), (nodesOf_editable _ Hcq).
      f_equal. rewrite !app_assoc. do 2 f_equal. apply firstn_skipn. }
    split; [| split].
    + apply (@wellFormed_step w w' [] Hwf); try assumption.
      * rewrite Hp. destruct Hwf as [Hdc _]. rewrite Hpages in Hdc.
        apply Forall_app in Hdc. destruct Hdc as [Hpre Hrest].
        inversion Hrest as [|? ? Hcd Hrest']; subst.
        inversion Hrest' as [|? ? Hqd Hpost]; subst.
        apply Forall_app. split; [assumption |].
        repeat constructor; assumption.
      * now left.
    + exists []. now split.
    + right; left. now exists (mapChildren (fun _ => firstn k (childNodes content)) c),
        cq, (mapChildren
               (fun old =>
                  skipn k (childNodes content)
                  ++ (if includes (innerHTML old) placeholderText
                      then [] else old)) cq), post'.
  - cbn [nextNodeId recordCall] in Hn.
    assert (Hnodes : allChildNodes w'
                     = allChildNodes w ++ [templateNode (nextNodeId w)]).
    { unfold allChildNodes. rewrite Hp, Hpages.
      cbn [nextNodeId recordCall].
      rewrite !map_app, !concat_app. cbn [map List.concat].
      rewrite (nodesOf_mapChildren _ _ Hc), (nodesOf_editable _ Hc).
      cbn [nodesOf mapChildren newPageElement editable childNodes].
      rewrite !app_nil_r, <- !app_assoc. f_equal.
      rewrite !app_assoc. f_equal. apply firstn_skipn. }
    split; [| split].
    + apply (@wellFormed_step w w' [templateNode (nextNodeId w)] Hwf);
        try assumption.
      * rewrite Hp. destruct Hwf as [Hdc _]. rewrite Hpages in Hdc.
        apply Forall_app in Hdc. destruct Hdc as [Hpre Hrest].
        inversion Hrest as [|? ? Hcd _]; subst.
        apply Forall_app. split; [assumption |].
        repeat constructor; assumption.
      * now right.
    + exists [templateNode (nextNodeId w)]. split; [assumption |].
      repeat constructor.
    + right; right. split; [reflexivity |]. do 2 eexists. exact Hp.
Qed.

End Conservation.

Section ConservationPass.
Import JsString PageManager Spec Measure Splitter.

Variable L : Layout.

Lemma Forall_tl (A : Type) (P : A -> Prop) (l : list A) :
  Forall P l -> Forall P (tl l).
Proof. intros H. destruct l; [constructor | now inversion H]. Qed.

Lemma length_snoc_list (A : Type) (l : list A) (x : A) :
  List.length (l ++ [x]) = S (List.length l).
Proof. rewrite length_app. simpl. lia. Qed.

(** The pass over the pages [cs] that follow [pre]. *)
Lemma pass_loop (n : nat) :
  forall (cs pre : list Container) (w w' : World) (index : nat),
    List.length cs = n ->
    wellFormed w ->
    pages w = pre ++ cs ->
    Forall (fun cq => includes (innerHTML (nodesOf cq)) placeholderText = false)
           (tl cs) ->
    forEachFrom index (seq (List.length pre) (List.length cs))
                (checkContainer L) w = (Returned tt, w') ->
    wellFormed w' /\ conserved w w'.
Proof.
  induction n as [|n IH]; intros cs pre w w' index Hlen Hwf Hpages Hph Hrun.
  - destruct cs; [| discriminate]. simpl in Hrun. inversion Hrun; subst.
    split; [assumption | apply conserved_refl].
  - destruct cs as [|c post]; [discriminate |].
    simpl in Hlen. injection Hlen as Hlen.
    cbn [List.length seq forEachFrom tl] in Hrun, Hph.
    unfold bind in Hrun.
    destruct (checkContainer L (List.length pre) index w) as [[[] | e] w1]
      eqn:Hstep; [| discriminate].
    destruct (@checkContainer_step L w w1 pre c post index Hwf Hpages)
      as [Hwf1 [Hcons1 Hshape]]; [| assumption |].
    { intros cq post' ->. now inversion Hph. }
    destruct Hshape as [[c' Hp1] | [[c' [cq [cq' [post' [-> Hp1]]]]]
                                   | [-> [c' [nw Hp1]]]]].
    + rewrite <- (length_snoc_list pre c') in Hrun.
      destruct (IH post (pre ++ [c']) w1 w' (S index) Hlen Hwf1) as [Hwf' Hc'].
      * rewrite Hp1, <- app_assoc. reflexivity.
      * now apply Forall_tl.
      * assumption.
      * split; [assumption | eapply conserved_trans; eassumption].
    + rewrite <- (length_snoc_list pre c') in Hrun.
      destruct (IH (cq' :: post') (pre ++ [c']) w1 w' (S index) Hlen Hwf1)
        as [Hwf' Hc'].
      * rewrite Hp1, <- app_assoc. reflexivity.
      * now inversion Hph.
      * assumption.
      * split; [assumption | eapply conserved_trans; eassumption].
    + simpl in Hrun. inversion Hrun; subst. now split.
Qed.

Lemma getAllDocumentContainers_all (w : World) :
  Forall (fun c => isDocumentContainer c = true) (pages w) ->
  getAllDocumentContainers w = seq 0 (List.length (pages w)).
Proof.
  intros Hdc. unfold getAllDocumentContainers.
  assert (H : forall p, In p (seq 0 (List.length (pages w))) ->
              match nth_error (pages w) p with
              | Some c => isDocumentContainer c
              | None => false
              end = true).
  { intros p Hp. apply in_seq in Hp.
    destruct (nth_error (pages w) p) as [c|] eqn:E.
    - rewrite Forall_forall in Hdc. apply Hdc. eapply nth_error_In. exact E.
    - apply nth_error_None in E. lia. }
  induction (seq 0 (List.length (pages w))) as [|p l IHl]; [reflexivity |].
  simpl. rewrite (H p (or_introl eq_refl)). f_equal.
  apply IHl. intros q Hq. apply H. now right.
Qed.

Lemma blockNodes_conserved (w w' : World) :
  conserved w w' -> blockNodes w' = blockNodes w.
Proof.
  intros [stub [Hnodes Hstub]]. unfold blockNodes.
  rewrite Hnodes, filter_app.
  assert (E : filter isBlockNode stub = []).
  { clear Hnodes. induction stub as [|x stub IHs]; [reflexivity |].
    inversion Hstub as [|? ? Hx Hrest]; subst. cbn [filter].
    replace (isBlockNode x) with false
      by (unfold isBlockNode; now rewrite Hx).
    now apply IHs. }
  rewrite E. apply app_nil_r.
Qed.

(** C1, as the code has it. On a document made of pages whose nodes are
    distinct objects, no content area of which holds the placeholder
    text, a call of [checkPageOverflow] that returns leaves the child
    nodes of all pages, read in page order, as they were, followed at
    most by the white-space text of the template of a page it made: the
    block nodes are the same sequence, none is lost, repeated or moved
    past another, and no node sits on two pages. *)
Theorem pass_conserves_content (w w' : World) :
  wellFormed w ->
  noPlaceholder w ->
  checkPageOverflow L w = (Returned tt, w') ->
  conserved w w'
  /\ blockNodes w' = blockNodes w
  /\ distinctNodes (allChildNodes w')
  /\ Forall (fun c => isDocumentContainer c = true) (pages w').
Proof.
  intros Hwf Hph Hrun.
  assert (Hgoal : wellFormed w' /\ conserved w w').
  { unfold checkPageOverflow, tryFinally in Hrun.
    destruct (isProcessingOverflow w).
    - inversion Hrun; subst. split; [assumption | apply conserved_refl].
    - rewrite getAllDocumentContainers_all in Hrun by apply Hwf.
      destruct (forEach _ _ _) as [o w1] eqn:Hloop.
      inversion Hrun; subst o w'.
      unfold forEach in Hloop. cbn [pages setProcessing] in Hloop.
      apply (@pass_loop (List.length (pages w)) (pages w) []
               (setProcessing true w) w1 0%nat eq_refl Hwf eq_refl)
        in Hloop.
      + exact Hloop.
      + apply Forall_tl. exact Hph. }
  destruct Hgoal as [[Hdc [Hnd _]] Hcons].
  repeat split; try assumption. now apply blockNodes_conserved.
Qed.

End ConservationPass.

Section ConservationExamples.
Import JsString PageManager Spec Sample.

Lemma pass_conserves_content_witness :
  conserved (document [page threeParagraphs])
            (snd (checkPageOverflow layout600 (document [page threeParagraphs])))
  /\ blockNodes (snd (checkPageOverflow layout600
                        (document [page threeParagraphs])))
     = blockNodes (document [page threeParagraphs])
  /\ distinctNodes
       (allChildNodes (snd (checkPageOverflow layout600
                              (document [page threeParagraphs]))))
  /\ Forall (fun c => isDocumentContainer c = true)
            (pages (snd (checkPageOverflow layout600
                           (document [page threeParagraphs])))).
Proof.
  apply (@pass_conserves_content layout600
           (document [page threeParagraphs])
           (snd (checkPageOverflow layout600
                   (document [page threeParagraphs])))).
  - repeat split.
    + repeat constructor.
    + unfold distinctNodes. simpl.
      repeat (constructor; [simpl; intuition discriminate |]). constructor.
    + simpl. repeat constructor.
  - constructor; [vm_compute; reflexivity | constructor].
  - vm_compute. reflexivity.
Defined.

(** C1 as stated does not hold: the paragraph that holds the
    placeholder text on the receiving page is a block node of the
    document before the pass and of no page after it. *)
Lemma pass_drops_placeholder :
  wellFormed (document [page [para 1 "a"; para 2 "b"]; page [placeholder]])
  /\ fst (checkPageOverflow layout600
            (document [page [para 1 "a"; para 2 "b"]; page [placeholder]]))
     = Returned tt
  /\ blockNodes (document [page [para 1 "a"; para 2 "b"]; page [placeholder]])
     = [para 1 "a"; para 2 "b"; placeholder]
  /\ blockNodes
       (snd (checkPageOverflow layout600
               (document [page [para 1 "a"; para 2 "b"]; page [placeholder]])))
     = [para 1 "a"; para 2 "b"]
  /\ blockNodes
       (snd (checkPageOverflow layout600
               (document [page [para 1 "a"; para 2 "b"]; page [placeholder]])))
     <> blockNodes
          (document [page [para 1 "a"; para 2 "b"]; page [placeholder]]).
Proof.
  split; [| split; [| split; [| split]]];
    try (vm_compute; reflexivity); [| vm_compute; discriminate].
  repeat split.
  - repeat constructor.
  - unfold distinctNodes. simpl.
    repeat (constructor; [simpl; intuition discriminate |]). constructor.
  - simpl. repeat constructor.
Qed.

End ConservationExamples.

Section MoreExamples.
Import JsString PageManager Spec Sample Measure.

Lemma measureLoop_split_index_witness :
  exists r,
    fst (measureLoop layout600 864 threeParagraphs 0 0 emptyDiv)
    = Returned r
    /\ ( (r = -1
          /\ forall k, (k < List.length threeParagraphs)%nat ->
                       cumulativeHeight [600; 600; 600] k <= 864)
         \/ (exists k, r = Z.of_nat k /\ (k < List.length threeParagraphs)%nat
               /\ 864 < cumulativeHeight [600; 600; 600] k
               /\ forall j, (j < k)%nat ->
                            cumulativeHeight [600; 600; 600] j <= 864) )
    /\ (threeParagraphs <> [] -> 864 < cumulativeHeight [600; 600; 600] 0 ->
        r = 0).
Proof.
  apply (@measureLoop_split_index layout600 threeParagraphs [600; 600; 600]
           864 emptyDiv).
  intros k Hk. destruct k as [|[|[|k]]]; reflexivity.
Defined.

(** C7. The receiving page holds a paragraph of the user that quotes the
    placeholder text, and a second paragraph: [moveContentToNextPage]
    empties the page before it inserts the moved node, so the prior
    content does not follow the moved node, it is gone. *)
Theorem move_erases_page_quoting_placeholder :
  fst (moveContentToNextPage threeParagraphs 2 (Some 1%nat)
         (document [page threeParagraphs; page [quoting; para 9 "notes"]]))
  = Returned tt
  /\ map nodesOf
       (pages (snd (moveContentToNextPage threeParagraphs 2 (Some 1%nat)
                      (document [page threeParagraphs;
                                 page [quoting; para 9 "notes"]]))))
     = [[para 1 "a"; para 2 "b"]; [para 3 "c"]].
Proof. split; vm_compute; reflexivity. Qed.

(** C8 as stated does not hold: after a first pass the page made
    for the overflow holds two paragraphs of 600 units, and the second
    call moves one of them to a third page. *)
Lemma second_pass_moves_again :
  map nodesOf
      (pages (snd (checkPageOverflow layout600
                     (document [page threeParagraphs]))))
  = [[para 1 "a"]; [para 2 "b"; para 3 "c"; templateNode 100]]
  /\ getPageCount (snd (checkPageOverflow layout600
                          (document [page threeParagraphs]))) = 2
  /\ map nodesOf
         (pages (snd (checkPageOverflow layout600
                        (snd (checkPageOverflow layout600
                                (document [page threeParagraphs]))))))
     = [[para 1 "a"]; [para 2 "b"];
        [para 3 "c"; templateNode 100; templateNode 101]]
  /\ getPageCount (snd (checkPageOverflow layout600
                          (snd (checkPageOverflow layout600
                                  (document [page threeParagraphs]))))) = 3
  /\ snd (checkPageOverflow layout600
            (snd (checkPageOverflow layout600
                    (document [page threeParagraphs]))))
     <> snd (checkPageOverflow layout600 (document [page threeParagraphs])).
Proof.
  repeat split; try (vm_compute; reflexivity).
  intros H. apply (f_equal getPageCount) in H. vm_compute in H. discriminate.
Qed.

Lemma second_pass_is_idle_witness :
  checkPageOverflow layout600
    (snd (checkPageOverflow layout600
            (document [page [para 1 "a"; para 2 "b"]])))
  = (Returned tt,
     snd (checkPageOverflow layout600
            (document [page [para 1 "a"; para 2 "b"]]))).
Proof.
  apply (proj1 (@second_pass_is_idle layout600
                  (document [page [para 1 "a"; para 2 "b"]])
                  (Returned tt)
                  (snd (checkPageOverflow layout600
                          (document [page [para 1 "a"; para 2 "b"]])))
                  ltac:(vm_compute; reflexivity)
                  ltac:(intros c content Hin Hdc Hed; vm_compute in Hin;
                        destruct Hin as [<- | [<- | []]];
                        inversion Hed; subst; reflexivity))).
Defined.

End MoreExamples.

(* ------------------------------------------------------------------ *)
(** ** The unit tests and the scenarios of the specification *)

Section Scenarios.
Import KeepTogether Splitter PageManager Sample.

Example heading_before_table :
  shouldKeepWithNext (Some (element 1 "H2")) [element 2 "TABLE"] = true.
Proof. reflexivity. Qed.

Example heading_before_list :
  shouldKeepWithNext (Some (element 1 "H3")) [element 2 "UL"] = true.
Proof. reflexivity. Qed.

Example paragraph_with_colon_before_table :
  shouldKeepWithNext (Some (para 1 "The following table shows:"))
                     [element 2 "TABLE"] = true.
Proof. reflexivity. Qed.

Example paragraph_with_colon_before_list :
  shouldKeepWithNext (Some (para 1 "Items include:  ")) [element 2 "OL"] = true.
Proof. reflexivity. Qed.

Example regular_paragraph :
  shouldKeepWithNext (Some (para 1 "Regular paragraph text"))
                     [para 2 EmptyString] = false.
Proof. reflexivity. Qed.

Example heading_caption_table :
  shouldKeepWithNext (Some (element 1 "H2"))
                     [para 2 "Table 1: Sales data"; element 3 "TABLE"] = true.
Proof. reflexivity. Qed.

Example group_of_heading_and_caption :
  getKeepTogetherGroup (element 1 "H2")
                       [para 2 "Table 1: Sales data"; element 3 "TABLE"]
  = [element 1 "H2"; para 2 "Table 1: Sales data"].
Proof. reflexivity. Qed.

Example group_of_single_paragraph :
  getKeepTogetherGroup (para 1 "alone") [] = [para 1 "alone"].
Proof. reflexivity. Qed.

Example adjust_to_heading :
  adjustSplitForKeepTogether mixedNodes mixedNodes 2 = Returned 1.
Proof. reflexivity. Qed.

Example adjust_at_safe_boundary :
  adjustSplitForKeepTogether threeParagraphs threeParagraphs 2 = Returned 2.
Proof. reflexivity. Qed.

Example adjust_at_beginning :
  adjustSplitForKeepTogether [element 1 "H1"; element 2 "TABLE"]
                             [element 1 "H1"; element 2 "TABLE"] 1
  = Returned 0.
Proof. reflexivity. Qed.

Example adjust_beyond_the_nodes :
  adjustSplitForKeepTogether mixedNodes mixedNodes 7 = Thrown TypeError.
Proof. reflexivity. Qed.

(** One paragraph of 950 units on a page of 864: after one pass it is
    alone on page 2 and page 1 is empty. *)
Example oversized_paragraph :
  map nodesOf
      (pages (snd (checkPageOverflow layout950
                     (document [page [para 1 "long"]]))))
  = [[]; [para 1 "long"; templateNode 100]]
  /\ getPageCount (snd (checkPageOverflow layout950
                          (document [page [para 1 "long"]]))) = 2.
Proof. split; vm_compute; reflexivity. Qed.

(** A paragraph that fits, then a heading and a table that do not: the
    split index 2 is moved back to the heading, and both go to page 2. *)
Example heading_moves_with_table :
  map nodesOf
      (pages (snd (checkPageOverflow layoutByTag
                     (document [page [para 1 "intro"; element 2 "H2";
                                      element 3 "TABLE"]]))))
  = [[para 1 "intro"];
     [element 2 "H2"; element 3 "TABLE"; templateNode 100]].
Proof. vm_compute. reflexivity. Qed.

(** A page without content area is skipped. *)
Example page_without_content :
  checkPageOverflow layout600 (document [mkContainer true None])
  = (Returned tt, document [mkContainer true None]).
Proof. vm_compute. reflexivity. Qed.

End Scenarios.

(* ================================================================== *)
(** * Further properties *)

(* ------------------------------------------------------------------ *)
(** ** Keep-together groups *)

Section GroupShape.
Import JsString KeepTogether Spec.

Lemma last_cons_default (A : Type) (x d d' : A) (l : list A) :
  last (x :: l) d = last (x :: l) d'.
Proof.
  revert x. induction l as [|y l IH]; intros x; [reflexivity |].
  change (last (x :: y :: l) d) with (last (y :: l) d).
  change (last (x :: y :: l) d') with (last (y :: l) d'). apply IH.
Qed.

Lemma keepTogetherTail_chain (siblings : list Node) :
  forall current,
    let tail := keepTogetherTail current siblings in
    (forall i, (i < List.length tail)%nat ->
       shouldKeepWithNext (Some (nth i (current :: tail) current))
                          (skipn i siblings) = true)
    /\ shouldKeepWithNext (Some (last (current :: tail) current))
                          (skipn (List.length tail) siblings) = false.
Proof.
  induction siblings as [|next more IH]; intros current.
  - cbn. split; [intros i Hi; lia | reflexivity].
  - cbn [keepTogetherTail].
    destruct (shouldKeepWithNext (Some current) (next :: more)) eqn:Hkeep.
    + destruct (IH next) as [Hchain Hlast]. cbn zeta in *. split.
      * intros [|i] Hi; [exact Hkeep |].
        simpl in Hi.
        change (nth (S i) (current :: next :: keepTogetherTail next more) current)
          with (nth i (next :: keepTogetherTail next more) current).
        rewrite (nth_indep _ current next) by (simpl; lia).
        cbn [skipn]. apply Hchain. lia.
      * cbn [List.length skipn].
        change (last (current :: next :: keepTogetherTail next more) current)
          with (last (next :: keepTogetherTail next more) current).
        rewrite (last_cons_default next current next). exact Hlast.
    + cbn. split; [intros i Hi; lia | exact Hkeep].
Qed.

(** X1. [getKeepTogetherGroup] starts with the given element and goes on
    with its next element siblings, in order and without gap; every member
    but the last keeps with its next sibling, and the last one does not:
    the group stops at the first element that [shouldKeepWithNext]
    refuses. *)
Theorem getKeepTogetherGroup_shape (startElement : Node) (siblings : list Node) :
  exists tail rest,
    getKeepTogetherGroup startElement siblings = startElement :: tail
    /\ siblings = tail ++ rest
    /\ (forall i, (i < List.length tail)%nat ->
          shouldKeepWithNext (Some (nth i (startElement :: tail) startElement))
                             (skipn i siblings) = true)
    /\ shouldKeepWithNext (Some (last (startElement :: tail) startElement)) rest
       = false.
Proof.
  destruct (keepTogetherTail_prefix siblings startElement) as [rest Hrest].
  exists (keepTogetherTail startElement siblings), rest.
  destruct (keepTogetherTail_chain siblings startElement) as [Hchain Hlast].
  cbn zeta in *. repeat split; try assumption.
  assert (E : skipn (List.length (keepTogetherTail startElement siblings))
                    siblings = rest).
  { remember (keepTogetherTail startElement siblings) as tail eqn:Et.
    clear Et Hchain Hlast. subst siblings.
    now rewrite skipn_app, skipn_all, Nat.sub_diag. }
  rewrite E in Hlast. exact Hlast.
Qed.

Lemma tableOrList_not_heading (n : Node) :
  isTable n \/ isList n -> ~ isHeading n.
Proof.
  unfold isTable, isList, isHeading. intros H [level [Hin E]].
  simpl in Hin.
  repeat (destruct Hin as [<- | Hin];
          [destruct H as [H | [H | H]]; rewrite H in E; discriminate |]).
  contradiction.
Qed.

Lemma tableOrList_not_paragraph (n : Node) :
  isTable n \/ isList n -> ~ isParagraph n.
Proof.
  unfold isTable, isList, isParagraph. intros [H | [H | H]] E;
    rewrite H in E; discriminate.
Qed.

Lemma paragraph_not_heading (n : Node) : isParagraph n -> ~ isHeading n.
Proof.
  unfold isParagraph, isHeading. intros H [level [Hin E]]. simpl in Hin.
  repeat (destruct Hin as [<- | Hin]; [rewrite H in E; discriminate |]).
  contradiction.
Qed.

Lemma keep_needs_heading_or_paragraph (n : Node) (siblings : list Node) :
  shouldKeepWithNext (Some n) siblings = true -> isHeading n \/ isParagraph n.
Proof.
  destruct siblings as [|next after]; [discriminate |].
  rewrite shouldKeepWithNext_cons. tauto.
Qed.

Lemma tableOrList_ends_group (n : Node) (siblings : list Node) :
  isTable n \/ isList n -> keepTogetherTail n siblings = [].
Proof.
  intros H. destruct siblings as [|next after]; [reflexivity |].
  cbn [keepTogetherTail].
  destruct (shouldKeepWithNext (Some n) (next :: after)) eqn:E; [| reflexivity].
  apply keep_needs_heading_or_paragraph in E. exfalso.
  destruct E as [E | E];
    [now apply (tableOrList_not_heading H) | now apply (tableOrList_not_paragraph H)].
Qed.

(** X2. A keep-together group has at most three members.  With three it
    is a heading, a paragraph of fewer than 100 characters whose trimmed
    text ends with a colon, and a table; with two, the first is a heading
    or a paragraph. *)
Theorem getKeepTogetherGroup_size (startElement : Node) (siblings : list Node) :
  (List.length (getKeepTogetherGroup startElement siblings) <= 3)%nat
  /\ (forall second, nth_error (getKeepTogetherGroup startElement siblings) 1
                     = Some second ->
        isHeading startElement \/ isParagraph startElement)
  /\ (forall second third,
        getKeepTogetherGroup startElement siblings
        = [startElement; second; third] ->
        isHeading startElement
        /\ isParagraph second
        /\ (String.length (textContent second) < 100)%nat
        /\ trimmedTextEndsWithColon second
        /\ isTable third).
Proof.
  unfold getKeepTogetherGroup.
  assert (Hshape :
    keepTogetherTail startElement siblings = []
    \/ (exists second, keepTogetherTail startElement siblings = [second]
                       /\ (isHeading startElement \/ isParagraph startElement))
    \/ (exists second third,
          keepTogetherTail startElement siblings = [second; third]
          /\ isHeading startElement /\ isParagraph second
          /\ (String.length (textContent second) < 100)%nat
          /\ trimmedTextEndsWithColon second /\ isTable third)).
  { destruct siblings as [|second after]; [now left |].
    cbn [keepTogetherTail].
    destruct (shouldKeepWithNext (Some startElement) (second :: after))
      eqn:Hfirst; [| now left].
    right.
    pose proof (keep_needs_heading_or_paragraph _ _ Hfirst) as Hstart.
    destruct after as [|third rest]; [left; now exists second |].
    cbn [keepTogetherTail].
    destruct (shouldKeepWithNext (Some second) (third :: rest)) eqn:Hsecond;
      [| left; now exists second].
    right. exists second, third.
    apply shouldKeepWithNext_cons in Hfirst.
    apply shouldKeepWithNext_cons in Hsecond.
    assert (Hsp : isParagraph second /\ trimmedTextEndsWithColon second
                  /\ (isTable third \/ isList third)).
    { destruct Hsecond as [[Hh _] | [[Hh _] | H]]; [| | exact H];
        exfalso;
        destruct Hfirst as [[_ Htl] | [[_ [Hp _]] | [_ [_ Htl]]]];
        try (now apply (tableOrList_not_heading Htl));
        now apply (paragraph_not_heading Hp). }
    destruct Hsp as [Hp [Hcolon Htl]].
    destruct Hfirst as [[_ Htl2] | [[Hh [_ [Hlen [t [r [E Ht]]]]]] | [_ [_ Htl2]]]];
      try (exfalso; now apply (tableOrList_not_paragraph Htl2)).
    inversion E; subst t r.
    rewrite (tableOrList_ends_group _ (or_introl Ht)).
    repeat split; assumption. }
  destruct Hshape as [-> | [[second [-> Hstart]] | [second [third [-> H]]]]].
  - repeat split; [simpl; lia | discriminate | discriminate | | | |];
      intros; discriminate.
  - split; [simpl; lia |]. split; [intros; exact Hstart |].
    intros s t E. discriminate.
  - split; [simpl; lia |]. split; [intros; tauto |].
    intros s t E. inversion E; subst. exact H.
Qed.

End GroupShape.

(* ------------------------------------------------------------------ *)
(** ** findFirstTextNode *)

Section FirstTextNode.
Import JsString DomTree.

Lemma DomNode_forall_ind (P : DomNode -> Prop) :
  (forall ty data children,
      Forall P children -> P (mkDomNode ty data children)) ->
  forall n, P n.
Proof.
  intros H. fix IH 1. intros [ty data children]. apply H.
  induction children as [|c cs IHcs]; constructor; [apply IH | exact IHcs].
Qed.

Lemma find_app (A : Type) (f : A -> bool) (l1 l2 : list A) :
  find f (l1 ++ l2)
  = match find f l1 with Some x => Some x | None => find f l2 end.
Proof.
  induction l1 as [|a l1 IH]; simpl; [reflexivity |].
  destruct (f a); [reflexivity | exact IH].
Qed.

(** X3. [findFirstTextNode] returns the first node of the subtree, in
    document order, that is a text node with text other than white space;
    so what it returns is such a node of the subtree, and it returns
    nothing exactly when the subtree has none. *)
Theorem findFirstTextNode_first (node : DomNode) :
  findFirstTextNode node = find isNonBlankText (documentOrder node)
  /\ (forall found, findFirstTextNode node = Some found ->
        In found (documentOrder node)
        /\ domNodeType found = 3
        /\ trim (domTextContent found) <> EmptyString)
  /\ (findFirstTextNode node = None <->
      forall n, In n (documentOrder node) -> isNonBlankText n = false).
Proof.
  assert (Hfind : forall n,
             findFirstTextNode n = find isNonBlankText (documentOrder n)).
  { intros n. induction n as [ty data children IH] using DomNode_forall_ind.
    cbn [findFirstTextNode documentOrder find].
    destruct (isNonBlankText (mkDomNode ty data children)); [reflexivity |].
    induction IH as [|c cs Hc _ IHcs]; [reflexivity |].
    cbn [flat_map]. rewrite find_app, <- Hc.
    destruct (findFirstTextNode c); [reflexivity | exact IHcs]. }
  split; [apply Hfind |]. rewrite Hfind. split.
  - intros found H. apply find_some in H. destruct H as [Hin Hok].
    unfold isNonBlankText in Hok. apply andb_true_iff in Hok.
    destruct Hok as [Hty Htext]. apply Z.eqb_eq in Hty.
    apply negb_true_iff, String.eqb_neq in Htext. auto.
  - split.
    + intros H n Hin. exact (find_none _ _ H n Hin).
    + intros H. destruct (find isNonBlankText (documentOrder node)) as [x|] eqn:E;
        [| reflexivity].
      apply find_some in E. destruct E as [Hin Hok].
      rewrite (H x Hin) in Hok. discriminate.
Qed.

Example findFirstTextNode_nested :
  findFirstTextNode
    (elementNode [textNode "   ";
                  elementNode [elementNode [textNode "Nested text"]];
                  textNode "later"])
  = Some (textNode "Nested text").
Proof. reflexivity. Qed.

Example findFirstTextNode_blank :
  findFirstTextNode (elementNode [textNode "   "; elementNode []]) = None.
Proof. reflexivity. Qed.

End FirstTextNode.

(* ------------------------------------------------------------------ *)
(** ** debounce *)

Section Debounce.
Import Timers.

Variable A : Type.

Lemma run_snoc (events : list (Event A)) (e : Event A) (st : Debounced A) :
  run (events ++ [e]) st = step (run events st) e.
Proof. unfold run. now rewrite fold_left_app. Qed.

Lemma invoked_snoc (events : list (Event A)) (e : Event A) :
  invoked (events ++ [e])
  = invoked events ++ match e with Invoke args => [args] | _ => [] end.
Proof.
  induction events as [|x events IH]; simpl.
  - destruct e; reflexivity.
  - destruct x; simpl; now rewrite IH.
Qed.

Lemma invoke_singlePending (args : A) (st : Debounced A) :
  singlePending st ->
  timers (invoke args st) = [(nextTimerId st, args)]
  /\ timeoutId (invoke args st) = Some (nextTimerId st)
  /\ calls (invoke args st) = calls st.
Proof.
  intros [Hnone | [id [a [Hone Hid]]]]; unfold invoke; cbn [timers timeoutId calls].
  - rewrite Hnone. destruct (timeoutId st); repeat split.
  - rewrite Hone, Hid. cbn [clearTimeout filter fst].
    rewrite Nat.eqb_refl. repeat split.
Qed.

Lemma expire_singlePending (id : nat) (st : Debounced A) :
  singlePending st ->
  (timers (expire id st) = timers st /\ calls (expire id st) = calls st
   /\ timeoutId (expire id st) = timeoutId st
   /\ forall args, ~ In (id, args) (timers st))
  \/ (exists args, timers st = [(id, args)] /\ timers (expire id st) = []
                   /\ calls (expire id st) = calls st ++ [args]).
Proof.
  intros [Hnone | [id' [a [Hone Hid]]]]; unfold expire.
  - left.
    replace (find (fun t : nat * A => Nat.eqb (fst t) id) (timers st))
      with (@None (nat * A)) by (rewrite Hnone; reflexivity).
    split; [reflexivity |]. split; [reflexivity |]. split; [reflexivity |].
    intros args Hin. rewrite Hnone in Hin. destruct Hin.
  - destruct (Nat.eqb id' id) eqn:E.
    + apply Nat.eqb_eq in E. subst id'. right. exists a.
      split; [exact Hone |]. rewrite Hone. cbn [find filter fst].
      rewrite Nat.eqb_refl. cbn. now split.
    + left.
      replace (find (fun t : nat * A => Nat.eqb (fst t) id) (timers st))
        with (@None (nat * A))
        by (rewrite Hone; cbn [find fst]; now rewrite E).
      split; [reflexivity |]. split; [reflexivity |]. split; [reflexivity |].
      intros args Hin. rewrite Hone in Hin. destruct Hin as [H | []].
      inversion H; subst. rewrite Nat.eqb_refl in E. discriminate.
Qed.

Lemma run_invariant (firstId : nat) (events : list (Event A)) :
  singlePending (run events (initial firstId))
  /\ (List.length (calls (run events (initial firstId)))
      + List.length (timers (run events (initial firstId)))
      <= List.length (invoked events))%nat
  /\ incl (calls (run events (initial firstId))) (invoked events)
  /\ (forall id args, In (id, args) (timers (run events (initial firstId))) ->
                      In args (invoked events)).
Proof.
  induction events as [|e events IH] using rev_ind.
  - cbn. repeat split; [now left | lia | intros x [] | intros id args []].
  - rewrite run_snoc, invoked_snoc.
    destruct IH as [Hinv [Hcount [Hcalls Hpending]]].
    set (st := run events (initial firstId)) in *.
    destruct e as [args | id |]; cbn [step].
    + destruct (invoke_singlePending args Hinv) as [Ht [Hid Hc]].
      rewrite Ht, Hc. repeat split.
      * right. exists (nextTimerId st), args. now split.
      * rewrite length_app. simpl. lia.
      * intros x Hx. apply in_or_app. left. now apply Hcalls.
      * intros i a [H | []]. inversion H; subst.
        apply in_or_app. right. now left.
    + rewrite app_nil_r.
      destruct (expire_singlePending id Hinv)
        as [[Ht [Hc [Hid _]]] | [args [Hone [Ht Hc]]]].
      * rewrite Ht, Hc. repeat split; try assumption.
        unfold singlePending. rewrite Ht, Hid. exact Hinv.
      * rewrite Ht, Hc. rewrite Hone in Hcount, Hpending.
        repeat split.
        -- left. exact Ht.
        -- rewrite length_app. simpl in *. lia.
        -- intros x Hx. apply in_app_or in Hx. destruct Hx as [Hx | [<- | []]].
           ++ now apply Hcalls.
           ++ apply (Hpending id). now left.
        -- intros i a [].
    + rewrite app_nil_r. now repeat split.
Qed.

(** X4. However the calls of a debounced function, the expiry of timers
    and other timers interleave, at most one timer of the function is
    pending, and it is the one [timeoutId] holds; the function wrapped
    has run at most as often as the debounced one was called, always
    with arguments of one of these calls. *)
Theorem debounce_no_queue (firstId : nat) (events : list (Event A)) :
  (List.length (timers (run events (initial firstId))) <= 1)%nat
  /\ (forall id args, In (id, args) (timers (run events (initial firstId))) ->
                      timeoutId (run events (initial firstId)) = Some id)
  /\ (List.length (calls (run events (initial firstId)))
      + List.length (timers (run events (initial firstId)))
      <= List.length (invoked events))%nat
  /\ incl (calls (run events (initial firstId))) (invoked events).
Proof.
  destruct (run_invariant firstId events) as [Hinv [Hcount [Hcalls _]]].
  repeat split; try assumption.
  - destruct Hinv as [-> | [id [a [-> _]]]]; simpl; lia.
  - intros id args Hin.
    destruct Hinv as [Hnone | [i [a [Hone Hid]]]].
    + rewrite Hnone in Hin. destruct Hin.
    + rewrite Hone in Hin. destruct Hin as [H | []]. inversion H; subst.
      exact Hid.
Qed.

(** X5. After a call of the debounced function, whatever came before,
    exactly one timer is pending and it carries the arguments of that
    call: earlier calls still waiting are dropped.  When that timer
    expires the wrapped function runs once, with these arguments, and no
    timer is left. *)
Theorem debounce_last_call_wins (firstId : nat) (events : list (Event A))
        (args : A) :
  exists id,
    timers (run (events ++ [Invoke args]) (initial firstId)) = [(id, args)]
    /\ calls (run (events ++ [Invoke args]) (initial firstId))
       = calls (run events (initial firstId))
    /\ calls (expire id (run (events ++ [Invoke args]) (initial firstId)))
       = calls (run events (initial firstId)) ++ [args]
    /\ timers (expire id (run (events ++ [Invoke args]) (initial firstId)))
       = [].
Proof.
  destruct (run_invariant firstId events) as [Hinv _].
  rewrite run_snoc. cbn [step].
  set (st := run events (initial firstId)) in *.
  destruct (invoke_singlePending args Hinv) as [Ht [Hid Hc]].
  exists (nextTimerId st). split; [exact Ht |]. split; [exact Hc |].
  unfold expire. rewrite Ht. cbn [find filter fst].
  rewrite Nat.eqb_refl. cbn [calls timers negb]. rewrite Hc. now split.
Qed.

Example debounce_burst :
  calls (run [Invoke 1%nat; Invoke 2%nat; Invoke 3%nat; Expire 5; Expire 6;
              Expire 7; Invoke 4%nat; Foreign; Expire 8]
             (initial 5))
  = [3%nat; 4%nat].
Proof. reflexivity. Qed.

End Debounce.

(* ------------------------------------------------------------------ *)
(** ** Margin guides *)

Section MarginGuides.
Import Margins.

Lemma anyShown_const (shown : bool) (containers : list bool) :
  containers <> [] ->
  anyShown (map (fun _ => shown) containers) = shown.
Proof.
  destruct containers as [|c cs]; [congruence | intros _].
  unfold anyShown. cbn [map existsb]. destruct shown; [reflexivity |].
  induction cs as [|x cs IH]; [reflexivity | exact IH].
Qed.

Lemma anyShown_uniform (shown : bool) (containers : list bool) :
  containers <> [] ->
  Forall (fun c => c = shown) containers ->
  anyShown containers = shown.
Proof.
  intros Hne Hall. unfold anyShown. destruct shown.
  - destruct containers as [|c cs]; [congruence |].
    inversion Hall; subst. reflexivity.
  - clear Hne. induction Hall as [|c cs Hc _ IH]; [reflexivity |].
    subst c. exact IH.
Qed.

Lemma map_const_uniform (shown : bool) (containers : list bool) :
  Forall (fun c => c = shown) containers ->
  map (fun _ => shown) containers = containers.
Proof.
  induction 1 as [|c cs Hc _ IH]; [reflexivity |]. cbn. now rewrite IH, Hc.
Qed.

(** X6. After [toggleMargins] every page has the same margin class: shown
    exactly when no page showed it before.  On pages that agree, two
    calls restore the classes; and a page made by [createNewPageElement]
    takes the class of the others, so pages that agree keep agreeing. *)
Theorem toggleMargins_uniform (containers : list bool) :
  Forall (fun c => c = negb (anyShown containers)) (toggleMargins containers)
  /\ List.length (toggleMargins containers) = List.length containers
  /\ (uniform containers ->
      toggleMargins (toggleMargins containers) = containers)
  /\ toggleMargins (toggleMargins (toggleMargins containers))
     = toggleMargins containers
  /\ (uniform containers -> uniform (addNewPage containers)).
Proof.
  unfold toggleMargins. cbn zeta. repeat split.
  - apply Forall_forall. intros c Hc. apply in_map_iff in Hc.
    now destruct Hc as [x [<- _]].
  - apply length_map.
  - intros [shown Hall]. destruct containers as [|c cs]; [reflexivity |].
    rewrite anyShown_const by discriminate.
    rewrite (@anyShown_uniform shown (c :: cs)) by (discriminate || assumption).
    rewrite negb_involutive, map_map. now apply map_const_uniform.
  - destruct containers as [|c cs]; [reflexivity |].
    rewrite !anyShown_const by discriminate.
    now rewrite negb_involutive, !map_map.
  - intros [shown Hall]. unfold addNewPage, createNewPageElement. cbn zeta.
    destruct containers as [|c cs].
    + exists false. repeat constructor.
    + exists shown. apply Forall_app. split; [assumption |].
      constructor; [| constructor].
      now apply anyShown_uniform.
Qed.

Lemma toggleMargins_uniform_witness :
  toggleMargins (toggleMargins [true; true; true]) = [true; true; true].
Proof.
  apply (proj1 (proj2 (proj2 (toggleMargins_uniform [true; true; true])))).
  exists true. repeat constructor.
Defined.

Example toggleMargins_mixed :
  toggleMargins [false; true] = [false; false]
  /\ toggleMargins (toggleMargins [false; true]) = [true; true].
Proof. split; reflexivity. Qed.

End MarginGuides.

(* ------------------------------------------------------------------ *)
(** ** Guarantees of calls, composed *)

Section Guarantees.
Import PageManager Hoare.

Lemma sat_bind (A B : Type) (R1 R2 R : option JsError -> World -> World -> Prop)
      (m : M A) (k : A -> M B) :
  (forall e w w1, R1 (Some e) w w1 -> R (Some e) w w1) ->
  (forall e w w1 w2, R1 None w w1 -> R2 e w1 w2 -> R e w w2) ->
  sat R1 m -> (forall a, sat R2 (k a)) -> sat R (bind m k).
Proof.
  intros Hthrow Hseq Hm Hk w o w' Hrun. unfold bind in Hrun.
  destruct (m w) as [[a | e] w1] eqn:Em.
  - apply (Hseq _ w w1 w'); [exact (Hm w _ w1 Em) | exact (Hk a w1 _ w' Hrun)].
  - inversion Hrun; subst. apply Hthrow. exact (Hm w _ w' Em).
Qed.

Lemma sat_same (A : Type) (R : option JsError -> World -> World -> Prop)
      (m : M A) :
  (forall e w, R e w w) -> (forall w, snd (m w) = w) -> sat R m.
Proof.
  intros Hrefl Hsame w o w' Hrun. specialize (Hsame w). rewrite Hrun in Hsame.
  simpl in Hsame. subst w'. apply Hrefl.
Qed.

Lemma sat_forEachFrom (A : Type) (R : option JsError -> World -> World -> Prop)
      (body : A -> nat -> M unit) (items : list A) :
  (forall w, R None w w) ->
  (forall e w w1 w2, R None w w1 -> R e w1 w2 -> R e w w2) ->
  (forall item index, sat R (body item index)) ->
  forall index, sat R (forEachFrom index items body).
Proof.
  intros Hrefl Hseq Hbody. induction items as [|item rest IH]; intros index.
  - intros w o w' Hrun. inversion Hrun; subst. apply Hrefl.
  - cbn [forEachFrom]. apply (@sat_bind _ _ R R R); auto.
Qed.

(** A relation that does not look at the reentrancy flag holds of
    [checkPageOverflow] when it holds of the callback of its loop. *)
Lemma sat_checkPageOverflow (L : Layout)
      (R : option JsError -> World -> World -> Prop) :
  (forall w, R None w w) ->
  (forall e w w1 w2, R None w w1 -> R e w1 w2 -> R e w w2) ->
  (forall e w w' b, R e (setProcessing true w) w' ->
                    R e w (setProcessing b w')) ->
  (forall container index, sat R (checkContainer L container index)) ->
  sat R (checkPageOverflow L).
Proof.
  intros Hrefl Hseq Hflag Hbody w o w' Hrun.
  unfold checkPageOverflow, tryFinally in Hrun.
  destruct (isProcessingOverflow w).
  - inversion Hrun; subst. apply Hrefl.
  - destruct (forEach _ _ _) as [o1 w1] eqn:Hloop. inversion Hrun; subst.
    apply Hflag. unfold forEach in Hloop.
    exact (@sat_forEachFrom _ R (checkContainer L) _ Hrefl Hseq Hbody 0%nat
             _ _ _ Hloop).
Qed.

Lemma measureLoop_throws (L : Layout) (availableHeight : Z) (rest : list Node) :
  forall i currentHeight tempDiv e tempDiv',
    Measure.measureLoop L availableHeight rest i currentHeight tempDiv
    = (Thrown e, tempDiv') ->
    e = DOMException.
Proof.
  induction rest as [|node rest IH]; intros i cur div e div' Hloop;
    cbn [Measure.measureLoop] in Hloop.
  - discriminate.
  - destruct (tempDivScrollHeight L (appendChild div node)) as [sh|].
    + destruct (cur + (sh - cur) >? availableHeight).
      * discriminate.
      * exact (IH _ _ _ _ _ Hloop).
    + now inversion Hloop.
Qed.

Lemma sat_handlePageOverflow (L : Layout)
      (R : option JsError -> World -> World -> Prop)
      (container : nat) (content : Content) (availableHeight : Z)
      (pageIndex : nat) :
  (forall e w w', R e (recordCall pageIndex w) w' -> R e w w') ->
  (forall w, R None w w) ->
  (forall w div, R (Some DOMException) w (withScratch (fun s => s ++ [div]) w)) ->
  (forall r, sat R (splitContentAtIndex L container content
                      (childNodes content) r)) ->
  sat R (handlePageOverflow L container content availableHeight pageIndex).
Proof.
  intros Hrec Hrefl Hleak Hsplit w o w' Hrun.
  rewrite handlePageOverflow_unfold in Hrun.
  destruct (Measure.measureLoop L availableHeight (childNodes content) 0 0 _)
    as [[r | e] div'] eqn:Hloop.
  - apply Hrec. destruct (r >=? 0).
    + exact (Hsplit r _ _ _ Hrun).
    + inversion Hrun; subst. apply Hrefl.
  - inversion Hrun; subst. apply Hrec. cbn [errorOf].
    assert (He : e = DOMException) by exact (measureLoop_throws _ _ _ _ _ _ Hloop).
    subst e. apply Hleak.
Qed.

Lemma sat_checkContainer (L : Layout)
      (R : option JsError -> World -> World -> Prop)
      (container index : nat) :
  (forall w, R None w w) ->
  (forall content,
      sat R (handlePageOverflow L container content (clientHeight content)
                                index)) ->
  sat R (checkContainer L container index).
Proof.
  intros Hrefl Hhandle w o w' Hrun. unfold checkContainer in Hrun.
  destruct (querySelectorEditable w container) as [content|].
  - destruct (scrollHeight L content >? clientHeight content + 2).
    + exact (Hhandle content _ _ _ Hrun).
    + inversion Hrun; subst. apply Hrefl.
  - inversion Hrun; subst. apply Hrefl.
Qed.


Lemma flags_map (f : list Node -> list Node) (ps : list Container) :
  map isDocumentContainer (map (mapChildren f) ps)
  = map isDocumentContainer ps.
Proof.
  rewrite map_map. apply map_ext. intros c.
  apply isDocumentContainer_mapChildren.
Qed.

Lemma flags_updateAt (f : list Node -> list Node) (ps : list Container) :
  forall q, map isDocumentContainer (updateAt q (mapChildren f) ps)
            = map isDocumentContainer ps.
Proof.
  induction ps as [|c ps IH]; intros [|q]; cbn [updateAt map]; trivial.
  now rewrite IH.
Qed.

Lemma sameShape_refl (e : option JsError) (w : World) : sameShape e w w.
Proof. now repeat split. Qed.

Lemma sameShape_trans (e1 e2 e : option JsError) (w w1 w2 : World) :
  sameShape e1 w w1 -> sameShape e2 w1 w2 -> sameShape e w w2.
Proof.
  intros [A1 [B1 C1]] [A2 [B2 C2]]. repeat split; congruence.
Qed.

Lemma fillFragment_shape (e : option JsError) (nodesToMove : list Node) :
  forall (st : list Node * World),
    sameShape e (snd st) (snd (fold_left moveOne nodesToMove st)).
Proof.
  induction nodesToMove as [|node rest IH]; intros [fragment w];
    cbn [fold_left].
  - apply sameShape_refl.
  - unfold moveOne at 2. destruct (hasParentNode w fragment node).
    + eapply (@sameShape_trans e e); [| apply IH].
      repeat split. cbn. apply flags_map.
    + apply IH.
Qed.

Lemma sat_shape_move (allNodes : list Node) (splitIndex : Z)
      (nextContent : option nat) :
  sat sameShape (moveContentToNextPage allNodes splitIndex nextContent).
Proof.
  intros w o w' Hrun. unfold moveContentToNextPage, fillFragment in Hrun.
  pose proof (@fillFragment_shape (errorOf o) (slice allNodes splitIndex)
                ([], w)) as H.
  destruct (fold_left _ (slice allNodes splitIndex) ([], w)) as [fragment w1].
  cbn [snd] in H.
  destruct nextContent as [q|]; [| now inversion Hrun; subst].
  inversion Hrun; subst. eapply (@sameShape_trans _ None); [exact H |].
  destruct (JsString.includes _ _); repeat split; cbn;
    now rewrite ?flags_updateAt.
Qed.

Lemma sat_shape_cursor (nodes : list Node) (splitIndex : Z)
      (nextContent : option nat) (nextContainer : nat) :
  sat sameShape
      (handleCursorMovement nodes splitIndex nextContent nextContainer).
Proof.
  intros w o w' Hrun. unfold handleCursorMovement in Hrun.
  destruct (_ >? _).
  - destruct nextContent; inversion Hrun; subst; now repeat split.
  - inversion Hrun; subst. apply sameShape_refl.
Qed.

Lemma grownBy_refl (e : option JsError) (w : World) : grownBy 0 e w w.
Proof.
  unfold grownBy. cbn [repeat]. rewrite app_nil_r.
  repeat split; intros; lia.
Qed.

Lemma grownBy_trans (k1 k2 : nat) (e : option JsError) (w w1 w2 : World) :
  grownBy k1 None w w1 -> grownBy k2 e w1 w2 -> grownBy (k1 + k2) e w w2.
Proof.
  intros [A1 [B1 C1]] [A2 [B2 C2]]. specialize (C1 eq_refl).
  repeat split.
  - now rewrite A2, A1, <- app_assoc, repeat_app.
  - lia.
  - intros He. specialize (C2 He). lia.
Qed.

Lemma sameShape_grownBy (e : option JsError) (w w' : World) :
  sameShape e w w' -> grownBy 0 e w w'.
Proof.
  intros [A [B _]]. unfold grownBy. cbn [repeat]. rewrite app_nil_r.
  repeat split; trivial; intros; lia.
Qed.

Lemma sat_weaken (A : Type) (R R' : option JsError -> World -> World -> Prop)
      (m : M A) :
  (forall e w w', R e w w' -> R' e w w') -> sat R m -> sat R' m.
Proof. intros Himp Hm w o w' Hrun. apply Himp. exact (Hm w o w' Hrun). Qed.

Lemma sameShape_grownUpTo (e : option JsError) (w w' : World) :
  sameShape e w w' -> grownUpTo 0 e w w'.
Proof. intros H. exists 0%nat. split; [lia | now apply sameShape_grownBy]. Qed.

Lemma grownUpTo_trans (e : option JsError) (w w1 w2 : World) :
  grownUpTo 0 None w w1 -> grownUpTo 0 e w1 w2 -> grownUpTo 0 e w w2.
Proof.
  intros [k1 [L1 G1]] [k2 [L2 G2]]. exists (k1 + k2)%nat.
  split; [lia | exact (grownBy_trans G1 G2)].
Qed.

Lemma sat_grown_addNewPage (L : Layout) (focus : bool) :
  sat (grownUpTo 1) (addNewPage L focus).
Proof.
  intros w o w' Hrun.
  unfold addNewPage, bind, modify, createNewPageElement in Hrun.
  cbn in Hrun.
  destruct (lastPageOf _) as [lastPage|]; inversion Hrun; subst.
  - exists 1%nat. split; [lia |]. unfold grownBy.
    destruct focus; cbn; rewrite map_app; repeat split; cbn; intros; lia.
  - exists 0%nat. split; [lia |]. unfold grownBy. cbn.
    rewrite app_nil_r. repeat split; [lia | discriminate].
Qed.

Lemma sat_grown_split (L : Layout) (container : nat) (content : Content)
      (allNodes : list Node) (splitIndex : Z) :
  sat (grownAfter container)
      (splitContentAtIndex L container content allNodes splitIndex).
Proof.
  unfold splitContentAtIndex.
  apply (@sat_bind _ _ unchanged (grownAfter container)).
  { intros e w w1 ->. exists 0%nat.
    split; [lia | split; [apply grownBy_refl | trivial]]. }
  { now intros e w w1 w2 ->. }
  { apply sat_same; [reflexivity |]. intros w. unfold liftOutcome.
    now destruct (Splitter.adjustSplitForKeepTogether _ _ _). }
  intros adjusted.
  apply (@sat_bind _ _ (grownAfter container) (grownUpTo 0)).
  { intros ? ? ? H; exact H. }
  { intros e w w1 w2 [k [Hk [G Hnext]]] [k2 [Hk2 G2]].
    assert (k2 = 0%nat) by lia. subst k2.
    exists k. split; [exact Hk | split; [| exact Hnext]].
    rewrite <- (Nat.add_0_r k). exact (grownBy_trans G G2). }
  { intros w o w' Hrun.
    destruct (nth_error (pages w) (S container)) as [c|] eqn:Hnth.
    - destruct (isDocumentContainer c) eqn:Hdc.
      + inversion Hrun; subst. exists 0%nat.
        split; [lia | split; [apply grownBy_refl | trivial]].
      + destruct (@sat_grown_addNewPage L false _ _ _ Hrun) as [k [Hk G]].
        exists k. split; [exact Hk | split; [exact G |]].
        intros [c' [Hc' Hdc']]. congruence.
    - destruct (@sat_grown_addNewPage L false _ _ _ Hrun) as [k [Hk G]].
      exists k. split; [exact Hk | split; [exact G |]].
      intros [c' [Hc' Hdc']]. congruence. }
  intros nextContainer.
  apply (@sat_bind _ _ (grownUpTo 0) (grownUpTo 0));
    [intros ? ? ? H; exact H | apply grownUpTo_trans | |].
  { apply sat_same; [| reflexivity].
    intros e w. apply sameShape_grownUpTo, sameShape_refl. }
  intros nextContent.
  apply (@sat_bind _ _ (grownUpTo 0) (grownUpTo 0));
    [intros ? ? ? H; exact H | apply grownUpTo_trans | |].
  { apply (@sat_weaken _ sameShape _ _ sameShape_grownUpTo), sat_shape_move. }
  intros _.
  apply (@sat_bind _ _ (grownUpTo 0) (grownUpTo 0));
    [intros ? ? ? H; exact H | apply grownUpTo_trans | |].
  { apply (@sat_weaken _ sameShape _ _ sameShape_grownUpTo), sat_shape_cursor. }
  intros _ w o w' Hrun. inversion Hrun; subst.
  exists 0%nat. split; [lia | exact (@grownBy_refl None w)].
Qed.


Lemma grown_trans (e : option JsError) (w w1 w2 : World) :
  grown None w w1 -> grown e w1 w2 -> grown e w w2.
Proof.
  intros [k1 G1] [k2 G2]. exists (k1 + k2)%nat. exact (grownBy_trans G1 G2).
Qed.

Lemma grownAfter_refl (p : nat) (e : option JsError) (w : World) :
  grownAfter p e w w.
Proof.
  exists 0%nat. split; [lia | split; [apply grownBy_refl | trivial]].
Qed.

Lemma sat_grownAfter_checkContainer (L : Layout) (container index : nat) :
  sat (grownAfter container) (checkContainer L container index).
Proof.
  apply sat_checkContainer; [intros w; apply grownAfter_refl |].
  intros content. apply sat_handlePageOverflow.
  - intros e w w' H. exact H.
  - intros w. apply grownAfter_refl.
  - intros w div. exact (@grownAfter_refl container (Some DOMException) w).
  - intros r. apply sat_grown_split.
Qed.

(** X7. A pass of [checkPageOverflow] only appends pages to the wrapper:
    its children of before stay in place, pages or not as they were, and
    are followed by some number [k] of new pages.  [pageCount] grows by
    at least [k], and by exactly [k] when the pass returns. *)
Theorem pass_only_appends_pages (L : Layout) (w : World) (o : Outcome unit)
        (w' : World) :
  checkPageOverflow L w = (o, w') ->
  exists k : nat,
    map isDocumentContainer (pages w')
    = map isDocumentContainer (pages w) ++ repeat true k
    /\ pageCount w + Z.of_nat k <= getPageCount w'
    /\ (o = Returned tt -> getPageCount w' = pageCount w + Z.of_nat k).
Proof.
  intros Hrun.
  assert (H : grown (errorOf o) w w').
  { revert w o w' Hrun. apply sat_checkPageOverflow.
    - intros w. exists 0%nat. apply grownBy_refl.
    - apply grown_trans.
    - intros e w w' b H. exact H.
    - intros container index.
      apply (@sat_weaken _ (grownAfter container));
        [| apply sat_grownAfter_checkContainer].
      intros e w w' [k [_ [G _]]]. now exists k. }
  destruct H as [k [A [B C]]]. exists k. unfold getPageCount.
  repeat split; trivial. intros ->. now apply C.
Qed.

Lemma flags_Forall (ps ps' : list Container) :
  map isDocumentContainer ps' = map isDocumentContainer ps ->
  Forall (fun c => isDocumentContainer c = true) ps ->
  Forall (fun c => isDocumentContainer c = true) ps'.
Proof.
  intros Hmap H.
  apply (proj1 (Forall_map isDocumentContainer (fun b => b = true) ps')).
  rewrite Hmap. now apply Forall_map.
Qed.

Lemma loop_one_page (L : Layout) :
  forall (m p : nat) (w : World) (o : Outcome unit) (w' : World),
    Forall (fun c => isDocumentContainer c = true) (pages w) ->
    (p + m = List.length (pages w))%nat ->
    forEachFrom p (seq p m) (checkContainer L) w = (o, w') ->
    grownUpTo 1 (errorOf o) w w'.
Proof.
  induction m as [|m IH]; intros p w o w' Hdc Hlen Hrun.
  - inversion Hrun; subst. exists 0%nat. split; [lia | apply grownBy_refl].
  - cbn [seq forEachFrom] in Hrun. unfold bind in Hrun.
    destruct (checkContainer L p p w) as [[[] | e] w1] eqn:Hstep;
      destruct (@sat_grownAfter_checkContainer L p p _ _ _ Hstep)
        as [k [Hk [G Hnext]]].
    + destruct m as [|m].
      * inversion Hrun; subst. exists k. now split.
      * assert (k = 0%nat).
        { apply Hnext.
          destruct (nth_error (pages w) (S p)) as [c|] eqn:Hnth.
          - exists c. split; [exact Hnth |].
            rewrite Forall_forall in Hdc. apply Hdc.
            eapply nth_error_In. exact Hnth.
          - apply nth_error_None in Hnth. lia. }
        subst k. pose proof G as [Hflags _].
        cbn [repeat] in Hflags. rewrite app_nil_r in Hflags.
        assert (Hlen1 : List.length (pages w1) = List.length (pages w)).
        { rewrite <- (length_map isDocumentContainer (pages w1)), Hflags.
          apply length_map. }
        destruct (IH (S p) w1 o w') as [k2 [Hk2 G2]].
        -- exact (@flags_Forall _ _ Hflags Hdc).
        -- lia.
        -- exact Hrun.
        -- exists k2. split; [exact Hk2 |]. exact (grownBy_trans G G2).
    + inversion Hrun; subst. exists k. now split.
Qed.

(** X8. In a wrapper whose children are all pages, one pass adds at most
    one page, however many pages overflow: every page but the last has a
    page after it to push its nodes to, and the page that the last one
    adds is not in the list that the pass runs over. *)
Theorem pass_adds_at_most_one_page (L : Layout) (w : World)
        (o : Outcome unit) (w' : World) :
  Forall (fun c => isDocumentContainer c = true) (pages w) ->
  checkPageOverflow L w = (o, w') ->
  (List.length (pages w') <= S (List.length (pages w)))%nat
  /\ Forall (fun c => isDocumentContainer c = true) (pages w').
Proof.
  intros Hdc Hrun.
  assert (H : grownUpTo 1 (errorOf o) w w').
  { unfold checkPageOverflow, tryFinally in Hrun.
    destruct (isProcessingOverflow w).
    - inversion Hrun; subst. exists 0%nat. split; [lia | apply grownBy_refl].
    - destruct (forEach _ _ _) as [o1 w1] eqn:Hloop. inversion Hrun; subst.
      unfold forEach in Hloop.
      rewrite (@getAllDocumentContainers_all (setProcessing true w) Hdc)
        in Hloop.
      exact (@loop_one_page L _ 0%nat (setProcessing true w) _ _ Hdc
               eq_refl Hloop). }
  destruct H as [k [Hk [Hflags _]]]. split.
  - rewrite <- (length_map isDocumentContainer (pages w')), Hflags.
    rewrite length_app, length_map, repeat_length. lia.
  - apply (proj1 (Forall_map isDocumentContainer (fun b => b = true) _)).
    rewrite Hflags. apply Forall_app. split.
    + now apply Forall_map.
    + clear. induction k; constructor; trivial.
Qed.

Lemma divsLeft_trans (e : option JsError) (w w1 w2 : World) :
  divsLeft None w w1 -> divsLeft e w1 w2 -> divsLeft e w w2.
Proof.
  intros [H1 | [H1 _]]; [| discriminate].
  intros [H2 | [He [div H2]]]; [left | right]; rewrite <- H1; trivial.
  split; [exact He | now exists div].
Qed.

(** X9. Whatever a pass of [checkPageOverflow] does, it leaves at most
    one measurement div on the body, and only when it throws the error of
    a failed read of the div's height; a pass that returns, or that
    throws any other error, leaves the body as it found it. *)
Theorem pass_leaves_at_most_one_div (L : Layout) (w : World)
        (o : Outcome unit) (w' : World) :
  checkPageOverflow L w = (o, w') ->
  scratch w' = scratch w
  \/ (o = Thrown DOMException /\ exists div, scratch w' = scratch w ++ [div]).
Proof.
  intros Hrun.
  assert (H : divsLeft (errorOf o) w w').
  { revert w o w' Hrun. apply sat_checkPageOverflow.
    - now left.
    - apply divsLeft_trans.
    - intros e w w' b H. exact H.
    - intros container index. apply sat_checkContainer; [now left |].
      intros content. apply sat_handlePageOverflow.
      + intros e w w' H. exact H.
      + now left.
      + intros w div. right. split; [reflexivity | now exists div].
      + intros r w o w' Hrun.
        pose proof (@splitContentAtIndex_frame L container content
                      (childNodes content) r w) as [Hs _].
        rewrite Hrun in Hs. now left. }
  destruct H as [H | [He H]]; [now left | right]. split; [| exact H].
  destruct o as [[] | e]; [discriminate | now inversion He].
Qed.










Lemma ascending_lower (hi : nat) (l : list nat) :
  forall lo lo', (lo <= lo')%nat -> ascending lo' hi l -> ascending lo hi l.
Proof.
  destruct l as [|x rest]; intros lo lo' Hle H; [exact I |].
  destruct H as [Hx Hrest]. split; [lia | exact Hrest].
Qed.

Lemma checkContainer_calls (L : Layout) (container index : nat) (w : World) :
  overflowCalls (snd (checkContainer L container index w)) = overflowCalls w
  \/ overflowCalls (snd (checkContainer L container index w))
     = overflowCalls w ++ [index].
Proof.
  unfold checkContainer.
  destruct (querySelectorEditable w container) as [content|]; [| now left].
  destruct (_ >? _); [| now left].
  right. apply handlePageOverflow_recorded.
Qed.

Lemma loop_calls (L : Layout) (items : list nat) :
  forall (index : nat) (w : World) (o : Outcome unit) (w' : World),
    forEachFrom index items (checkContainer L) w = (o, w') ->
    exists l, overflowCalls w' = overflowCalls w ++ l
              /\ ascending index (index + List.length items) l.
Proof.
  induction items as [|item rest IH]; intros index w o w' Hrun.
  - inversion Hrun; subst. exists []. now rewrite app_nil_r.
  - cbn [forEachFrom] in Hrun. unfold bind in Hrun.
    pose proof (checkContainer_calls L item index w) as Hstep.
    destruct (checkContainer L item index w) as [[[] | e] w1];
      cbn [snd] in Hstep.
    + destruct (IH _ _ _ _ Hrun) as [l [Hl Hasc]].
      cbn [List.length]. rewrite Nat.add_succ_r. cbn [Nat.add] in Hasc.
      destruct Hstep as [H1 | H1]; rewrite H1 in Hl.
      * exists l. split; [exact Hl |].
        apply (@ascending_lower _ l index (S index)); [lia | exact Hasc].
      * exists (index :: l). rewrite <- app_assoc in Hl.
        split; [exact Hl |]. split; [lia | exact Hasc].
    + inversion Hrun; subst. destruct Hstep as [H1 | H1].
      * exists []. now rewrite app_nil_r.
      * exists [index]. split; [exact H1 |]. cbn. split; [lia | exact I].
Qed.

(** X11. In one pass, [handlePageOverflow] is called with strictly
    increasing page indexes, all below the number of pages that the
    document had when the pass began: no page is handled twice by a
    pass, and none that the pass itself added. *)
Theorem pass_handles_pages_in_order (L : Layout) (w : World)
        (o : Outcome unit) (w' : World) :
  checkPageOverflow L w = (o, w') ->
  exists l, overflowCalls w' = overflowCalls w ++ l
            /\ ascending 0 (List.length (getAllDocumentContainers w)) l.
Proof.
  intros Hrun. unfold checkPageOverflow, tryFinally in Hrun.
  destruct (isProcessingOverflow w).
  - inversion Hrun; subst. exists []. now rewrite app_nil_r.
  - destruct (forEach _ _ _) as [o1 w1] eqn:Hloop. inversion Hrun; subst.
    unfold forEach in Hloop.
    exact (@loop_calls L _ 0%nat _ _ _ Hloop).
Qed.

End Guarantees.

(* ------------------------------------------------------------------ *)
(** ** Adding a page, and moving nodes to a page without content area *)

Section NewPages.
Import JsString PageManager Spec Hoare.

Variable L : Layout.

Lemma lastPageOf_snoc (w : World) (pre : list Container) (c : Container) :
  pages w = pre ++ [c] ->
  lastPageOf w = if isDocumentContainer c then Some (List.length pre) else None.
Proof.
  intros Hpages. unfold lastPageOf. rewrite Hpages, rev_app_distr.
  cbn [rev app]. rewrite length_app. cbn [List.length].
  now replace (List.length pre + 1 - 1)%nat with (List.length pre) by lia.
Qed.

Lemma getAllDocumentContainers_snoc (ps : list Container) (c : Container)
      (w w' : World) :
  pages w = ps -> pages w' = ps ++ [c] -> isDocumentContainer c = true ->
  getAllDocumentContainers w'
  = getAllDocumentContainers w ++ [List.length ps].
Proof.
  intros Hw Hw' Hdc. unfold getAllDocumentContainers.
  rewrite Hw, Hw', length_app. cbn [List.length].
  rewrite seq_app, filter_app. cbn [seq filter Nat.add].
  rewrite nth_error_middle, Hdc. f_equal.
  apply filter_ext_in. intros p Hp. apply in_seq in Hp.
  rewrite nth_error_app1 by lia. reflexivity.
Qed.

(** X12. When the last child of the wrapper is a page, [addNewPage]
    returns the page made from the template, which it has put after all
    others: the pages of before keep their positions, the new page is the
    last one, so that [getAllDocumentContainers] lists it last and a
    further call finds it to insert after.  [pageCount] is one more, and
    the focus moves to the new page only when asked. *)
Theorem addNewPage_appends (focusNewPage : bool) (w : World)
        (pre : list Container) (c : Container) :
  pages w = pre ++ [c] ->
  isDocumentContainer c = true ->
  exists w',
    addNewPage L focusNewPage w = (Returned (List.length (pages w)), w')
    /\ pages w' = pages w ++ [newPageElement L (nextNodeId w)]
    /\ getAllDocumentContainers w'
       = getAllDocumentContainers w ++ [List.length (pages w)]
    /\ lastPageOf w' = Some (List.length (pages w))
    /\ getPageCount w' = getPageCount w + 1
    /\ focusedPage w'
       = (if focusNewPage then Some (List.length (pages w))
          else focusedPage w).
Proof.
  intros Hpages Hdc.
  assert (Hlast : lastPageOf w = Some (List.length pre))
    by (rewrite (lastPageOf_snoc w pre c Hpages), Hdc; reflexivity).
  assert (Hlen : List.length (pages w) = S (List.length pre))
    by (rewrite Hpages, length_app; cbn; lia).
  unfold addNewPage, bind, modify, createNewPageElement.
  cbn [bumpNodeId setPageCount nextNodeId].
  change (lastPageOf (bumpNodeId (setPageCount (pageCount w + 1) w)))
    with (lastPageOf w).
  rewrite Hlast, Hlen.
  destruct focusNewPage; (eexists; split; [reflexivity |]);
    (split; [reflexivity |]); (split; [| split; [| split; reflexivity]]).
  - rewrite <- Hlen.
    apply (@getAllDocumentContainers_snoc (pages w)
             (newPageElement L (nextNodeId w)) w); reflexivity.
  - erewrite (@lastPageOf_snoc _ (pages w) (newPageElement L (nextNodeId w)))
      by reflexivity.
    cbn [isDocumentContainer newPageElement]. now rewrite Hlen.
  - rewrite <- Hlen.
    apply (@getAllDocumentContainers_snoc (pages w)
             (newPageElement L (nextNodeId w)) w); reflexivity.
  - erewrite (@lastPageOf_snoc _ (pages w) (newPageElement L (nextNodeId w)))
      by reflexivity.
    cbn [isDocumentContainer newPageElement]. now rewrite Hlen.
Qed.

(** X13. When the wrapper has no page as its last child, [addNewPage]
    throws a [TypeError], reading [insertAdjacentElement] of [null], and
    inserts nothing; but [pageCount] was incremented before, so that
    [getPageCount] is one more for an unchanged list of pages.  The
    focus is left alone. *)
Theorem addNewPage_without_last_page (focusNewPage : bool) (w : World) :
  lastPageOf w = None ->
  exists w',
    addNewPage L focusNewPage w = (Thrown TypeError, w')
    /\ pages w' = pages w
    /\ getAllDocumentContainers w' = getAllDocumentContainers w
    /\ getPageCount w' = getPageCount w + 1
    /\ focusedPage w' = focusedPage w.
Proof.
  intros Hlast. unfold addNewPage, bind, modify, createNewPageElement.
  cbn [bumpNodeId setPageCount nextNodeId].
  change (lastPageOf (bumpNodeId (setPageCount (pageCount w + 1) w)))
    with (lastPageOf w).
  rewrite Hlast. eexists. split; [reflexivity |]. now repeat split.
Qed.

Lemma NoDup_inner (A : Type) (l1 l2 l3 l4 : list A) (x : A) :
  NoDup (l1 ++ (l2 ++ l3) ++ l4) -> In x l3 -> ~ In x (l1 ++ l2 ++ l4).
Proof.
  intros H Hx Hin.
  apply NoDup_app_inv in H. destruct H as [_ [H Hdis1]].
  apply NoDup_app_inv in H. destruct H as [H [_ Hdis23]].
  apply NoDup_app_inv in H. destruct H as [_ [_ Hdis2]].
  apply in_app_or in Hin. destruct Hin as [Hin | Hin].
  - apply (Hdis1 x Hin). apply in_or_app. left. apply in_or_app. now right.
  - apply in_app_or in Hin. destruct Hin as [Hin | Hin].
    + exact (Hdis2 x Hin Hx).
    + apply (Hdis23 x); [apply in_or_app; now right | exact Hin].
Qed.

(** [moveContentToNextPage] with [null] for the receiving content area:
    the nodes are taken off their page before the call throws. *)
Lemma moveContentToNextPage_null (w : World) (pre : list Container)
        (c : Container) (post : list Container) (content : Content)
        (k : nat) :
  pages w = pre ++ c :: post ->
  editable c = Some content ->
  distinctNodes (allChildNodes w) ->
  exists w',
    moveContentToNextPage (childNodes content) (Z.of_nat k) None w
    = (Thrown TypeError, w')
    /\ pages w'
       = pre ++ mapChildren (fun _ => firstn k (childNodes content)) c :: post
    /\ forall node, In node (skipn k (childNodes content)) ->
                    ~ In (nid node) (map nid (allChildNodes w')).
Proof.
  intros Hpages Hc Hnd.
  unfold moveContentToNextPage, fillFragment. rewrite slice_of_nat.
  rewrite fillFragment_effect.
  - eexists. split; [reflexivity |].
    assert (Hp : pages (withPages
                          (map (mapChildren
                                  (withoutAll (skipn k (childNodes content)))))
                          w)
                 = pre ++ mapChildren (fun _ => firstn k (childNodes content)) c
                       :: post).
    { cbn [pages withPages]. rewrite Hpages.
      apply detach_tail; [assumption |].
      unfold allChildNodes in Hnd. now rewrite Hpages in Hnd. }
    split; [exact Hp |].
    intros node Hnode Hin.
    rewrite (allChildNodes_middle _ _ _ _ Hp) in Hin.
    assert (Hsame : nodesOf (mapChildren
                               (fun _ => firstn k (childNodes content)) c)
                    = firstn k (childNodes content))
      by (unfold nodesOf, mapChildren; cbn; now rewrite Hc).
    rewrite Hsame in Hin.
    rewrite (allChildNodes_middle _ _ _ _ Hpages),
      (nodesOf_editable _ Hc) in Hnd.
    rewrite <- (firstn_skipn k (childNodes content)) in Hnd at 1.
    unfold distinctNodes in Hnd.
    rewrite map_app, (map_app nid (firstn k (childNodes content) ++ _)),
      (map_app nid (firstn k (childNodes content))) in Hnd.
    rewrite map_app, (map_app nid (firstn k (childNodes content))) in Hin.
    exact (@NoDup_inner _ _ _ _ _ _ Hnd (in_map nid _ _ Hnode) Hin).
  - apply distinct_skipn.
    rewrite (allChildNodes_middle _ _ _ _ Hpages),
      (nodesOf_editable _ Hc) in Hnd.
    apply distinct_parts in Hnd. tauto.
  - intros m Hm. apply in_map.
    rewrite (allChildNodes_middle _ _ _ _ Hpages).
    apply in_or_app. right. apply in_or_app. left.
    rewrite (nodesOf_editable _ Hc). now apply In_skipn_In in Hm.
  - intros m _ [].
Qed.

End NewPages.

(* ------------------------------------------------------------------ *)
(** ** What a split leaves on the page *)

Section SplitAt.
Import JsString PageManager Spec Measure Splitter Hoare.

Variable L : Layout.

Lemma handleCursorMovement_run (nodes : list Node) (splitIndex : Z)
      (q nextContainer : nat) (w : World) :
  handleCursorMovement nodes splitIndex (Some q) nextContainer w
  = (Returned tt,
     if Z.of_nat (List.length nodes) >? splitIndex then setFocus q w else w).
Proof.
  unfold handleCursorMovement. now destruct (_ >? _).
Qed.

Lemma distinct_with_template (w : World) (ps : list Container) :
  wellFormed w ->
  List.concat (map nodesOf ps) = allChildNodes w ->
  distinctNodes
    (List.concat (map nodesOf (ps ++ [newPageElement L (nextNodeId w)]))).
Proof.
  intros [_ [Hnd Hfresh]] Hps. unfold distinctNodes.
  rewrite map_app, concat_app, map_app, Hps.
  cbn [map List.concat nodesOf newPageElement editable childNodes
           templateNode nid app].
  apply NoDup_app; [exact Hnd | repeat constructor; simpl; tauto |].
  intros a Ha [<- | []].
  apply in_map_iff in Ha. destruct Ha as [x [Hid Hx]].
  rewrite Forall_forall in Hfresh. specialize (Hfresh x Hx). lia.
Qed.

(** The split of the last page, at an adjusted index [k]. *)
Lemma splitContentAtIndex_last (w : World) (pre : list Container)
      (c : Container) (content : Content) (r : Z) (k : nat) :
  wellFormed w ->
  pages w = pre ++ [c] ->
  editable c = Some content ->
  adjustSplitForKeepTogether (childNodes content) (childNodes content) r
  = Returned (Z.of_nat k) ->
  exists w',
    splitContentAtIndex L (List.length pre) content (childNodes content) r w
    = (Returned tt, w')
    /\ pages w'
       = pre ++ [mapChildren (fun _ => firstn k (childNodes content)) c;
                 mapChildren (fun old => skipn k (childNodes content) ++ old)
                             (newPageElement L (nextNodeId w))]
    /\ pendingChecks w' = S (pendingChecks w)
    /\ pageCount w' = pageCount w + 1
    /\ nextNodeId w' = S (nextNodeId w)
    /\ scratch w' = scratch w
    /\ overflowCalls w' = overflowCalls w
    /\ isProcessingOverflow w' = isProcessingOverflow w
    /\ focusedPage w'
       = (if Z.of_nat (List.length (childNodes content)) >? Z.of_nat k
          then Some (S (List.length pre)) else focusedPage w).
Proof.
  intros Hwf Hpages Hc Hadj. pose proof Hwf as [Hdc [Hnd Hfresh]].
  unfold splitContentAtIndex. unfold bind at 1. unfold liftOutcome.
  rewrite Hadj. unfold bind at 1.
  replace (nth_error (pages w) (S (List.length pre))) with (@None Container)
    by (symmetry; apply nth_error_None; rewrite Hpages, length_app;
        simpl; lia).
  assert (Hcdc : isDocumentContainer c = true).
  { rewrite Hpages in Hdc. now apply Forall_elt in Hdc. }
  rewrite (@addNewPage_last L w pre c Hpages Hcdc).
  set (w2 := withPages (fun ps => ps ++ [newPageElement L (nextNodeId w)])
               (bumpNodeId (setPageCount (pageCount w + 1) w))).
  assert (Hpages2 : pages w2
                    = pre ++ c :: newPageElement L (nextNodeId w) :: []).
  { unfold w2. cbn [pages withPages bumpNodeId setPageCount].
    rewrite Hpages, <- app_assoc. reflexivity. }
  unfold bind at 1. unfold ret at 1. unfold querySelectorEditable.
  rewrite Hpages2, nth_error_next. cbn [editable newPageElement].
  unfold bind at 1.
  rewrite (@moveContentToNextPage_effect w2 pre c
             (newPageElement L (nextNodeId w)) [] content _ k
             Hpages2 Hc eq_refl).
  - unfold bind at 1. rewrite handleCursorMovement_run. unfold modify.
    eexists. split; [reflexivity |].
    destruct (_ >? _); cbn; repeat split.
  - unfold allChildNodes. rewrite Hpages2.
    replace (pre ++ [c; newPageElement L (nextNodeId w)])
      with ((pre ++ [c]) ++ [newPageElement L (nextNodeId w)])
      by (rewrite <- app_assoc; reflexivity).
    apply distinct_with_template; [exact Hwf |].
    unfold allChildNodes. now rewrite Hpages.
Qed.

(** The split of a page that has a page with a content area after it. *)
Lemma splitContentAtIndex_inner (w : World) (pre : list Container)
      (c cq : Container) (post : list Container) (content cc : Content)
      (r : Z) (k : nat) :
  wellFormed w ->
  pages w = pre ++ c :: cq :: post ->
  editable c = Some content ->
  editable cq = Some cc ->
  adjustSplitForKeepTogether (childNodes content) (childNodes content) r
  = Returned (Z.of_nat k) ->
  exists w',
    splitContentAtIndex L (List.length pre) content (childNodes content) r w
    = (Returned tt, w')
    /\ pages w'
       = pre ++ mapChildren (fun _ => firstn k (childNodes content)) c
             :: mapChildren
                  (fun old =>
                     skipn k (childNodes content)
                     ++ (if includes (innerHTML old) placeholderText
                         then [] else old)) cq
             :: post
    /\ pendingChecks w' = S (pendingChecks w)
    /\ pageCount w' = pageCount w
    /\ nextNodeId w' = nextNodeId w
    /\ focusedPage w'
       = (if Z.of_nat (List.length (childNodes content)) >? Z.of_nat k
          then Some (S (List.length pre)) else focusedPage w).
Proof.
  intros [Hdc [Hnd Hfresh]] Hpages Hc Hcq Hadj.
  unfold splitContentAtIndex. unfold bind at 1. unfold liftOutcome.
  rewrite Hadj. unfold bind at 1.
  rewrite Hpages, nth_error_next.
  assert (Hqdc : isDocumentContainer cq = true).
  { rewrite Hpages in Hdc. apply Forall_app in Hdc.
    destruct Hdc as [_ Hdc]. inversion Hdc as [|? ? _ Hdc']; subst.
    now inversion Hdc'. }
  rewrite Hqdc. unfold ret at 1. unfold bind at 1. unfold ret at 1.
  unfold querySelectorEditable. rewrite Hpages, nth_error_next, Hcq.
  unfold bind at 1.
  rewrite (@moveContentToNextPage_effect w pre c cq post content cc k
             Hpages Hc Hcq Hnd).
  unfold bind at 1. rewrite handleCursorMovement_run. unfold modify.
  eexists. split; [reflexivity |].
  destruct (_ >? _); cbn; repeat split.
Qed.

(** The split of a page that is followed by a page without content
    area: the nodes are taken off, and the move throws. *)
Lemma splitContentAtIndex_blocked (w : World) (pre : list Container)
      (c cq : Container) (post : list Container) (content : Content)
      (r : Z) (k : nat) :
  wellFormed w ->
  pages w = pre ++ c :: cq :: post ->
  editable c = Some content ->
  editable cq = None ->
  adjustSplitForKeepTogether (childNodes content) (childNodes content) r
  = Returned (Z.of_nat k) ->
  exists w',
    splitContentAtIndex L (List.length pre) content (childNodes content) r w
    = (Thrown TypeError, w')
    /\ pages w'
       = pre ++ mapChildren (fun _ => firstn k (childNodes content)) c
             :: cq :: post
    /\ (forall node, In node (skipn k (childNodes content)) ->
                     ~ In (nid node) (map nid (allChildNodes w')))
    /\ pendingChecks w' = pendingChecks w.
Proof.
  intros [Hdc [Hnd Hfresh]] Hpages Hc Hcq Hadj.
  unfold splitContentAtIndex. unfold bind at 1. unfold liftOutcome.
  rewrite Hadj. unfold bind at 1.
  rewrite Hpages, nth_error_next.
  assert (Hqdc : isDocumentContainer cq = true).
  { rewrite Hpages in Hdc. apply Forall_app in Hdc.
    destruct Hdc as [_ Hdc]. inversion Hdc as [|? ? _ Hdc']; subst.
    now inversion Hdc'. }
  rewrite Hqdc. unfold ret at 1. unfold bind at 1. unfold ret at 1.
  unfold querySelectorEditable. rewrite Hpages, nth_error_next, Hcq.
  unfold bind at 1.
  destruct (@moveContentToNextPage_null w pre c (cq :: post) content k
              Hpages Hc Hnd) as [w1 [Hmove [Hp Hgone]]].
  rewrite Hmove. exists w1. split; [reflexivity |].
  split; [exact Hp |]. split; [exact Hgone |].
  pose proof (@sat_shape_move (childNodes content) (Z.of_nat k) None
                _ _ _ Hmove) as [_ [_ Hchecks]].
  exact Hchecks.
Qed.


Lemma wellFormed_recorded (pageIndex : nat) (w : World) :
  wellFormed w -> wellFormed (recordCall pageIndex w).
Proof. intros H. exact H. Qed.

Lemma adjust_returns (nodes : list Node) (r : Z) :
  0 <= r < Z.of_nat (List.length nodes) ->
  exists k, adjustSplitForKeepTogether nodes nodes r = Returned (Z.of_nat k)
            /\ Z.of_nat k <= r.
Proof.
  intros Hr. unfold adjustSplitForKeepTogether.
  destruct (@scanBackward_returns nodes nodes r (Z.to_nat r)) as [v Hv];
    [lia |].
  pose proof (@scanBackward_bounds nodes nodes r (Z.to_nat r) v) as Hb.
  exists (Z.to_nat v). rewrite Hv.
  assert (0 <= v <= r) by (apply Hb; [lia | exact Hv]).
  split; [f_equal |]; lia.
Qed.

(** X15. What [handlePageOverflow] leaves on a page fits it, as far as
    it was measured: when [h j] is the height read with the first [j+1]
    nodes in the measurement div, the page keeps its first [k] nodes for
    some [k] such that every [h j] with [j < k] is at most the available
    height, whatever becomes of the rest; and nodes are taken off only
    when some [h r] with [k <= r] exceeds the available height. *)
Theorem handlePageOverflow_keeps_what_fits (w : World)
        (pre : list Container) (c : Container) (post : list Container)
        (content : Content) (h : nat -> Z) (availableHeight : Z)
        (pageIndex : nat) :
  wellFormed w ->
  pages w = pre ++ c :: post ->
  editable c = Some content ->
  (forall j, (j < List.length (childNodes content))%nat ->
     tempDivScrollHeight L
       (mkTempDiv (cssText content) (clientWidth content)
                  (firstn (S j) (childNodes content)))
     = Some (h j)) ->
  exists k,
    (k <= List.length (childNodes content))%nat
    /\ nth_error
         (pages (snd (handlePageOverflow L (List.length pre) content
                        availableHeight pageIndex w)))
         (List.length pre)
       = Some (mapChildren (fun _ => firstn k (childNodes content)) c)
    /\ (forall j, (j < k)%nat -> h j <= availableHeight)
    /\ ((k < List.length (childNodes content))%nat ->
        exists r, (k <= r < List.length (childNodes content))%nat
                  /\ availableHeight < h r).
Proof.
  intros Hwf Hpages Hc Hh.
  rewrite handlePageOverflow_unfold.
  destruct (@measureLoop_spec L availableHeight (childNodes content) 0 0
              (mkTempDiv (cssText content) (clientWidth content) []) h Hh)
    as [r [Hr Hcases]].
  destruct (measureLoop L availableHeight (childNodes content) 0 0 _)
    as [o div']. cbn [fst] in Hr. subst o.
  destruct Hcases as [[-> Hall] | [i [-> [Hi [Hover Hfit]]]]].
  - exists (List.length (childNodes content)).
    split; [lia |]. cbn [Z.geb Z.compare snd pages recordCall].
    split; [| split; [exact Hall | lia]].
    rewrite Hpages, nth_error_middle. f_equal. symmetry.
    apply mapChildren_same.
    rewrite (nodesOf_editable _ Hc). apply firstn_all.
  - replace (0 + Z.of_nat i >=? 0) with true by (symmetry; lia).
    destruct (@adjust_returns (childNodes content) (0 + Z.of_nat i))
      as [k [Hadj Hk]]; [lia |].
    exists k. split; [lia |].
    assert (Hrest : (forall j, (j < k)%nat -> h j <= availableHeight)
                    /\ ((k < List.length (childNodes content))%nat ->
                        exists r,
                          (k <= r < List.length (childNodes content))%nat
                          /\ availableHeight < h r)).
    { split.
      - intros j Hj. apply Hfit. lia.
      - intros _. exists i. split; [lia | exact Hover]. }
    split; [| exact Hrest].
    pose proof (@wellFormed_recorded pageIndex w Hwf) as Hwf'.
    destruct post as [|cq post'].
    + destruct (@splitContentAtIndex_last (recordCall pageIndex w) pre c
                  content _ k Hwf' Hpages Hc Hadj) as [w' [Hrun [Hp _]]].
      rewrite Hrun. cbn [snd]. rewrite Hp. apply nth_error_middle.
    + destruct (editable cq) as [cc|] eqn:Hcq.
      * destruct (@splitContentAtIndex_inner (recordCall pageIndex w) pre c
                    cq post' content cc _ k Hwf' Hpages Hc Hcq Hadj)
          as [w' [Hrun [Hp _]]].
        rewrite Hrun. cbn [snd]. rewrite Hp. apply nth_error_middle.
      * destruct (@splitContentAtIndex_blocked (recordCall pageIndex w) pre c
                    cq post' content _ k Hwf' Hpages Hc Hcq Hadj)
          as [w' [Hrun [Hp _]]].
        rewrite Hrun. cbn [snd]. rewrite Hp. apply nth_error_middle.
Qed.


(** X14. A page without content area after an overflowing page makes
    the split throw a [TypeError] and lose nodes: the overflowing page
    keeps its first [k] nodes, for some [k] at most the split index, the
    nodes from [k] on, of which there is at least one, are in no page any
    more, and no follow-up check is scheduled. *)
Theorem split_before_page_without_content (w : World)
        (pre : list Container) (c cq : Container) (post : list Container)
        (content : Content) (r : Z) :
  wellFormed w ->
  pages w = pre ++ c :: cq :: post ->
  editable c = Some content ->
  editable cq = None ->
  0 <= r < Z.of_nat (List.length (childNodes content)) ->
  exists k w',
    Z.of_nat k <= r
    /\ splitContentAtIndex L (List.length pre) content (childNodes content)
                           r w
       = (Thrown TypeError, w')
    /\ pages w'
       = pre ++ mapChildren (fun _ => firstn k (childNodes content)) c
             :: cq :: post
    /\ skipn k (childNodes content) <> []
    /\ (forall node, In node (skipn k (childNodes content)) ->
                     ~ In (nid node) (map nid (allChildNodes w')))
    /\ pendingChecks w' = pendingChecks w.
Proof.
  intros Hwf Hpages Hc Hcq Hr.
  destruct (@adjust_returns (childNodes content) r Hr) as [k [Hadj Hk]].
  destruct (@splitContentAtIndex_blocked w pre c cq post content r k
              Hwf Hpages Hc Hcq Hadj) as [w' [Hrun [Hp [Hgone Hchecks]]]].
  exists k, w'. repeat split; trivial.
  intros Hnil. apply (f_equal (@List.length Node)) in Hnil.
  rewrite length_skipn in Hnil. cbn [List.length] in Hnil. lia.
Qed.

(** X16. A split that returns always takes the focus to the receiving
    page and schedules one follow-up check: the test of
    [handleCursorMovement] compares the length of all nodes of the page
    with the adjusted index, which is always smaller. *)
Theorem split_moves_focus (w w' : World) (pre : list Container)
        (c : Container) (post : list Container) (content : Content)
        (r : Z) :
  wellFormed w ->
  pages w = pre ++ c :: post ->
  editable c = Some content ->
  0 <= r < Z.of_nat (List.length (childNodes content)) ->
  splitContentAtIndex L (List.length pre) content (childNodes content) r w
  = (Returned tt, w') ->
  focusedPage w' = Some (S (List.length pre))
  /\ nth_error (pages w') (S (List.length pre)) <> None
  /\ pendingChecks w' = S (pendingChecks w).
Proof.
  intros Hwf Hpages Hc Hr Hrun.
  destruct (@adjust_returns (childNodes content) r Hr) as [k [Hadj Hk]].
  assert (Hgt : (Z.of_nat (List.length (childNodes content)) >? Z.of_nat k)
                = true) by (apply Z.gtb_lt; lia).
  destruct post as [|cq post'].
  - destruct (@splitContentAtIndex_last w pre c content r k Hwf Hpages Hc
                Hadj)
      as [w1 [Hrun1 [Hp [Hpc [_ [_ [_ [_ [_ Hfocus]]]]]]]]].
    rewrite Hrun1 in Hrun. inversion Hrun; subst w1.
    rewrite Hgt in Hfocus. repeat split; trivial.
    rewrite Hp.
    change (pre ++ [?a; ?b]) with (pre ++ a :: b :: []).
    now rewrite nth_error_next.
  - destruct (editable cq) as [cc|] eqn:Hcq.
    + destruct (@splitContentAtIndex_inner w pre c cq post' content cc r k
                  Hwf Hpages Hc Hcq Hadj)
        as [w1 [Hrun1 [Hp [Hpc [_ [_ Hfocus]]]]]].
      rewrite Hrun1 in Hrun. inversion Hrun; subst w1.
      rewrite Hgt in Hfocus. repeat split; trivial.
      now rewrite Hp, nth_error_next.
    + destruct (@splitContentAtIndex_blocked w pre c cq post' content r k
                  Hwf Hpages Hc Hcq Hadj) as [w1 [Hrun1 _]].
      rewrite Hrun1 in Hrun. discriminate.
Qed.


(** X18. [adjustSplitForKeepTogether] reads [allNodes[splitIndex - 1]]
    first: with a split index beyond the length of the array it throws a
    [TypeError], reading [nodeType] of [undefined]; with a split index
    of zero or less the loop does not run and the index comes back as it
    is. *)
Theorem adjustSplit_out_of_range (dom allNodes : list Node) (splitIndex : Z) :
  (Z.of_nat (List.length allNodes) < splitIndex ->
   adjustSplitForKeepTogether dom allNodes splitIndex = Thrown TypeError)
  /\ (splitIndex <= 0 ->
      adjustSplitForKeepTogether dom allNodes splitIndex
      = Returned splitIndex).
Proof.
  unfold adjustSplitForKeepTogether. split; intros H.
  - destruct (Z.to_nat splitIndex) as [|i] eqn:Hi; [lia |].
    cbn [scanBackward].
    replace (nth_error allNodes i) with (@None Node); [reflexivity |].
    symmetry. apply nth_error_None. lia.
  - replace (Z.to_nat splitIndex) with 0%nat by lia. reflexivity.
Qed.

End SplitAt.

(* ------------------------------------------------------------------ *)
(** ** A node taller than a page is pushed on for ever *)

Section NeverSettles.
Import JsString PageManager Spec Measure Splitter Hoare Cascade.

Variable L : Layout.

Lemma forEachFrom_app (A : Type) (body : A -> nat -> M unit)
      (l1 l2 : list A) :
  forall index w,
    forEachFrom index (l1 ++ l2) body w
    = bind (forEachFrom index l1 body)
           (fun _ => forEachFrom (index + List.length l1) l2 body) w.
Proof.
  induction l1 as [|x l1 IH]; intros index w; cbn [app forEachFrom List.length].
  - unfold bind, ret. now rewrite Nat.add_0_r.
  - unfold bind. destruct (body x index w) as [[[] | e] w1];
      [| reflexivity].
    rewrite IH. unfold bind. now rewrite Nat.add_succ_r.
Qed.

Lemma checkContainer_empty (w : World) (pre post : list Container)
      (p index : nat) :
  emptyFits L ->
  pages w = pre ++ post ->
  Forall emptyPage pre ->
  (p < List.length pre)%nat ->
  checkContainer L p index w = (Returned tt, w).
Proof.
  intros Hfits Hpages Hempty Hp. unfold checkContainer, querySelectorEditable.
  rewrite Hpages, nth_error_app1 by exact Hp.
  destruct (nth_error pre p) as [cp|] eqn:Hnth; [| reflexivity].
  destruct (editable cp) as [ct|] eqn:Hct; [| reflexivity].
  rewrite Forall_forall in Hempty.
  destruct (Hempty cp (nth_error_In _ _ Hnth) ct Hct) as [Hnil Hpos].
  pose proof (Hfits ct Hnil Hpos) as Hno. unfold isOverflowing in Hno.
  cbn zeta in Hno. now rewrite Hno.
Qed.

Lemma handlePageOverflow_tooTall (H : Z) (big : Node) (w : World)
      (pre : list Container) (c : Container) (content : Content)
      (rest : list Node) (pageIndex : nat) :
  tooTall L H big ->
  wellFormed w ->
  pages w = pre ++ [c] ->
  editable c = Some content ->
  childNodes content = big :: rest ->
  0 <= clientHeight content <= H ->
  exists w',
    checkContainer L (List.length pre) pageIndex w = (Returned tt, w')
    /\ pages w'
       = pre ++ [mapChildren (fun _ => []) c;
                 mapChildren (fun old => (big :: rest) ++ old)
                             (newPageElement L (nextNodeId w))]
    /\ pendingChecks w' = S (pendingChecks w)
    /\ pageCount w' = pageCount w + 1
    /\ nextNodeId w' = S (nextNodeId w)
    /\ scratch w' = scratch w
    /\ isProcessingOverflow w' = isProcessingOverflow w.
Proof.
  intros Htall Hwf Hpages Hc Hnodes HH.
  destruct (Htall content rest Hnodes HH) as [Hover [h [Hh Hlt]]].
  unfold checkContainer, querySelectorEditable.
  rewrite Hpages, nth_error_middle, Hc.
  unfold isOverflowing in Hover. cbn zeta in Hover. rewrite Hover.
  rewrite handlePageOverflow_unfold.
  rewrite Hnodes. cbn [measureLoop]. unfold appendChild.
  cbn [tdCssText tdWidth tdChildren app]. rewrite Hh.
  replace (0 + (h - 0) >? clientHeight content) with true
    by (symmetry; apply Z.gtb_lt; lia).
  cbn [Z.geb Z.compare]. rewrite <- Hnodes.
  destruct (@splitContentAtIndex_last L (recordCall pageIndex w) pre c
              content 0 0%nat Hwf Hpages Hc eq_refl)
    as [w' [Hrun [Hp [Hpc [Hcount [Hid [Hs [_ [Hflag _]]]]]]]]].
  exists w'. split; [exact Hrun |].
  cbn [firstn skipn] in Hp. rewrite Hnodes in Hp.
  now repeat split.
Qed.

Lemma stuck_pass (H : Z) (big : Node) (w : World) :
  tooTall L H big ->
  emptyFits L ->
  0 <= newPageClientHeight L <= H ->
  stuck H big w ->
  exists w',
    checkPageOverflow L w = (Returned tt, w')
    /\ stuck H big w'
    /\ List.length (pages w') = S (List.length (pages w))
    /\ pendingChecks w' = S (pendingChecks w)
    /\ pageCount w' = pageCount w + 1
    /\ scratch w' = scratch w.
Proof.
  intros Htall Hfits HH [Hidle [Hwf [pre [c [content [rest
    [Hpages [Hempty [Hc [Hnodes Hch]]]]]]]]]].
  unfold checkPageOverflow, tryFinally. rewrite Hidle.
  pose proof Hwf as [Hdc [Hnd Hfresh]].
  rewrite (@getAllDocumentContainers_all (setProcessing true w) Hdc).
  cbn [pages setProcessing]. unfold forEach.
  replace (seq 0 (List.length (pages w)))
    with (seq 0 (List.length pre) ++ [List.length pre])
    by (rewrite Hpages, length_app, seq_app; reflexivity).
  rewrite forEachFrom_app. unfold bind at 1.
  rewrite forEachFrom_unchanged.
  2:{ intros p index Hp. apply in_seq in Hp.
      apply (@checkContainer_empty (setProcessing true w) pre [c]);
        trivial; lia. }
  rewrite length_seq. cbn [seq forEachFrom Nat.add]. unfold bind at 1.
  destruct (@handlePageOverflow_tooTall H big (setProcessing true w) pre c
              content rest (List.length pre) Htall Hwf Hpages Hc Hnodes Hch)
    as [w' [Hrun [Hp [Hpc [Hcount [Hid [Hs Hflag]]]]]]].
  rewrite Hrun. unfold ret. eexists. split; [reflexivity |].
  cbn [pages pendingChecks pageCount scratch setProcessing nextNodeId] in *.
  assert (Hall : allChildNodes (setProcessing false w')
                 = allChildNodes w ++ [templateNode (nextNodeId w)]).
  { unfold allChildNodes. cbn [pages setProcessing]. rewrite Hp, Hpages.
    rewrite !map_app, !concat_app. cbn [map List.concat].
    rewrite (nodesOf_mapChildren _ _ Hc), (nodesOf_editable _ Hc), Hnodes.
    cbn [nodesOf mapChildren newPageElement editable childNodes
           isDocumentContainer app].
    now rewrite !app_nil_r, <- !app_assoc. }
  split; [| repeat split; trivial].
  - split; [reflexivity |]. split.
    + apply (@wellFormed_step w (setProcessing false w')
               [templateNode (nextNodeId w)] Hwf).
      * cbn [pages setProcessing]. rewrite Hp. rewrite Hpages in Hdc.
        apply Forall_app in Hdc. destruct Hdc as [Hdpre Hdc].
        apply Forall_app. split; [exact Hdpre |].
        inversion Hdc; subst. repeat constructor.
        now rewrite isDocumentContainer_mapChildren.
      * exact Hall.
      * right. split; [reflexivity | exact Hid].
    + exists (pre ++ [mapChildren (fun _ => []) c]),
        (mapChildren (fun old => (big :: rest) ++ old)
                     (newPageElement L (nextNodeId w))),
        (mkContent (newPageCssText L) (newPageClientWidth L)
                   (newPageClientHeight L)
                   ((big :: rest) ++ [templateNode (nextNodeId w)])),
        (rest ++ [templateNode (nextNodeId w)]).
      cbn [pages setProcessing]. rewrite Hp, <- app_assoc.
      split; [reflexivity |]. split; [| split; [reflexivity |]].
      * apply Forall_app. split; [exact Hempty |].
        constructor; [| constructor]. unfold emptyPage, mapChildren.
        rewrite Hc. cbn [editable]. intros ct' Hct'.
        inversion Hct'; subst ct'. cbn [childNodes clientHeight].
        split; [reflexivity | lia].
      * split; [reflexivity |]. cbn [clientHeight]. exact HH.
  - cbn [pages setProcessing]. rewrite Hp, Hpages, !length_app. cbn. lia.
Qed.

(** X17. A first node taller than a page keeps the pagination running:
    when the last page begins with a node that alone exceeds every page,
    behind pages that are empty, a pass moves the whole content of that
    page to a new page, leaves the page empty and schedules a follow-up
    check, and the document is as it was, one empty page longer.  So [n]
    passes in a row all return, add [n] pages and schedule [n] checks. *)
Theorem oversized_node_never_settles (H : Z) (big : Node) (n : nat)
        (w : World) :
  tooTall L H big ->
  emptyFits L ->
  0 <= newPageClientHeight L <= H ->
  stuck H big w ->
  exists w',
    passes L n w = (Returned tt, w')
    /\ stuck H big w'
    /\ List.length (pages w') = (List.length (pages w) + n)%nat
    /\ getPageCount w' = getPageCount w + Z.of_nat n
    /\ pendingChecks w' = (pendingChecks w + n)%nat
    /\ scratch w' = scratch w.
Proof.
  intros Htall Hfits HH. revert w.
  induction n as [|n IH]; intros w Hstuck.
  - exists w. cbn [passes]. unfold ret, getPageCount.
    split; [reflexivity |]. split; [exact Hstuck |].
    split; [lia |]. split; [lia |]. split; [lia | reflexivity].
  - destruct (@stuck_pass H big w Htall Hfits HH Hstuck)
      as [w1 [Hrun [Hstuck1 [Hlen [Hpc [Hcount Hs]]]]]].
    destruct (IH w1 Hstuck1) as [w' [Hrun' [Hstuck' [Hlen' [Hcount' [Hpc' Hs']]]]]].
    exists w'. cbn [passes]. unfold bind. rewrite Hrun.
    unfold getPageCount in *.
    split; [exact Hrun' |]. split; [exact Hstuck' |].
    split; [lia |]. split; [lia |]. split; [lia | congruence].
Qed.

End NeverSettles.

(* ------------------------------------------------------------------ *)
(** ** A pass returns, and keeps the page count *)

Section PassReturns.
Import JsString PageManager Spec Measure Splitter Hoare Startup.

Variable L : Layout.

Lemma kind_mapChildren (f : list Node -> list Node) (c : Container) :
  (isDocumentContainer (mapChildren f c), hasContent (mapChildren f c))
  = (isDocumentContainer c, hasContent c).
Proof. destruct c as [dc [ct|]]; reflexivity. Qed.

Lemma kinds_map (f : list Node -> list Node) (w : World) :
  pageKinds (withPages (map (mapChildren f)) w) = pageKinds w.
Proof.
  unfold pageKinds. cbn [pages withPages]. rewrite map_map.
  apply map_ext. intros c. apply kind_mapChildren.
Qed.

Lemma kinds_updateAt (f : list Node -> list Node) (q : nat) (w : World) :
  pageKinds (withPages (updateAt q (mapChildren f)) w) = pageKinds w.
Proof.
  unfold pageKinds. cbn [pages withPages]. revert q.
  induction (pages w) as [|c ps IH]; intros [|q]; cbn [updateAt map];
    trivial.
  - now rewrite kind_mapChildren.
  - now rewrite IH.
Qed.

Lemma fillFragment_kinds (nodesToMove : list Node) :
  forall (st : list Node * World),
    pageKinds (snd (fold_left moveOne nodesToMove st)) = pageKinds (snd st).
Proof.
  induction nodesToMove as [|node rest IH]; intros [fragment w];
    cbn [fold_left]; [reflexivity |].
  unfold moveOne at 2. destruct (hasParentNode w fragment node).
  - rewrite IH. cbn [snd]. apply kinds_map.
  - apply IH.
Qed.

Lemma moveContentToNextPage_returns (allNodes : list Node) (splitIndex : Z)
      (q : nat) (w : World) :
  exists w',
    moveContentToNextPage allNodes splitIndex (Some q) w = (Returned tt, w')
    /\ pageKinds w' = pageKinds w
    /\ pageCount w' = pageCount w.
Proof.
  unfold moveContentToNextPage, fillFragment.
  pose proof (fillFragment_kinds (slice allNodes splitIndex) ([], w)) as Hk.
  pose proof (@fillFragment_shape None (slice allNodes splitIndex) ([], w))
    as [_ [Hc _]].
  destruct (fold_left _ (slice allNodes splitIndex) ([], w)) as [fragment w1].
  cbn [snd] in Hk, Hc. eexists. split; [reflexivity |].
  destruct (includes _ _); rewrite ?kinds_updateAt; now split.
Qed.

Lemma allPagesWithContent_kinds (w w' : World) :
  pageKinds w' = pageKinds w ->
  allPagesWithContent w -> allPagesWithContent w'.
Proof.
  unfold allPagesWithContent, pageKinds. intros Hk H.
  assert (E : forall ps,
             Forall (fun c => isDocumentContainer c = true
                              /\ hasContent c = true) ps
             <-> Forall (fun k => k = (true, true))
                        (map (fun c => (isDocumentContainer c, hasContent c))
                             ps)).
  { intros ps. rewrite Forall_map. split; apply Forall_impl; intros c.
    - now intros [-> ->].
    - intros Hc. now inversion Hc. }
  apply E. rewrite Hk. now apply E.
Qed.

Lemma measureLoop_total (availableHeight : Z) (rest : list Node) :
  readsSucceed L ->
  forall i currentHeight div,
    exists r div',
      measureLoop L availableHeight rest i currentHeight div
      = (Returned r, div').
Proof.
  intros Hreads. induction rest as [|node rest IH]; intros i cur div;
    cbn [measureLoop].
  - now exists (-1), div.
  - destruct (tempDivScrollHeight L (appendChild div node)) as [sh|] eqn:Hsh;
      [| now apply Hreads in Hsh].
    destruct (cur + (sh - cur) >? availableHeight).
    + now exists i, (appendChild div node).
    + apply IH.
Qed.

(** A split in a document all of whose pages have a content area. *)
Lemma splitContentAtIndex_returns (w : World) (container : nat)
      (content : Content) (allNodes : list Node) (splitIndex adjusted : Z) :
  allPagesWithContent w ->
  (container < List.length (pages w))%nat ->
  adjustSplitForKeepTogether (childNodes content) allNodes splitIndex
  = Returned adjusted ->
  exists w',
    splitContentAtIndex L container content allNodes splitIndex w
    = (Returned tt, w')
    /\ allPagesWithContent w'
    /\ (List.length (pages w) <= List.length (pages w'))%nat.
Proof.
  intros Hall Hlt Hadj.
  unfold splitContentAtIndex. unfold bind at 1. unfold liftOutcome.
  rewrite Hadj. unfold bind at 1.
  assert (Hfinish : forall q w2,
             allPagesWithContent w2 ->
             (List.length (pages w) <= List.length (pages w2))%nat ->
             hasContent (nth q (pages w2) (mkContainer false None)) = true ->
             (q < List.length (pages w2))%nat ->
             exists w',
               (bind (fun w0 =>
                        ret (match querySelectorEditable w0 q with
                             | Some _ => Some q
                             | None => None
                             end) w0)
                     (fun nextContent =>
                        bind (moveContentToNextPage allNodes adjusted
                                                    nextContent)
                          (fun _ =>
                             bind (handleCursorMovement allNodes adjusted
                                                        nextContent q)
                                  (fun _ => modify setTimeoutCheck)))) w2
               = (Returned tt, w')
               /\ allPagesWithContent w'
               /\ (List.length (pages w) <= List.length (pages w'))%nat).
  { intros q w2 Hall2 Hlen2 Hq Hq'.
    unfold bind at 1. unfold ret at 1. unfold querySelectorEditable.
    rewrite (nth_error_nth' (pages w2) (mkContainer false None) Hq').
    unfold hasContent in Hq.
    destruct (editable (nth q (pages w2) (mkContainer false None)));
      [| discriminate].
    unfold bind at 1.
    destruct (moveContentToNextPage_returns allNodes adjusted q w2)
      as [w3 [Hmove [Hk3 _]]].
    rewrite Hmove. unfold bind at 1. rewrite handleCursorMovement_run.
    unfold modify. eexists. split; [reflexivity |].
    assert (Hk : pageKinds
                   (setTimeoutCheck
                      (if Z.of_nat (List.length allNodes) >? adjusted
                       then setFocus q w3 else w3))
                 = pageKinds w2)
      by (rewrite <- Hk3; now destruct (_ >? _)).
    split; [exact (@allPagesWithContent_kinds _ _ Hk Hall2) |].
    apply (f_equal (@List.length (bool * bool))) in Hk.
    unfold pageKinds in Hk. rewrite !length_map in Hk. lia. }
  destruct (nth_error (pages w) (S container)) as [c'|] eqn:Hnth.
  - pose proof Hall as Hall'. unfold allPagesWithContent in Hall'.
    rewrite Forall_forall in Hall'.
    destruct (Hall' c' (nth_error_In _ _ Hnth)) as [Hdc Hct].
    rewrite Hdc. unfold ret at 1.
    assert (Hlen : (S container < List.length (pages w))%nat)
      by (apply nth_error_Some; congruence).
    apply Hfinish; trivial.
    now rewrite (nth_error_nth _ _ _ Hnth).
  - destruct (exists_last (l := pages w)) as [pre [c Hpages]].
    { intros Hnil. rewrite Hnil in Hlt. cbn in Hlt. lia. }
    pose proof Hall as Hall'. unfold allPagesWithContent in Hall'.
    rewrite Hpages in Hall'. apply Forall_app in Hall'.
    destruct Hall' as [_ Hc]. inversion Hc as [|? ? [Hdc _] _]; subst.
    rewrite (@addNewPage_last L w pre c Hpages Hdc).
    set (w2 := withPages (fun ps => ps ++ [newPageElement L (nextNodeId w)])
                 (bumpNodeId (setPageCount (pageCount w + 1) w))).
    assert (Hp2 : pages w2 = (pre ++ [c]) ++ [newPageElement L (nextNodeId w)])
      by (unfold w2; cbn [pages withPages bumpNodeId setPageCount];
          now rewrite Hpages).
    assert (Hq : S (List.length pre) = List.length (pre ++ [c]))
      by (rewrite length_app; cbn; lia).
    apply Hfinish.
    + unfold allPagesWithContent. rewrite Hp2, <- Hpages.
      apply Forall_app. split; [exact Hall |]. repeat constructor.
    + rewrite Hp2, <- Hpages, length_app. apply Nat.le_add_r.
    + rewrite Hp2, Hq, nth_middle. reflexivity.
    + rewrite Hp2, !length_app. cbn [List.length]. lia.
Qed.

Lemma checkContainer_returns (w : World) (container index : nat) :
  readsSucceed L ->
  allPagesWithContent w ->
  (container < List.length (pages w))%nat ->
  exists w',
    checkContainer L container index w = (Returned tt, w')
    /\ allPagesWithContent w'
    /\ (List.length (pages w) <= List.length (pages w'))%nat.
Proof.
  intros Hreads Hall Hlt. unfold checkContainer.
  destruct (querySelectorEditable w container) as [content|];
    [| now exists w].
  destruct (_ >? _); [| now exists w].
  rewrite handlePageOverflow_unfold.
  destruct (@measureLoop_total (clientHeight content) (childNodes content)
              Hreads 0 0
              (mkTempDiv (cssText content) (clientWidth content) []))
    as [r [div' Hloop]].
  rewrite Hloop.
  destruct (r >=? 0) eqn:Hr0; [| now exists (recordCall index w)].
  apply measureLoop_range in Hloop. apply Z.geb_le in Hr0.
  destruct (@adjust_returns (childNodes content) r) as [k [Hadj _]]; [lia |].
  exact (@splitContentAtIndex_returns (recordCall index w) container content
           (childNodes content) r (Z.of_nat k) Hall Hlt Hadj).
Qed.

Lemma loop_returns (items : list nat) :
  readsSucceed L ->
  forall (index : nat) (w : World),
    allPagesWithContent w ->
    Forall (fun p => (p < List.length (pages w))%nat) items ->
    exists w',
      forEachFrom index items (checkContainer L) w = (Returned tt, w')
      /\ allPagesWithContent w'.
Proof.
  intros Hreads. induction items as [|p items IH]; intros index w Hall Hin.
  - now exists w.
  - inversion Hin as [|? ? Hp Hrest]; subst.
    destruct (@checkContainer_returns w p index Hreads Hall Hp)
      as [w1 [Hstep [Hall1 Hlen]]].
    destruct (IH (S index) w1 Hall1) as [w' [Hrun Hall']].
    { eapply Forall_impl; [| exact Hrest]. cbn beta. intros a Ha. lia. }
    exists w'. cbn [forEachFrom]. unfold bind. rewrite Hstep.
    now split.
Qed.

(** X19. In a document whose wrapper holds only pages with a content
    area, and with a measurement div whose height can always be read,
    [checkPageOverflow] returns: no step of the pass throws, whatever
    the nodes and their heights; and the document is again made of pages
    with a content area. *)
Theorem pass_returns (w : World) :
  readsSucceed L ->
  allPagesWithContent w ->
  exists w',
    checkPageOverflow L w = (Returned tt, w')
    /\ allPagesWithContent w'.
Proof.
  intros Hreads Hall. unfold checkPageOverflow, tryFinally.
  destruct (isProcessingOverflow w); [now exists w |].
  destruct (@loop_returns (getAllDocumentContainers (setProcessing true w))
              Hreads 0%nat (setProcessing true w) Hall)
    as [w1 [Hloop Hall1]].
  - unfold getAllDocumentContainers. apply Forall_forall. intros p Hp.
    apply filter_In in Hp. destruct Hp as [Hp _]. apply in_seq in Hp. lia.
  - unfold forEach. rewrite Hloop. eexists. split; [reflexivity |].
    exact Hall1.
Qed.

Lemma containers_snoc (ps : list Container) (c : Container) (w w' : World) :
  pages w = ps -> pages w' = ps ++ [c] ->
  getAllDocumentContainers w'
  = getAllDocumentContainers w
    ++ (if isDocumentContainer c then [List.length ps] else []).
Proof.
  intros Hw Hw'. unfold getAllDocumentContainers.
  rewrite Hw, Hw', length_app. cbn [List.length].
  rewrite seq_app, filter_app. cbn [seq filter Nat.add].
  rewrite nth_error_middle. f_equal.
  apply filter_ext_in. intros p Hp. apply in_seq in Hp.
  rewrite nth_error_app1 by lia. reflexivity.
Qed.

Lemma containers_count (ps : list Container) :
  forall w, pages w = ps ->
    List.length (getAllDocumentContainers w)
    = List.length (filter (fun b : bool => b) (map isDocumentContainer ps)).
Proof.
  induction ps as [|c ps IH] using rev_ind; intros w Hw.
  - unfold getAllDocumentContainers. now rewrite Hw.
  - rewrite (@containers_snoc ps c (withPages (fun _ => ps) w) w eq_refl Hw).
    rewrite length_app, (IH (withPages (fun _ => ps) w) eq_refl).
    rewrite map_app, filter_app, length_app. cbn [map filter].
    now destruct (isDocumentContainer c).
Qed.

(** X20. [pageCount] follows the pages: [initialize] sets it to the
    number of pages of a document that has any, and a pass of
    [checkPageOverflow] that returns keeps it equal to the number of
    pages. *)
Theorem pageCount_in_sync (w : World) :
  (getAllDocumentContainers w <> [] -> inSync (snd (initialize w)))
  /\ (forall w', inSync w ->
                 checkPageOverflow L w = (Returned tt, w') -> inSync w').
Proof.
  split.
  - intros Hne. unfold inSync, initialize, getPageCount.
    cbn [snd pageCount setTimeoutCheck setPageCount].
    change (getAllDocumentContainers
              (setTimeoutCheck
                 (setPageCount
                    (if Z.of_nat (List.length (getAllDocumentContainers w)) =? 0
                     then 1
                     else Z.of_nat (List.length (getAllDocumentContainers w)))
                    w)))
      with (getAllDocumentContainers w).
    destruct (getAllDocumentContainers w) as [|p l]; [congruence |].
    reflexivity.
  - intros w' Hsync Hrun. unfold inSync, getPageCount in *.
    assert (H : grown None w w').
    { change None with (errorOf (Returned tt)).
      revert w w' Hsync Hrun.
      assert (Hsat : sat grown (checkPageOverflow L)).
      { apply sat_checkPageOverflow.
        - intros w. exists 0%nat. apply grownBy_refl.
        - apply grown_trans.
        - intros e w w' b H. exact H.
        - intros container index.
          apply (@sat_weaken _ (grownAfter container));
            [| apply sat_grownAfter_checkContainer].
          intros e w w' [k [_ [G _]]]. now exists k. }
      intros w w' _ Hrun. exact (Hsat _ _ _ Hrun). }
    destruct H as [k [Hflags [_ Hcount]]]. rewrite (Hcount eq_refl), Hsync.
    rewrite (@containers_count (pages w) w eq_refl),
      (@containers_count (pages w') w' eq_refl), Hflags.
    rewrite filter_app, length_app.
    replace (List.length (filter (fun b : bool => b) (repeat true k)))
      with k; [lia |].
    clear. induction k as [|k IH]; cbn; [reflexivity | now rewrite <- IH].
Qed.

End PassReturns.

(* ------------------------------------------------------------------ *)
(** ** Where moved nodes go, and a page that measures as fitting *)

Section MoveAndMeasure.
Import JsString PageManager Spec Measure Splitter Sample Fixture.

Variable L : Layout.

(** X21. [moveContentToNextPage] takes the nodes from the split index on
    off their page and puts them, in order, at the front of the next
    page: before the nodes that page had when its [innerHTML] does not
    include the placeholder text, so that the nodes of the document read
    in page order are unchanged; and in place of them when it does.  All
    other pages keep their nodes. *)
Theorem move_prepends_or_replaces (w : World) (pre : list Container)
        (c cq : Container) (post : list Container) (content cc : Content)
        (k : nat) :
  pages w = pre ++ c :: cq :: post ->
  editable c = Some content ->
  editable cq = Some cc ->
  distinctNodes (allChildNodes w) ->
  exists w',
    moveContentToNextPage (childNodes content) (Z.of_nat k)
                          (Some (S (List.length pre))) w
    = (Returned tt, w')
    /\ map nodesOf (pages w')
       = map nodesOf pre
         ++ firstn k (childNodes content)
         :: (skipn k (childNodes content)
             ++ (if includes (innerHTML (childNodes cc)) placeholderText
                 then [] else childNodes cc))
         :: map nodesOf post
    /\ (includes (innerHTML (childNodes cc)) placeholderText = false ->
        allChildNodes w' = allChildNodes w).
Proof.
  intros Hpages Hc Hcq Hnd.
  rewrite (@moveContentToNextPage_effect w pre c cq post content cc k
             Hpages Hc Hcq Hnd).
  eexists. split; [reflexivity |]. cbn [pages withPages].
  assert (Hmap : map nodesOf
                   (pre ++ mapChildren
                             (fun _ => firstn k (childNodes content)) c
                        :: mapChildren
                             (fun old =>
                                skipn k (childNodes content)
                                ++ (if includes (innerHTML old) placeholderText
                                    then [] else old)) cq
                        :: post)
                 = map nodesOf pre
                   ++ firstn k (childNodes content)
                   :: (skipn k (childNodes content)
                       ++ (if includes (innerHTML (childNodes cc))
                                       placeholderText
                           then [] else childNodes cc))
                   :: map nodesOf post).
  { rewrite map_app. cbn [map].
    now rewrite (nodesOf_mapChildren _ _ Hc), (nodesOf_mapChildren _ _ Hcq). }
  split; [exact Hmap |].
  intros Hno. unfold allChildNodes. cbn [pages withPages].
  rewrite Hmap, Hpages, Hno, map_app. cbn [map].
  rewrite (nodesOf_editable _ Hc), (nodesOf_editable _ Hcq).
  rewrite !concat_app. cbn [List.concat]. f_equal.
  rewrite !app_assoc. do 2 f_equal. apply firstn_skipn.
Qed.

(** X22. A page that overflows by its scroll height but whose nodes all
    measure within the available height in the measurement div is left
    as it is: [handlePageOverflow] returns, with the call recorded and
    nothing else changed; no node moves, no page is added, no follow-up
    check is scheduled and the measurement div is gone. *)
Theorem handlePageOverflow_all_fits (w : World) (container : nat)
        (content : Content) (h : nat -> Z) (availableHeight : Z)
        (pageIndex : nat) :
  (forall j, (j < List.length (childNodes content))%nat ->
     tempDivScrollHeight L
       (mkTempDiv (cssText content) (clientWidth content)
                  (firstn (S j) (childNodes content)))
     = Some (h j)
     /\ h j <= availableHeight) ->
  handlePageOverflow L container content availableHeight pageIndex w
  = (Returned tt, recordCall pageIndex w).
Proof.
  intros Hh. rewrite handlePageOverflow_unfold.
  destruct (@measureLoop_spec L availableHeight (childNodes content) 0 0
              (mkTempDiv (cssText content) (clientWidth content) []) h)
    as [r [Hr Hcases]].
  { intros j Hj. exact (proj1 (Hh j Hj)). }
  destruct (measureLoop L availableHeight (childNodes content) 0 0 _)
    as [o div']. cbn [fst] in Hr. subst o.
  destruct Hcases as [[-> _] | [i [_ [Hi [Hover _]]]]]; [reflexivity |].
  pose proof (proj2 (Hh i Hi)). lia.
Qed.

End MoveAndMeasure.

Section MoveAndMeasureAtWork.
Import JsString PageManager Spec Measure Splitter Sample Fixture.

Lemma two_pages_distinct :
  distinctNodes
    (allChildNodes (document [page threeParagraphs; page [para 4 "d"]])).
Proof.
  unfold distinctNodes. simpl.
  repeat (constructor; [simpl; intuition discriminate |]). constructor.
Qed.

Lemma move_prepends_or_replaces_witness :
  exists w',
    moveContentToNextPage threeParagraphs (Z.of_nat 1) (Some 1%nat)
                          (document [page threeParagraphs; page [para 4 "d"]])
    = (Returned tt, w')
    /\ map nodesOf (pages w')
       = [] ++ firstn 1 threeParagraphs
            :: (skipn 1 threeParagraphs
                ++ (if includes (innerHTML [para 4 "d"]) placeholderText
                    then [] else [para 4 "d"]))
            :: []
    /\ (includes (innerHTML [para 4 "d"]) placeholderText = false ->
        allChildNodes w'
        = allChildNodes (document [page threeParagraphs; page [para 4 "d"]])).
Proof.
  apply (@move_prepends_or_replaces
           (document [page threeParagraphs; page [para 4 "d"]]) []
           (page threeParagraphs) (page [para 4 "d"]) []
           (contentArea threeParagraphs) (contentArea [para 4 "d"]) 1).
  - reflexivity.
  - reflexivity.
  - reflexivity.
  - exact two_pages_distinct.
Defined.

Lemma handlePageOverflow_all_fits_witness :
  handlePageOverflow layout600 0 (contentArea [para 1 "a"]) 864 0
                     (document [page [para 1 "a"]])
  = (Returned tt, recordCall 0 (document [page [para 1 "a"]])).
Proof.
  apply (@handlePageOverflow_all_fits layout600 (document [page [para 1 "a"]])
           0 (contentArea [para 1 "a"]) heights600 864 0).
  intros j Hj. simpl in Hj.
  destruct j as [|j]; [| lia]. split; [reflexivity | vm_compute; discriminate].
Defined.

End MoveAndMeasureAtWork.

(* ------------------------------------------------------------------ *)
(** ** The guarantees at work *)

Section GuaranteesAtWork.
Import JsString PageManager Spec Sample Hoare Cascade Fixture Splitter Startup.

Lemma overflowing_wellFormed : wellFormed overflowing.
Proof.
  repeat split.
  - repeat constructor.
  - unfold distinctNodes. simpl.
    repeat (constructor; [simpl; intuition discriminate |]). constructor.
  - simpl. repeat constructor.
Qed.

Lemma blocked_wellFormed : wellFormed blocked.
Proof.
  repeat split.
  - repeat constructor.
  - unfold distinctNodes. simpl.
    repeat (constructor; [simpl; intuition discriminate |]). constructor.
  - simpl. repeat constructor.
Qed.

Lemma pass_only_appends_pages_witness :
  exists k : nat,
    map isDocumentContainer
        (pages (snd (checkPageOverflow layout600 overflowing)))
    = map isDocumentContainer (pages overflowing) ++ repeat true k
    /\ pageCount overflowing + Z.of_nat k
       <= getPageCount (snd (checkPageOverflow layout600 overflowing))
    /\ (fst (checkPageOverflow layout600 overflowing) = Returned tt ->
        getPageCount (snd (checkPageOverflow layout600 overflowing))
        = pageCount overflowing + Z.of_nat k).
Proof.
  apply (@pass_only_appends_pages layout600 overflowing
           (fst (checkPageOverflow layout600 overflowing))
           (snd (checkPageOverflow layout600 overflowing))).
  vm_compute. reflexivity.
Defined.

Lemma pass_adds_at_most_one_page_witness :
  (List.length (pages (snd (checkPageOverflow layout600 overflowing)))
   <= S (List.length (pages overflowing)))%nat
  /\ Forall (fun c => isDocumentContainer c = true)
            (pages (snd (checkPageOverflow layout600 overflowing))).
Proof.
  apply (@pass_adds_at_most_one_page layout600 overflowing
           (fst (checkPageOverflow layout600 overflowing))
           (snd (checkPageOverflow layout600 overflowing))).
  - repeat constructor.
  - vm_compute. reflexivity.
Defined.

Lemma pass_leaves_at_most_one_div_witness :
  scratch (snd (checkPageOverflow layoutThrowing overflowing))
  = scratch overflowing
  \/ (fst (checkPageOverflow layoutThrowing overflowing)
      = Thrown DOMException
      /\ exists div,
           scratch (snd (checkPageOverflow layoutThrowing overflowing))
           = scratch overflowing ++ [div]).
Proof.
  apply (@pass_leaves_at_most_one_div layoutThrowing overflowing
           (fst (checkPageOverflow layoutThrowing overflowing))
           (snd (checkPageOverflow layoutThrowing overflowing))).
  vm_compute. reflexivity.
Defined.


Lemma pass_handles_pages_in_order_witness :
  exists l,
    overflowCalls (snd (checkPageOverflow layout600 overflowing))
    = overflowCalls overflowing ++ l
    /\ ascending 0 (List.length (getAllDocumentContainers overflowing)) l.
Proof.
  apply (@pass_handles_pages_in_order layout600 overflowing
           (fst (checkPageOverflow layout600 overflowing))
           (snd (checkPageOverflow layout600 overflowing))).
  vm_compute. reflexivity.
Defined.

Lemma addNewPage_appends_witness :
  exists w',
    addNewPage layout600 true overflowing
    = (Returned (List.length (pages overflowing)), w')
    /\ pages w'
       = pages overflowing ++ [newPageElement layout600 (nextNodeId overflowing)]
    /\ getAllDocumentContainers w'
       = getAllDocumentContainers overflowing
         ++ [List.length (pages overflowing)]
    /\ lastPageOf w' = Some (List.length (pages overflowing))
    /\ getPageCount w' = getPageCount overflowing + 1
    /\ focusedPage w' = Some (List.length (pages overflowing)).
Proof.
  apply (@addNewPage_appends layout600 true overflowing []
           (page threeParagraphs)); reflexivity.
Defined.

Lemma addNewPage_without_last_page_witness :
  exists w',
    addNewPage layout600 false noPages = (Thrown TypeError, w')
    /\ pages w' = pages noPages
    /\ getAllDocumentContainers w' = getAllDocumentContainers noPages
    /\ getPageCount w' = getPageCount noPages + 1
    /\ focusedPage w' = focusedPage noPages.
Proof.
  apply (@addNewPage_without_last_page layout600 false noPages).
  reflexivity.
Defined.

Lemma split_before_page_without_content_witness :
  exists k w',
    Z.of_nat k <= 1
    /\ splitContentAtIndex layout600 0 (contentArea threeParagraphs)
                           threeParagraphs 1 blocked
       = (Thrown TypeError, w')
    /\ pages w'
       = [] ++ mapChildren (fun _ => firstn k threeParagraphs)
                           (page threeParagraphs)
            :: mkContainer true None :: []
    /\ skipn k threeParagraphs <> []
    /\ (forall node, In node (skipn k threeParagraphs) ->
                     ~ In (nid node) (map nid (allChildNodes w')))
    /\ pendingChecks w' = pendingChecks blocked.
Proof.
  apply (@split_before_page_without_content layout600 blocked []
           (page threeParagraphs) (mkContainer true None) []
           (contentArea threeParagraphs) 1).
  - exact blocked_wellFormed.
  - reflexivity.
  - reflexivity.
  - reflexivity.
  - simpl. lia.
Defined.

Lemma handlePageOverflow_keeps_what_fits_witness :
  exists k,
    (k <= List.length threeParagraphs)%nat
    /\ nth_error
         (pages (snd (handlePageOverflow layout600 0
                        (contentArea threeParagraphs) 864 0 overflowing)))
         0
       = Some (mapChildren (fun _ => firstn k threeParagraphs)
                           (page threeParagraphs))
    /\ (forall j, (j < k)%nat -> heights600 j <= 864)
    /\ ((k < List.length threeParagraphs)%nat ->
        exists r, (k <= r < List.length threeParagraphs)%nat
                  /\ 864 < heights600 r).
Proof.
  apply (@handlePageOverflow_keeps_what_fits layout600 overflowing []
           (page threeParagraphs) [] (contentArea threeParagraphs)
           heights600 864 0).
  - exact overflowing_wellFormed.
  - reflexivity.
  - reflexivity.
  - intros j Hj. simpl in Hj.
    destruct j as [|[|[|j]]]; [reflexivity | reflexivity | reflexivity | lia].
Defined.

Lemma split_moves_focus_witness :
  focusedPage (snd (splitContentAtIndex layout600 0
                      (contentArea threeParagraphs) threeParagraphs 1
                      overflowing))
  = Some 1%nat
  /\ nth_error (pages (snd (splitContentAtIndex layout600 0
                              (contentArea threeParagraphs) threeParagraphs 1
                              overflowing))) 1
     <> None
  /\ pendingChecks (snd (splitContentAtIndex layout600 0
                           (contentArea threeParagraphs) threeParagraphs 1
                           overflowing))
     = S (pendingChecks overflowing).
Proof.
  apply (@split_moves_focus layout600 overflowing
           (snd (splitContentAtIndex layout600 0
                   (contentArea threeParagraphs) threeParagraphs 1
                   overflowing))
           [] (page threeParagraphs) [] (contentArea threeParagraphs) 1).
  - exact overflowing_wellFormed.
  - reflexivity.
  - reflexivity.
  - simpl. lia.
  - vm_compute. reflexivity.
Defined.

Lemma elementCount_nonneg (l : list Node) : 0 <= elementCount l.
Proof. unfold elementCount. lia. Qed.

Lemma big_tooTall : tooTall layout950 864 big.
Proof.
  intros content rest Hnodes Hc.
  unfold isOverflowing, layout950, scrollHeight, tempDivScrollHeight.
  cbn [tdChildren]. rewrite Hnodes.
  assert (E : elementCount (big :: rest) = 1 + elementCount rest).
  { unfold elementCount.
    change (filter isElement (big :: rest)) with (big :: filter isElement rest).
    cbn [List.length]. lia. }
  rewrite E. pose proof (elementCount_nonneg rest). split.
  - apply Z.gtb_lt. lia.
  - exists 950. split; [reflexivity | lia].
Qed.

Lemma layout950_emptyFits : emptyFits layout950.
Proof.
  intros content Hnil Hpos. unfold isOverflowing, layout950, scrollHeight.
  rewrite Hnil. rewrite Z.gtb_ltb. apply Z.ltb_ge. cbn. lia.
Qed.

Lemma tall_stuck : stuck 864 big tall.
Proof.
  split; [reflexivity |]. split.
  - repeat split.
    + repeat constructor.
    + unfold distinctNodes. simpl.
      repeat (constructor; [simpl; intuition discriminate |]). constructor.
    + simpl. repeat constructor.
  - exists [], (page [big; para 2 "b"]), (contentArea [big; para 2 "b"]),
      [para 2 "b"].
    repeat split; try reflexivity; try constructor; simpl; lia.
Qed.

Lemma oversized_node_never_settles_witness :
  exists w',
    passes layout950 3 tall = (Returned tt, w')
    /\ stuck 864 big w'
    /\ List.length (pages w') = (List.length (pages tall) + 3)%nat
    /\ getPageCount w' = getPageCount tall + Z.of_nat 3
    /\ pendingChecks w' = (pendingChecks tall + 3)%nat
    /\ scratch w' = scratch tall.
Proof.
  apply (@oversized_node_never_settles layout950 864 big 3 tall).
  - exact big_tooTall.
  - exact layout950_emptyFits.
  - simpl. lia.
  - exact tall_stuck.
Defined.

Lemma adjustSplit_out_of_range_witness :
  adjustSplitForKeepTogether threeParagraphs threeParagraphs 5
  = Thrown TypeError.
Proof.
  apply (proj1 (adjustSplit_out_of_range threeParagraphs threeParagraphs 5)).
  simpl. lia.
Defined.

Lemma pass_returns_witness :
  exists w',
    checkPageOverflow layout600 overflowing = (Returned tt, w')
    /\ allPagesWithContent w'.
Proof.
  apply (@pass_returns layout600 overflowing).
  - intros div. discriminate.
  - repeat constructor.
Defined.

Lemma pageCount_in_sync_witness : inSync (snd (initialize overflowing)).
Proof.
  apply (proj1 (pageCount_in_sync layout600 overflowing)).
  vm_compute. discriminate.
Defined.

End GuaranteesAtWork.
